(** * QNPtoVox: the pipeline scripts, embedded and checked against their specification

    Sources embedded here:
    - [scripts/pipeline_utils.py]: [PipelineConfig._load_config], [get],
      [get_subjects], [get_subject_step_dir], [validate_inputs],
      [create_output_directories], [check_existing_outputs];
    - [scripts/pipeline_steps.py]: [BaseStep.execute],
      [UpsamplingStep._process_subject],
      [CoordinateExtractionStep._process_subject] and [_create_processed_file],
      [CoordinateTransformationStep._load_manual_coordinates] and
      [_create_3d_blocks], [KernelApplicationStep._process_subject],
      [MNIRegistrationStep.execute];
    - [scripts/run_qnp_pipeline.py]: [QNPPipeline.validate_inputs] and
      [QNPPipeline.run_pipeline] with the table [step_functions].

    Conventions.  A Python exception is the value [None] of an [option]
    (the code never tells exception classes apart: every handler is
    [except Exception]).  Python [int] is [Z], [//] is [Z.div] (both floor),
    strings are [string] read as ASCII text.  Integers have no bound: the
    limit an interpreter may put on the length of a decimal numeral is
    not part of the model. *)

From Stdlib Require Import ZArith QArith_base Ascii String List Bool Lia.
From stdpp Require Import base decidable option list numbers strings pretty gmap fin_maps.

Local Open Scope string_scope.
Local Open Scope Z_scope.
Local Open Scope list_scope.

(* ===================================================================== *)
(** * Part I.  The program                                                 *)
(* ===================================================================== *)

(** ** Python string primitives *)

(** [str.isspace] on one ASCII character: TAB, LF, VT, FF, CR, FS, GS, RS,
    US and the space. *)
Definition isspace (c : ascii) : bool :=
  let n := nat_of_ascii c in
  ((9 <=? n)%nat && (n <=? 13)%nat) || ((28 <=? n)%nat && (n <=? 32)%nat).

Fixpoint lstrip (s : string) : string :=
  match s with
  | String c s' => if isspace c then lstrip s' else s
  | EmptyString => EmptyString
  end.

Fixpoint rstrip (s : string) : string :=
  match s with
  | String c s' =>
      match rstrip s' with
      | EmptyString => if isspace c then EmptyString else String c EmptyString
      | r => String c r
      end
  | EmptyString => EmptyString
  end.

(** [s.strip()] *)
Definition strip (s : string) : string := rstrip (lstrip s).

(** [s.startswith(p)] *)
Definition startswith (p s : string) : bool := String.prefix p s.

(** [c in s] for a one-character needle. *)
Fixpoint contains (c : ascii) (s : string) : bool :=
  match s with
  | String d s' => if Ascii.eqb c d then true else contains c s'
  | EmptyString => false
  end.

(** [s.split(c, 1)] when [c in s]: the text before the first [c] and the
    text after it. *)
Fixpoint split_once (c : ascii) (s : string) : option (string * string) :=
  match s with
  | String d s' =>
      if Ascii.eqb c d then Some (EmptyString, s')
      else match split_once c s' with
           | Some (l, r) => Some (String d l, r)
           | None => None
           end
  | EmptyString => None
  end.

(** [s.split(c)]: every piece between two separators, empty pieces kept. *)
Fixpoint split (c : ascii) (s : string) : list string :=
  match s with
  | String d s' =>
      if Ascii.eqb c d then EmptyString :: split c s'
      else match split c s' with
           | p :: ps => String d p :: ps
           | [] => [String d EmptyString]
           end
  | EmptyString => [EmptyString]
  end.

Definition lower_char (c : ascii) : ascii :=
  let n := nat_of_ascii c in
  if ((65 <=? n)%nat && (n <=? 90)%nat) then ascii_of_nat (n + 32) else c.

(** [s.lower()] *)
Fixpoint lower (s : string) : string :=
  match s with
  | String c s' => String (lower_char c) (lower s')
  | EmptyString => EmptyString
  end.

Definition is_digit (c : ascii) : bool :=
  let n := nat_of_ascii c in ((48 <=? n)%nat && (n <=? 57)%nat).

Fixpoint all_digits (s : string) : bool :=
  match s with
  | String c s' => is_digit c && all_digits s'
  | EmptyString => true
  end.

(** [s.isdigit()] on ASCII text: at least one character, and every
    character one of [0] to [9].  On other text Python's test also accepts
    the digits of other scripts; such text is outside this model, and the
    statements that depend on it say so with [ascii_text]. *)
Definition isdigit (s : string) : bool :=
  match s with
  | EmptyString => false
  | _ => all_digits s
  end.

(** [s.replace(c, '')] *)
Fixpoint remove_char (c : ascii) (s : string) : string :=
  match s with
  | String d s' => if Ascii.eqb c d then remove_char c s' else String d (remove_char c s')
  | EmptyString => EmptyString
  end.

Fixpoint count_char (c : ascii) (s : string) : nat :=
  match s with
  | String d s' => (if Ascii.eqb c d then 1 else 0) + count_char c s'
  | EmptyString => 0
  end.

Definition digit_value (c : ascii) : Z := Z.of_nat (nat_of_ascii c) - 48.

(** The digits of an [int] literal, with the underscores Python allows:
    one underscore at a time, and only between two digits. *)
Inductive lit_state := AtStart | AfterDigit | AfterUnderscore.

Fixpoint int_digits (st : lit_state) (acc : Z) (s : string) : option Z :=
  match s with
  | String c s' =>
      if is_digit c then int_digits AfterDigit (10 * acc + digit_value c) s'
      else if Ascii.eqb c "_"
           then match st with
                | AfterDigit => int_digits AfterUnderscore acc s'
                | _ => None
                end
           else None
  | EmptyString => match st with AfterDigit => Some acc | _ => None end
  end.

(** [int(s)] for a string: surrounding white space is dropped, one sign is
    allowed; [None] is [ValueError].  (CPython's optional cap on the number
    of digits is not modelled.) *)
Definition int_of_str (s : string) : option Z :=
  match strip s with
  | String "+" d => int_digits AtStart 0 d
  | String "-" d => Z.opp <$> int_digits AtStart 0 d
  | d => int_digits AtStart 0 d
  end.

(** [float(s)] on the only strings the configuration loader gives it:
    strings made of digits and points with at least one digit.  Python reads
    such a string as a float exactly when it holds one point; two or more
    points are a [ValueError].  The float that is read is kept as its
    literal. *)
Definition float_of_digits_and_points (s : string) : option string :=
  if (count_char "." s <=? 1)%nat then Some s else None.

(** ** ConfigStore: [PipelineConfig._load_config] *)

Inductive config_value :=
| VBool (b : bool)
| VInt (n : Z)
| VFloat (literal : string)
| VList (items : list string)
| VStr (s : string).

(** The chain "Convert common value types" applied to one stripped value. *)
Definition convert_value (value : string) : option config_value :=
  if bool_decide (lower value = "true") || bool_decide (lower value = "false")
  then Some (VBool (bool_decide (lower value = "true")))
  else if isdigit (remove_char "." value)
  then if contains "." value
       then VFloat <$> float_of_digits_and_points value
       else VInt <$> int_of_str value
  else if contains "," value
  then Some (VList (strip <$> split "," value))
  else Some (VStr value).

(** One line of the file.  A line without ['='] only prints a warning. *)
Definition load_line (line : string) (config : gmap string config_value)
  : option (gmap string config_value) :=
  let line := strip line in
  if bool_decide (line = "") || startswith "#" line then Some config
  else match split_once "=" line with
       | Some (key, value) =>
           v ← convert_value (strip value);
           Some (<[strip key := v]> config)
       | None => Some config
       end.

(** [_load_config]: [None] is the [RuntimeError] the [except] clause turns
    every exception into. *)
Fixpoint load_lines (lines : list string) (config : gmap string config_value)
  : option (gmap string config_value) :=
  match lines with
  | line :: rest => config' ← load_line line config; load_lines rest config'
  | [] => Some config
  end.

Definition _load_config (lines : list string) : option (gmap string config_value) :=
  load_lines lines ∅.

(** ** Subjects *)

(** A subject identifier is an [int] when it comes from the command line
    ([--subjects], [type=int]) and a string when it comes from a
    comma-separated [subject_list] of the configuration file. *)
Inductive subject :=
| IntId (n : Z)
| StrId (s : string).

Global Instance subject_eq_dec : EqDecision subject.
Proof. solve_decision. Defined.

(** [str(subject_id)], also what an f-string prints for it. *)
Definition str (subject_id : subject) : string :=
  match subject_id with
  | IntId n => pretty n
  | StrId s => s
  end.

(** [Path(p) / name] *)
Definition joinpath (p name : string) : string := p +:+ "/" +:+ name.

(** [Path(p) / subject_id] with the identifier itself as operand: pathlib
    takes a string and answers an [int] with [TypeError]. *)
Definition path_div (p : string) (subject_id : subject) : option string :=
  match subject_id with
  | StrId s => Some (joinpath p s)
  | IntId _ => None
  end.

(** ** ManualAnchorResolver: [_load_manual_coordinates] *)

(** [x, y, z = map(int, coords.strip().split(','))] *)
Definition unpack_coords (coords : string) : option (Z * Z * Z) :=
  match mapM int_of_str (split "," (strip coords)) with
  | Some [x; y; z] => Some (x, y, z)
  | _ => None
  end.

(** The loop over the lines of the sidecar file.  The handler of the
    function turns an exception into [None], the value that is also
    returned when the loop ends without a match. *)
Fixpoint _load_manual_coordinates (lines : list string) (subject_id : subject)
  : option (Z * Z * Z) :=
  match lines with
  | line :: rest =>
      let line := strip line in
      if startswith "#" line || bool_decide (line = "")
      then _load_manual_coordinates rest subject_id
      else match split_once "=" line with
           | Some (subj, coords) =>
               if bool_decide (strip subj = str subject_id)
               then unpack_coords coords
               else _load_manual_coordinates rest subject_id
           | None => _load_manual_coordinates rest subject_id
           end
  | [] => None
  end.

(** ** Tables: the values of a pandas frame or of a numpy object array *)

(** One cell.  [CNone] is a missing value ([None] in an object array, NaN
    in a frame); a finite float is kept as the rational number it is equal
    to. *)
Inductive cell :=
| CNone
| CInt (n : Z)
| CFloat (q : Q)
| CStr (s : string).

(** [int(v)] for a cell value: identity on integers, truncation toward
    zero on floats, parsing on strings; a missing value raises. *)
Definition py_int (v : cell) : option Z :=
  match v with
  | CNone => None
  | CInt n => Some n
  | CFloat q => Some (Z.quot (Qnum q) (Zpos (Qden q)))
  | CStr s => int_of_str s
  end.

Record frame := { columns : list string; rows : list (list cell) }.

(** [df.iloc[r, c]]; [None] is [IndexError]. *)
Definition iloc (df : frame) (r c : nat) : option cell :=
  row ← rows df !! r; row !! c.

(** [df[name] = v] for a scalar [v]: the column is overwritten when the
    frame has it, appended otherwise. *)
Fixpoint index_of (name : string) (l : list string) : option nat :=
  match l with
  | x :: l' => if bool_decide (x = name) then Some 0%nat else S <$> index_of name l'
  | [] => None
  end.

Definition set_column (name : string) (v : cell) (df : frame) : frame :=
  match index_of name (columns df) with
  | Some k => {| columns := columns df; rows := (λ row, <[k := v]> row) <$> rows df |}
  | None => {| columns := columns df ++ [name]; rows := (λ row, row ++ [v]) <$> rows df |}
  end.

(** [np.empty([n, k], dtype=object)]: every cell is [None]. *)
Definition np_empty (n k : nat) : list (list cell) := replicate n (replicate k CNone).

(** [a[i][k] = v] on an array that has row [i] and column [k]. *)
Definition set_cell (i k : nat) (v : cell) (a : list (list cell)) : list (list cell) :=
  alter (λ row, <[k := v]> row) i a.

(** A [for] loop whose body may raise. *)
Fixpoint for_each {S A : Type} (body : S → A → option S) (s : S) (l : list A) : option S :=
  match l with
  | x :: l' => s' ← body s x; for_each body s' l'
  | [] => Some s
  end.

Global Instance Q_eq_dec : EqDecision Q.
Proof. solve_decision. Defined.

Global Instance cell_eq_dec : EqDecision cell.
Proof. solve_decision. Defined.

(** ** AnnotationJoiner: the body of [_create_processed_file] *)

(** One turn of [for i in range(n_i)]. *)
Definition join_row (df_tiles df_at8 : frame) (tile_coords : list (list cell)) (i : nat)
  : option (list (list cell)) :=
  let y := (5 * i)%nat in
  if bool_decide (y < length (rows df_tiles))%nat then
    name ← iloc df_tiles y 0;
    let tile_coords := set_cell i 0 name tile_coords in
    x ← iloc df_tiles y 1 ≫= py_int;
    let tile_coords := set_cell i 1 (CInt (x / 1000)) tile_coords in
    z ← iloc df_tiles y 2 ≫= py_int;
    let tile_coords := set_cell i 2 (CInt (z / 1000)) tile_coords in
    at8 ← iloc df_at8 i 1;
    Some (set_cell i 3 at8 tile_coords)
  else Some tile_coords.

(** What is written to the processed file once both frames are read: the
    coordinates with a column of zeros when there is no measurement, the
    positional join otherwise.  [None]: an exception reached the handler. *)
Definition processed_frame (df_tiles df_at8 : frame) : option frame :=
  if bool_decide (length (rows df_at8) = 0%nat)
  then Some (set_column "AT8" (CInt 0) df_tiles)
  else
    let n_i := length (rows df_at8) in
    tile_coords ← for_each (join_row df_tiles df_at8) (np_empty n_i 4) (seq 0 n_i);
    Some {| columns := ["Tile"; "X"; "Z"; "AT8"]; rows := tile_coords |}.

(** The tables of the data model.  A coordinate is a name with integer
    [X] and [Y]; a measurement is a tile label with its value; a tile
    record pairs a coordinate, both numbers floor-divided by 1000, with the
    value of a measurement.  A row the join never filled is blank. *)
Definition coord_row (c : cell * Z * Z) : list cell := [c.1.1; CInt c.1.2; CInt c.2].

Definition at8_row (m : cell * cell) : list cell := [m.1; m.2].

Definition tile_row (c : cell * Z * Z) (m : cell * cell) : list cell :=
  [c.1.1; CInt (c.1.2 / 1000); CInt (c.2 / 1000); m.2].

Definition blank_row : list cell := replicate 4 CNone.

Definition coord_frame (coords : list (cell * Z * Z)) : frame :=
  {| columns := ["Name"; "X"; "Y"]; rows := coord_row <$> coords |}.

Definition at8_frame (measurements : list (cell * cell)) : frame :=
  {| columns := ["Tile"; "AT8_Value"]; rows := at8_row <$> measurements |}.

(** Row [i] of the joined table. *)
Definition joined_row (coords : list (cell * Z * Z)) (measurements : list (cell * cell))
    (i : nat) : list cell :=
  match coords !! (5 * i)%nat, measurements !! i with
  | Some c, Some m => tile_row c m
  | _, _ => blank_row
  end.

(** ** VolumeBlockBuilder: the mask loop of [_create_3d_blocks] *)

(** [range(a, b)] *)
Definition range (a b : Z) : list Z := seqZ a (b - a).

(** A row of the processed file as the loop reads it: [row['Tile']],
    [int(row['X'])], [int(row['Z'])], [row['AT8']].  The value is only
    stored, so its type is left open. *)
Record TileRecord (V : Type) := { Tile : string; X : Z; Zc : Z; AT8 : V }.
Arguments Tile {V} _.
Arguments X {V} _.
Arguments Zc {V} _.
Arguments AT8 {V} _.

(** A three-dimensional numpy array: its shape and the cells that were
    assigned; every other cell still holds the fill value of [np.zeros]. *)
Record ndarray (V : Type) := { shape : Z * Z * Z; data : gmap (Z * Z * Z) V }.
Arguments shape {V} _.
Arguments data {V} _.

(** numpy's reading of one index along an axis of length [d]: a negative
    index counts from the end, anything outside [-d, d) is [IndexError]. *)
Definition norm_index (d i : Z) : option Z :=
  if (0 <=? i) && (i <? d) then Some i
  else if (- d <=? i) && (i <? 0) then Some (i + d)
  else None.

(** [0 <= x < shape[0] and 0 <= y < shape[1] and 0 <= z < shape[2]] *)
Definition in_bounds (sh : Z * Z * Z) (x y z : Z) : bool :=
  let '(d0, d1, d2) := sh in
  ((0 <=? x) && (x <? d0)) && ((0 <=? y) && (y <? d1)) && ((0 <=? z) && (z <? d2)).

Section Builder.
Context {V : Type}.
(** The value [np.zeros] fills the array with. *)
Variable zero : V.

Definition np_zeros (sh : Z * Z * Z) : ndarray V := {| shape := sh; data := ∅ |}.

(** [mask[x, y, z]] for an index inside the array. *)
Definition voxel (mask : ndarray V) (p : Z * Z * Z) : V := default zero (data mask !! p).

(** [mask[nx, ny, nz] = v] *)
Definition setitem (mask : ndarray V) (nx ny nz : Z) (v : V) : option (ndarray V) :=
  let '(d0, d1, d2) := shape mask in
  i ← norm_index d0 nx;
  j ← norm_index d1 ny;
  k ← norm_index d2 nz;
  Some {| shape := shape mask; data := <[(i, j, k) := v]> (data mask) |}.

(** The three nested loops over [dx], [dy], [dz]. *)
Definition stamp_voxel (x y z : Z) (v : V) (dx dy : Z) (mask : ndarray V) (dz : Z)
  : option (ndarray V) :=
  let '(nx, ny, nz) := (x + dx, y + dy, z + dz) in
  if in_bounds (shape mask) nx ny nz then setitem mask nx ny nz v else Some mask.

Definition stamp_block (x y z half_block : Z) (v : V) (mask : ndarray V) : option (ndarray V) :=
  for_each (λ mask dx,
    for_each (λ mask dy,
      for_each (stamp_voxel x y z v dx dy) mask (range (- half_block) (half_block + 1)))
      mask (range (- half_block) (half_block + 1)))
    mask (range (- half_block) (half_block + 1)).

(** One turn of [for i in range(len(df))]: the absolute coordinates, the
    bounds test, the block (or the warning). *)
Definition place_tile (manual_coords : Z * Z * Z) (block_size : Z)
    (mask : ndarray V) (row : TileRecord V) : option (ndarray V) :=
  let '(x_offset, y_slice, z_offset) := manual_coords in
  let x := X row + x_offset in
  let y := y_slice in
  let z := Zc row + z_offset in
  if in_bounds (shape mask) x y z
  then stamp_block x y z (block_size / 2) (AT8 row) mask
  else Some mask.

(** The rows of [<subject>_transformed_coordinates.csv]. *)
Definition transformed_data (manual_coords : Z * Z * Z) (df : list (TileRecord V))
  : list (string * Z * Z * Z * V) :=
  let '(x_offset, y_slice, z_offset) := manual_coords in
  (λ row, (Tile row, X row + x_offset, y_slice, Zc row + z_offset, AT8 row)) <$> df.

(** [_create_3d_blocks] from the shape of the reference image on, for
    rows that were read and a block size that is an integer: the mask that
    is saved and the transformed coordinates, or [None] when an exception
    makes the function return [False].  The reading of the rows and of the
    configured block size, with the exceptions they can raise, is in
    [read_tile_rows] and [mask_loop] below. *)
Definition _create_3d_blocks (img_shape : Z * Z * Z) (df : list (TileRecord V))
    (manual_coords : Z * Z * Z) (block_size : Z)
  : option (ndarray V * list (string * Z * Z * Z * V)) :=
  mask ← for_each (place_tile manual_coords block_size) (np_zeros img_shape) df;
  Some (mask, transformed_data manual_coords df).

End Builder.

(** ** Notions for the statements about the builder *)

(** A voxel inside the array of shape [sh]. *)
Definition in_bounds_at (sh : Z * Z * Z) (p : Z * Z * Z) : bool :=
  in_bounds sh p.1.1 p.1.2 p.2.

(** The cube of half-extent [half_block] around [c]. *)
Definition in_cube (c : Z * Z * Z) (half_block : Z) (p : Z * Z * Z) : bool :=
  ((c.1.1 - half_block <=? p.1.1) && (p.1.1 <=? c.1.1 + half_block))
  && ((c.1.2 - half_block <=? p.1.2) && (p.1.2 <=? c.1.2 + half_block))
  && ((c.2 - half_block <=? p.2) && (p.2 <=? c.2 + half_block)).

(** The absolute coordinates [(x, y, z)] the loop computes for a row. *)
Definition centre {V} (manual_coords : Z * Z * Z) (row : TileRecord V) : Z * Z * Z :=
  (X row + manual_coords.1.1, manual_coords.1.2, Zc row + manual_coords.2).

(** The row stamps the voxel [p]: its own coordinates are inside the
    volume, and [p] is in its cube and inside the volume. *)
Definition covers {V} (sh manual_coords : Z * Z * Z) (block_size : Z)
    (row : TileRecord V) (p : Z * Z * Z) : bool :=
  in_bounds_at sh (centre manual_coords row)
  && in_cube (centre manual_coords row) (block_size / 2) p
  && in_bounds_at sh p.

(** The last row of the table that stamps [p]. *)
Fixpoint last_cover {V} (sh manual_coords : Z * Z * Z) (block_size : Z)
    (df : list (TileRecord V)) (p : Z * Z * Z) : option (TileRecord V) :=
  match df with
  | row :: df' =>
      match last_cover sh manual_coords block_size df' p with
      | Some later => Some later
      | None => if covers sh manual_coords block_size row p then Some row else None
      end
  | [] => None
  end.

(** [stamped W v mask mask']: from [mask] to [mask'] the shape is kept, the
    voxels of [W] that lie inside the array hold [v], the others are as
    they were. *)
Definition stamped {V} (W : Z * Z * Z → Prop) (v : V) (mask mask' : ndarray V) : Prop :=
  shape mask' = shape mask ∧
  ∀ p, (W p ∧ in_bounds_at (shape mask) p = true ∧ data mask' !! p = Some v)
       ∨ (¬ (W p ∧ in_bounds_at (shape mask) p = true) ∧ data mask' !! p = data mask !! p).

(** ** The world the steps run in *)

Inductive stage := upsample | slice | extract | transform | kernel | mni.

Global Instance stage_eq_dec : EqDecision stage.
Proof. solve_decision. Defined.

(** What the filesystem answers and keeps.  [read_csv] is [pd.read_csv]
    and [copy2] is [shutil.copy2]; both raise when they fail. *)
Class Filesystem (FS : Type) := {
  path_exists : string → FS → bool;
  dir_nonempty : string → FS → bool;
  mkdir : string → FS → FS;
  read_csv : string → FS → option frame;
  write_csv : string → frame → FS → FS;
  copy2 : string → string → FS → option FS;
}.

(** An [Annotation] element of a Halo annotation document with the [V]
    elements below it, attributes as [Element.get] returns them. *)
Record annotation := { Name : option string; vertices : list (option string * option string) }.

(** The libraries behind the steps: [ET.parse] with the two [findall], the
    pandas selection of [_extract_at8_values_from_csv] (which returns the
    empty list on any exception), and the body of [_apply_kernel] (which
    returns [False] on any exception). *)
Class Tools (FS : Type) := {
  parse_annotations : string → FS → option (list annotation);
  summary_at8_values : string → subject → FS → list (list cell);
  gaussian_filter : string → string → FS → bool * FS;
}.

(** Calls the theorems speak of: [_process_subject] entered for a subject,
    [_apply_kernel] entered for a pair of files. *)
Inductive event :=
| Processed (st : stage) (subject_id : subject)
| KernelApplied (input_file output_file : string).

Record World (FS : Type) := { fs : FS; trace : list event }.
Arguments fs {FS} _.
Arguments trace {FS} _.

(** A statement: it runs in a world, changes it, and either yields a value
    or raises.  What was done before an exception stays done. *)
Definition M (FS A : Type) : Type := World FS → option A * World FS.

Global Instance M_ret {FS} : MRet (M FS) := λ A (a : A) w, (Some a, w).
Global Instance M_bind {FS} : MBind (M FS) := λ A B (k : A → M FS B) (m : M FS A) w,
  match m w with
  | (Some a, w') => k a w'
  | (None, w') => (None, w')
  end.

(** [try: body / except Exception: handler] *)
Definition try_except {FS A} (body handler : M FS A) : M FS A := λ w,
  match body w with
  | (Some a, w') => (Some a, w')
  | (None, w') => handler w'
  end.

(** A pure computation that may raise. *)
Definition lift {FS A} (o : option A) : M FS A := λ w, (o, w).

Definition emit {FS} (e : event) : M FS unit := λ w,
  (Some tt, {| fs := fs w; trace := trace w ++ [e] |}).

Section Steps.
Context {FS : Type} `{!Filesystem FS, !Tools FS}.

Definition ask {A} (f : FS → A) : M FS A := λ w, (Some (f (fs w)), w).
Definition change (f : FS → FS) : M FS unit := λ w,
  (Some tt, {| fs := f (fs w); trace := trace w |}).
Definition change_or_raise (f : FS → option FS) : M FS unit := λ w,
  match f (fs w) with
  | Some fs' => (Some tt, {| fs := fs'; trace := trace w |})
  | None => (None, w)
  end.

(** The configuration values the steps read: [output_base], [logs_dir] and
    the annotation path of a subject. *)
Variable output_base : string.
Variable logs_dir : string.
Variable get_input_annotation_path : subject → string.

Definition get_subject_output_dir (subject_id : subject) : string :=
  joinpath output_base (str subject_id).

Definition get_subject_step_dir (subject_id : subject) (step_suffix : string) : string :=
  joinpath (get_subject_output_dir subject_id) (str subject_id +:+ step_suffix).

(** [create_output_directories] *)
Definition create_output_directories (subjects : list subject) : M FS unit :=
  change (mkdir output_base);;
  change (mkdir logs_dir);;
  change (λ s, foldl (λ s subject_id, mkdir (get_subject_output_dir subject_id) s) s subjects).

(** [step_dir.exists() and any(step_dir.iterdir())] *)
Definition has_output (step_suffix : string) (s : FS) (subject_id : subject) : bool :=
  let step_dir := get_subject_step_dir subject_id step_suffix in
  path_exists step_dir s && dir_nonempty step_dir s.

(** [check_existing_outputs] *)
Definition check_existing_outputs (subjects : list subject) (step_suffix : string)
  : M FS (list subject) :=
  ask (λ s, filter (λ subject_id, has_output step_suffix s subject_id = true) subjects).

(** The loop [for subject in subjects] of an [execute]: the number of
    subjects whose [_process_subject] answered [True]. *)
Fixpoint process_all (st : stage) (process : subject → bool → M FS bool)
    (subjects : list subject) (dry_run : bool) (success_count : nat) : M FS nat :=
  match subjects with
  | subject_id :: rest =>
      emit (Processed st subject_id);;
      ok ← process subject_id dry_run;
      process_all st process rest dry_run
        (if ok : bool then S success_count else success_count)
  | [] => mret success_count
  end.

(** [BaseStep.execute] for the step with methods [get_step_suffix] and
    [_process_subject]. *)
Definition BaseStep_execute (st : stage) (get_step_suffix : string)
    (_process_subject : subject → bool → M FS bool)
    (subjects : list subject) (force dry_run : bool) : M FS bool :=
  subjects ←
    (if negb force then
       existing ← check_existing_outputs subjects get_step_suffix;
       mret (if bool_decide (existing ≠ [])
             then filter (λ s, s ∉ existing) subjects
             else subjects)
     else mret subjects);
  if bool_decide (subjects = []) then mret true
  else
    create_output_directories subjects;;
    success_count ← process_all st _process_subject subjects dry_run 0;
    mret (bool_decide (success_count = length subjects)).

(** [MNIRegistrationStep.execute]: the class does not derive from
    [BaseStep]; [force] is a parameter it never reads. *)
Definition MNIRegistrationStep_execute (_process_subject : subject → bool → M FS bool)
    (subjects : list subject) (force dry_run : bool) : M FS bool :=
  success_count ← process_all mni _process_subject subjects dry_run 0;
  mret (bool_decide (success_count = length subjects)).

(** *** [KernelApplicationStep] *)

(** [_apply_kernel] *)
Definition _apply_kernel (input_file output_file : string) : M FS bool := λ w,
  let '(ok, s) := gaussian_filter input_file output_file (fs w) in
  (Some ok, {| fs := s; trace := trace w ++ [KernelApplied input_file output_file] |}).

Definition KernelApplicationStep_process_subject (subject_id : subject) (dry_run : bool)
  : M FS bool :=
  try_except
    (subject_dir ← lift (path_div output_base subject_id);
     let transformation_dir := joinpath subject_dir (str subject_id +:+ "_transformation") in
     let aligned_block_file :=
       joinpath transformation_dir (str subject_id +:+ "_QNP_AT8_mask_block_aligned.nii.gz") in
     subject_dir ← lift (path_div output_base subject_id);
     let output_dir := joinpath subject_dir (str subject_id +:+ "_kernel") in
     let output_file := joinpath output_dir (str subject_id +:+ "_QNP_AT8_smoothed_sig2.nii.gz") in
     if dry_run then mret true
     else
       change (mkdir output_dir);;
       present ← ask (path_exists output_file);
       if present : bool then mret true
       else
         present ← ask (path_exists aligned_block_file);
         if negb present then mret false
         else _apply_kernel aligned_block_file output_file)
    (mret false).

(** *** [CoordinateExtractionStep] *)

Definition opt_cell (o : option string) : cell :=
  match o with Some s => CStr s | None => CNone end.

(** [_extract_coordinates_from_xml]: one row [Name, X, Y] per vertex of
    every annotation not named "Layer 1"; the empty list when parsing
    raises. *)
Definition xml_coordinates (annotation_file : string) (s : FS) : list (list cell) :=
  match parse_annotations annotation_file s with
  | Some annotations =>
      a ← annotations;
      if bool_decide (Name a = Some "Layer 1") then []
      else (λ v, [opt_cell (Name a); opt_cell v.1; opt_cell v.2]) <$> vertices a
  | None => []
  end.

Definition _extract_coordinates_from_xml (annotation_file : string) : M FS (list (list cell)) :=
  ask (xml_coordinates annotation_file).

(** [_save_coordinates_to_csv]: nothing is written for an empty list, not
    even the header. *)
Definition _save_coordinates_to_csv (coordinates : list (list cell)) (output_file : string)
  : M FS unit :=
  change (write_csv output_file
    {| columns := if bool_decide (coordinates = []) then [] else ["Name"; "X"; "Y"];
       rows := coordinates |}).

(** [_create_at8_file] *)
Definition _create_at8_file (at8_values : list (list cell)) (output_file : string)
  : M FS unit :=
  change (write_csv output_file {| columns := ["Tile"; "AT8_Value"]; rows := at8_values |}).

(** [_create_processed_file] *)
Definition _create_processed_file (coord_file at8_file output_file : string) : M FS unit :=
  try_except
    (df_tiles ← (λ w, (read_csv coord_file (fs w), w));
     df_at8 ← (λ w, (read_csv at8_file (fs w), w));
     df ← lift (processed_frame df_tiles df_at8);
     change (write_csv output_file df))
    (change_or_raise (copy2 coord_file output_file)).

Definition summary_csv_file : string := "Input/Halo_extract/Summary Analysis(in).csv".

(** The files of the step, named as the local variables that hold them. *)
Definition output_dir (subject_id : subject) : string :=
  get_subject_step_dir subject_id "_coordinates".
Definition coord_output_file (subject_id : subject) : string :=
  joinpath (output_dir subject_id) (str subject_id +:+ "_tile_coord.csv").
Definition at8_output_file (subject_id : subject) : string :=
  joinpath (output_dir subject_id) (str subject_id +:+ "_AT8.csv").
Definition proc_output_file (subject_id : subject) : string :=
  joinpath (output_dir subject_id) (str subject_id +:+ "_tile_proc.csv").

Definition CoordinateExtractionStep_process_subject (subject_id : subject) (dry_run : bool)
  : M FS bool :=
  try_except
    (let annotation_file := get_input_annotation_path subject_id in
     change (mkdir (output_dir subject_id));;
     if dry_run then mret true
     else
       present ← ask (path_exists annotation_file);
       if negb present then mret false
       else
         present ← ask (path_exists summary_csv_file);
         if negb present then mret false
         else
           coordinates ← _extract_coordinates_from_xml annotation_file;
           if bool_decide (coordinates = []) then mret false
           else
             at8_values ← ask (summary_at8_values summary_csv_file subject_id);
             _save_coordinates_to_csv coordinates (coord_output_file subject_id);;
             _create_at8_file at8_values (at8_output_file subject_id);;
             _create_processed_file (coord_output_file subject_id)
               (at8_output_file subject_id) (proc_output_file subject_id);;
             mret true)
    (mret false).

(** Two notions for the statements about this step.  [read_and_join] is
    the frame the [try] block of [_create_processed_file] is about to
    write, [None] when reading or joining raises.  [written_inputs] is the
    filesystem at the call of [_create_processed_file]: the output
    directory made, the coordinates and the measurements written. *)
Definition read_and_join (coord_file at8_file : string) (s : FS) : option frame :=
  df_tiles ← read_csv coord_file s;
  df_at8 ← read_csv at8_file s;
  processed_frame df_tiles df_at8.

Definition written_inputs (subject_id : subject) (s : FS) : FS :=
  let s1 := mkdir (output_dir subject_id) s in
  write_csv (at8_output_file subject_id)
    {| columns := ["Tile"; "AT8_Value"];
       rows := summary_at8_values summary_csv_file subject_id s1 |}
    (write_csv (coord_output_file subject_id)
       {| columns := ["Name"; "X"; "Y"];
          rows := xml_coordinates (get_input_annotation_path subject_id) s1 |}
       s1).

(** *** The steps by name: [step_functions] in [run_pipeline] *)

(** The steps whose [_process_subject] is not embedded. *)
Variable UpsamplingStep_process_subject : subject → bool → M FS bool.
Variable SlicingStep_process_subject : subject → bool → M FS bool.
Variable CoordinateTransformationStep_process_subject : subject → bool → M FS bool.
Variable MNIRegistrationStep_process_subject : subject → bool → M FS bool.

(** The directory suffix of a stage: [get_step_suffix] for the steps that
    derive from [BaseStep], the directory [MNIRegistrationStep] writes to
    for [mni]. *)
Definition get_step_suffix (st : stage) : string :=
  match st with
  | upsample => "_upsampled"
  | slice => "_slices"
  | extract => "_coordinates"
  | transform => "_transformation"
  | kernel => "_kernel"
  | mni => "_mni_registration"
  end.

Definition _process_subject (st : stage) : subject → bool → M FS bool :=
  match st with
  | upsample => UpsamplingStep_process_subject
  | slice => SlicingStep_process_subject
  | extract => CoordinateExtractionStep_process_subject
  | transform => CoordinateTransformationStep_process_subject
  | kernel => KernelApplicationStep_process_subject
  | mni => MNIRegistrationStep_process_subject
  end.

(** [step_functions[step].execute(subjects, force, dry_run, logger)] *)
Definition execute (st : stage) (subjects : list subject) (force dry_run : bool) : M FS bool :=
  match st with
  | mni => MNIRegistrationStep_execute (_process_subject mni) subjects force dry_run
  | _ => BaseStep_execute st (get_step_suffix st) (_process_subject st) subjects force dry_run
  end.

(** The subjects a stage has to run: all of them under [force], those
    without output otherwise. *)
Definition pending (st : stage) (subjects : list subject) (force : bool) (s : FS)
  : list subject :=
  if force then subjects
  else filter (λ subject_id, has_output (get_step_suffix st) s subject_id = false) subjects.

End Steps.

(** ** Notions for the statements about the steps *)

(** The subjects for which a stage entered [_process_subject], in order. *)
Definition processed_subjects (st : stage) (tr : list event) : list subject :=
  omap (λ e, match e with
             | Processed st' subject_id =>
                 if bool_decide (st' = st) then Some subject_id else None
             | KernelApplied _ _ => None
             end) tr.

(** A statement that does not enter [_process_subject] itself. *)
Definition quiet {FS A} (m : M FS A) : Prop :=
  ∀ st w, processed_subjects st (trace (m w).2) = processed_subjects st (trace w).

(** A [_process_subject] as the steps write them: every exception is
    caught and answered with [False], and no other subject is processed
    from inside. *)
Definition well_behaved {FS} (process : subject → bool → M FS bool) : Prop :=
  ∀ subject_id dry_run, quiet (process subject_id dry_run)
                        ∧ ∀ w, is_Some (process subject_id dry_run w).1.

(** ** A filesystem in memory

    Used to run the steps on concrete inputs: a file is the table it
    holds, a directory an entry without columns, and a directory has an
    entry when some path continues its own. *)

Definition empty_file : frame := {| columns := []; rows := [] |}.

Global Instance mem_filesystem : Filesystem (gmap string frame) := {|
  path_exists p s := bool_decide (is_Some (s !! p));
  dir_nonempty p s := existsb (λ entry, startswith (p +:+ "/") entry.1) (map_to_list s);
  mkdir p s := if bool_decide (is_Some (s !! p)) then s else <[p := empty_file]> s;
  read_csv p s := f ← s !! p; if bool_decide (columns f = []) then None else Some f;
  write_csv p f s := <[p := f]> s;
  copy2 src dst s := f ← s !! src; Some (<[dst := f]> s);
|}.

(** Tools that answer with a fixed annotation document and fixed
    measurements, and a kernel that writes its output file. *)
Definition mem_tools (doc : option (list annotation)) (at8_values : list (list cell))
  : Tools (gmap string frame) := {|
  parse_annotations _ _ := doc;
  summary_at8_values _ _ _ := at8_values;
  gaussian_filter _ output_file s := (true, <[output_file := empty_file]> s);
|}.

Definition start_world {FS} (s : FS) : World FS := {| fs := s; trace := [] |}.

(** The inputs of the examples: the annotation path of the default
    configuration, steps that do nothing for the stages that are not
    embedded, the files of subject 6966. *)
Definition annotation_path (subject_id : subject) : string :=
  "Input/Halo_extract/Annotations/" +:+ str subject_id +:+ "-A1-AT8.annotations".

Definition no_step : subject → bool → M (gmap string frame) bool := λ _ _, mret true.

Definition kernel_output_6966 : string :=
  "output/6966/6966_kernel/6966_QNP_AT8_smoothed_sig2.nii.gz".

Definition mni_output_6966 : string :=
  "output/6966/6966_mni_registration/6966_QNP_mask_ToMNI.nii.gz".

Definition one_tile (x : option string) : option (list annotation) :=
  Some [ {| Name := Some "Layer 1"; vertices := [(Some "0", Some "0")] |};
         {| Name := Some "Tile 1"; vertices := [(x, Some "7000")] |} ].

Definition inputs_6966 : gmap string frame :=
  {[ annotation_path (StrId "6966") := empty_file; summary_csv_file := empty_file ]}.

Definition kernel_done_6966 : gmap string frame :=
  {[ "output/6966/6966_kernel" := empty_file; kernel_output_6966 := empty_file ]}.

Definition mni_done_6966 : gmap string frame :=
  {[ "output/6966/6966_mni_registration" := empty_file; mni_output_6966 := empty_file ]}.

(** ** The specification's wording, for comparison with the program *)

(** "the joiner emits exactly min(m, ceil(c/5)) records" *)
Definition spec_join_count (m c : nat) : nat := Nat.min m ((c + 4) / 5).

(** "a cube of side blockSize centered at (x, y, z) (half-extent
    blockSize // 2 in every axis, so for odd blockSize the cube is exactly
    centered; even blockSize biases one voxel toward the negative side)":
    the offsets along one axis. *)
Definition spec_block_offsets (blockSize : Z) : list Z :=
  if Z.odd blockSize
  then range (- (blockSize / 2)) (blockSize / 2 + 1)
  else range (- (blockSize / 2)) (blockSize / 2).

(** "a token consisting solely of digits and at most one decimal point",
    read with at least one digit. *)
Fixpoint digits_and_points (s : string) : bool :=
  match s with
  | String c s' => (is_digit c || Ascii.eqb c ".") && digits_and_points s'
  | EmptyString => true
  end.

Fixpoint has_digit (s : string) : bool :=
  match s with
  | String c s' => is_digit c || has_digit s'
  | EmptyString => false
  end.

Definition spec_numeric (token : string) : bool :=
  digits_and_points token && has_digit token && (count_char "." token <=? 1)%nat.

(** "literal true/false → boolean; a token consisting solely of digits and
    at most one decimal point → numeric (float if a point is present, else
    integer); a token containing commas → ordered sequence of trimmed
    string tokens; anything else → string", first match wins. *)
Definition spec_convert_value (token : string) : config_value :=
  if bool_decide (token = "true") then VBool true
  else if bool_decide (token = "false") then VBool false
  else if spec_numeric token
  then if contains "." token then VFloat token
       else VInt (default 0 (int_digits AtStart 0 token))
  else if contains "," token then VList (strip <$> split "," token)
  else VStr token.

(** The same rules with the first one read without regard to letter case,
    as the loader does. *)
Definition caseless_convert_value (token : string) : config_value :=
  if bool_decide (lower token = "true") then VBool true
  else if bool_decide (lower token = "false") then VBool false
  else if spec_numeric token
  then if contains "." token then VFloat token
       else VInt (default 0 (int_digits AtStart 0 token))
  else if contains "," token then VList (strip <$> split "," token)
  else VStr token.

(** The resolver of the specification, with its two kinds of failure. *)
Inductive anchor_result :=
| Anchor (x y z : Z)
| AnchorNotFound
| AnchorMalformed.

(** "ignoring blank lines and lines beginning with #" *)
Definition anchor_line (line : string) : bool :=
  negb (bool_decide (line = "")) && negb (startswith "#" line).

(** "the first line matching the subject's identifier before the = sign" *)
Definition matches_subject (subject_id : subject) (line : string) : bool :=
  match split_once "=" line with
  | Some (subj, _) => bool_decide (strip subj = str subject_id)
  | None => false
  end.

Definition spec_resolve (lines : list string) (subject_id : subject) : anchor_result :=
  match List.find (matches_subject subject_id) (List.filter anchor_line (strip <$> lines)) with
  | None => AnchorNotFound
  | Some line =>
      match split_once "=" line ≫= (λ p, unpack_coords p.2) with
      | Some (x, y, z) => Anchor x y z
      | None => AnchorMalformed
      end
  end.


(** Text of ASCII characters only, the text on which [isspace], [lower]
    and [isdigit] above are Python's. *)
Definition is_ascii (c : ascii) : bool := (nat_of_ascii c <? 128)%nat.

Fixpoint ascii_text (s : string) : bool :=
  match s with
  | String c s' => is_ascii c && ascii_text s'
  | EmptyString => true
  end.

(** A number written with two or more points, such as a version number:
    the one kind of ASCII token on which [convert_value] raises. *)
Definition multi_point_number (token : string) : bool :=
  digits_and_points token && has_digit token && (2 <=? count_char "." token)%nat.

(** The value token of a line of the configuration file, when it has one. *)
Definition value_token (line : string) : option string :=
  let line := strip line in
  if bool_decide (line = "") || startswith "#" line then None
  else (λ p, strip p.2) <$> split_once "=" line.

(** ** ConfigStore: [PipelineConfig.get] and [get_subjects] *)

(** [get(key_path, default)].  The walk starts at the dictionary of the
    file; a value of the file is never a dictionary itself, so a second
    segment of the path always meets the test [isinstance(value, dict)]
    with a value that fails it.  The default [None] of Python is [None]. *)
Definition get (config : gmap string config_value) (key_path : string)
    (default : option config_value) : option config_value :=
  match split "." key_path with
  | key :: keys =>
      match config !! key with
      | Some value => match keys with [] => Some value | _ :: _ => default end
      | None => default
      end
  | [] => default
  end.

(** What [get_subjects] hands back: a list of identifiers, or the value of
    [subject_list] as it is when that value is neither a list nor a
    string. *)
Inductive subjects_value :=
| SubjectList (subjects : list subject)
| NotAList (v : config_value).

(** [get_subjects(subjects)]; [None] is the [ValueError] of [int]. *)
Definition get_subjects (config : gmap string config_value)
    (subjects : option (list subject)) : option subjects_value :=
  match subjects with
  | Some subjects => Some (SubjectList subjects)
  | None =>
      match get config "subject_list" (Some (VList [])) with
      | Some (VStr subject_list) =>
          ids ← mapM (λ s, int_of_str (strip s)) (split "," subject_list);
          Some (SubjectList (IntId <$> ids))
      | Some (VList items) => Some (SubjectList (StrId <$> items))
      | Some v => Some (NotAList v)
      | None => None
      end
  end.

(** The binding of a line of the configuration file, when it is one: the
    key and the value token, both trimmed. *)
Definition binding (line : string) : option (string * string) :=
  let line := strip line in
  if bool_decide (line = "") || startswith "#" line then None
  else (λ p, (strip p.1, strip p.2)) <$> split_once "=" line.

(** The value token of the last line that binds [key]. *)
Definition last_token (lines : list string) (key : string) : option string :=
  foldl (λ acc line,
           match binding line with
           | Some (k, token) => if bool_decide (k = key) then Some token else acc
           | None => acc
           end) None lines.


(** The line the transformation step asks the user for when a subject has
    no anchor: [f"{subject_id}=X,Y,Z"]. *)
Definition anchor_format (subject_id : subject) (x y z : Z) : string :=
  str subject_id +:+ "=" +:+ pretty x +:+ "," +:+ pretty y +:+ "," +:+ pretty z.

(** ** The processed table as [_create_3d_blocks] reads it *)

(** [row[name]] for a row of [df]; [None] is [KeyError]. *)
Definition row_get (df : frame) (row : list cell) (name : string) : option cell :=
  k ← index_of name (columns df); row !! k.

(** What one turn of [for i in range(len(df))] reads of its row: the
    label, [int(row['X'])], [int(row['Z'])] and the value, before the
    offsets are added.  [None]: a [KeyError] or the error of [int], which
    makes [_create_3d_blocks] return [False]. *)
Definition read_tile_row (df : frame) (row : list cell) : option (cell * Z * Z * cell) :=
  tile_name ← row_get df row "Tile";
  original_x ← row_get df row "X";
  original_z ← row_get df row "Z";
  at8_value ← row_get df row "AT8";
  x ← py_int original_x;
  z ← py_int original_z;
  Some (tile_name, x, z, at8_value).

Definition read_tile_rows (df : frame) : option (list (cell * Z * Z * cell)) :=
  mapM (read_tile_row df) (rows df).

(** The mask [_create_3d_blocks] saves: [output_mask]. *)
Definition output_mask (output_base : string) (subject_id : subject) : string :=
  joinpath (get_subject_step_dir output_base subject_id "_transformation")
    (str subject_id +:+ "_QNP_AT8_mask_block.nii.gz").

(** ** [UpsamplingStep]: the check for the file made by hand *)

Module UpsamplingStep.
Section Step.
Context {FS : Type} `{!Filesystem FS}.
Variable output_base : string.

Definition expected_file (subject_id : subject) : string :=
  joinpath (get_subject_step_dir output_base subject_id "_upsampled")
    (str subject_id +:+ "_001_up_re.nii.gz").

Definition _process_subject (subject_id : subject) (dry_run : bool) : M FS bool :=
  try_except
    (if dry_run then mret true
     else
       present ← ask (path_exists (expected_file subject_id));
       if present : bool then mret true else mret false)
    (mret false).

End Step.
End UpsamplingStep.

(** ** [validate_inputs] *)

Section Validation.
Context {FS : Type} `{!Filesystem FS}.

Variable config : gmap string config_value.

(** The path builders of the configuration, [get_input_mgz_path] and
    [get_input_annotation_path].  [None]: [Path(...)] or [/] raises
    [TypeError], as they do on a configured value that is not a string. *)
Variable get_input_mgz_path : subject → option string.
Variable get_input_annotation_path : subject → option string.

(** The loop of [validate_inputs]: [missing_files] when it ends. *)
Definition missing_files (subjects : list subject) (s : FS) : option (list string) :=
  for_each (λ missing subject_id,
    mgz_path ← get_input_mgz_path subject_id;
    let missing := if path_exists mgz_path s then missing else missing ++ [mgz_path] in
    annotation_path ← get_input_annotation_path subject_id;
    Some (if path_exists annotation_path s then missing else missing ++ [annotation_path]))
    [] subjects.

(** [validate_inputs(config, subjects, logger)] of [pipeline_utils], for
    a list of subjects. *)
Definition validate_inputs (subjects : list subject) : M FS bool :=
  missing ← (λ w, (missing_files subjects (fs w), w));
  if bool_decide (missing ≠ []) then mret false else mret true.

(** [QNPPipeline.validate_inputs(subjects)].  An argument that is [None]
    or empty is replaced by the subjects of the configuration; when these
    are not a list, [len(subjects)] raises, outside any [try].  The loop
    is the one above. *)
Definition QNPPipeline_validate_inputs (subjects : list subject) : M FS bool :=
  subjects ←
    (if bool_decide (subjects = []) then
       match get_subjects config None with
       | Some (SubjectList subjects) => mret subjects
       | _ => lift None
       end
     else mret subjects);
  validate_inputs subjects.

End Validation.

(** ** The pipeline: [QNPPipeline.run_pipeline] *)

Section Pipeline.
Context {FS : Type} `{!Filesystem FS, !Tools FS}.

Variable config : gmap string config_value.
Variable output_base : string.
Variable logs_dir : string.
Variable get_input_annotation_path : subject → string.
Variable UpsamplingStep_process_subject : subject → bool → M FS bool.
Variable SlicingStep_process_subject : subject → bool → M FS bool.
Variable CoordinateTransformationStep_process_subject : subject → bool → M FS bool.
Variable MNIRegistrationStep_process_subject : subject → bool → M FS bool.

(** The keys of [step_functions]. *)
Definition step_functions (step : string) : option stage :=
  if bool_decide (step = "upsample") then Some upsample
  else if bool_decide (step = "slice") then Some slice
  else if bool_decide (step = "extract") then Some extract
  else if bool_decide (step = "transform") then Some transform
  else if bool_decide (step = "kernel") then Some kernel
  else if bool_decide (step = "mni") then Some mni
  else None.

(** The loop [for step in steps] with its three [break]s; the value is
    [overall_success]. *)
Fixpoint run_steps (steps : list string) (subjects : list subject) (force dry_run : bool)
  : M FS bool :=
  match steps with
  | step :: rest =>
      match step_functions step with
      | None => mret false
      | Some st =>
          success ← try_except
            (execute output_base logs_dir get_input_annotation_path
               UpsamplingStep_process_subject SlicingStep_process_subject
               CoordinateTransformationStep_process_subject
               MNIRegistrationStep_process_subject st subjects force dry_run)
            (mret false);
          if success : bool then run_steps rest subjects force dry_run else mret false
      end
  | [] => mret true
  end.

(** [run_pipeline].  An argument that is [None] or empty is replaced:
    the subjects by those of the configuration, the steps by the five
    automated ones.  Subjects that are not a list make the [join] of the
    first log line raise, outside any [try]. *)
Definition run_pipeline (subjects : list subject) (steps : list string)
    (force dry_run : bool) : M FS bool :=
  subjects ←
    (if bool_decide (subjects = []) then
       match get_subjects config None with
       | Some (SubjectList subjects) => mret subjects
       | _ => lift None
       end
     else mret subjects);
  let steps := if bool_decide (steps = [])
               then ["upsample"; "slice"; "extract"; "transform"; "kernel"]
               else steps in
  create_output_directories output_base logs_dir subjects;;
  run_steps steps subjects force dry_run.

End Pipeline.

(** ** The mask loop of [_create_3d_blocks] on the processed table *)

(** The configured block size as [//] and [range] take it: an integer,
    or a boolean, which is an integer in Python.  [None]: a float, on
    which [range] raises [TypeError] after the division, or a string or a
    list, on which [//] does. *)
Definition block_size_int (block_size : option config_value) : option Z :=
  match block_size with
  | Some (VInt n) => Some n
  | Some (VBool b) => Some (if b then 1 else 0)
  | _ => None
  end.

(** One turn of [for i in range(len(df))] on a row of the table: the row
    is read, its block is stamped when its coordinates are inside the
    volume.  The block size is only looked at then. *)
Definition stamp_row (block_size : option config_value) (manual_coords : Z * Z * Z)
    (df : frame) (mask : ndarray cell) (row : list cell) : option (ndarray cell) :=
  r ← read_tile_row df row;
  let '(tile_name, original_x, original_z, at8_value) := r in
  let '(x_offset, y_slice, z_offset) := manual_coords in
  let x := original_x + x_offset in
  let y := y_slice in
  let z := original_z + z_offset in
  if in_bounds (shape mask) x y z then
    block_size ← block_size_int block_size;
    stamp_block x y z (block_size / 2) at8_value mask
  else Some mask.

(** The mask at the end of the loop, from [np.zeros(img.shape)] and
    [self.config.get('block_size', 7)] on; [None] when the loop raises,
    which makes [_create_3d_blocks] return [False] with nothing saved. *)
Definition mask_loop (config : gmap string config_value) (img_shape : Z * Z * Z)
    (df : frame) (manual_coords : Z * Z * Z) : option (ndarray cell) :=
  let block_size := get config "block_size" (Some (VInt 7)) in
  for_each (stamp_row block_size manual_coords df) (np_zeros img_shape) (rows df).


(* ===================================================================== *)
(** * Part II.  Properties                                                 *)
(* ===================================================================== *)

(** ** Strings *)

Lemma digit_not_space c : is_digit c = true → isspace c = false.
Proof. destruct c as [[] [] [] [] [] [] [] []]; vm_compute; congruence. Qed.

Lemma digit_not_point c : is_digit c = true → Ascii.eqb "." c = false.
Proof. destruct c as [[] [] [] [] [] [] [] []]; vm_compute; congruence. Qed.

Lemma all_digits_remove_points s :
  all_digits (remove_char "." s) = digits_and_points s.
Proof.
  induction s as [|c s IH]; [done|]. cbn [remove_char digits_and_points].
  rewrite (Ascii.eqb_sym c). destruct (Ascii.eqb "." c) eqn:E.
  - by rewrite orb_true_r.
  - cbn [all_digits]. by rewrite IH, orb_false_r.
Qed.

(** The test of the loader, [value.replace('.', '').isdigit()], says:
    digits and points only, and at least one digit.  It does not count the
    points. *)
Lemma isdigit_remove_points s :
  isdigit (remove_char "." s) = digits_and_points s && has_digit s.
Proof.
  induction s as [|c s IH]; [done|]. cbn [remove_char digits_and_points has_digit].
  rewrite (Ascii.eqb_sym c). destruct (Ascii.eqb "." c) eqn:E.
  - rewrite IH, orb_true_r. cbn.
    destruct (is_digit c) eqn:D; [|done].
    by rewrite (digit_not_point c D) in E.
  - unfold isdigit. cbn [all_digits]. rewrite all_digits_remove_points, orb_false_r.
    destruct (is_digit c); cbn; [by rewrite andb_true_r|done].
Qed.

Lemma contains_count c s : contains c s = negb (count_char c s =? 0)%nat.
Proof.
  induction s as [|d s IH]; [done|]. cbn. destruct (Ascii.eqb c d); [done|]. by rewrite IH.
Qed.

Lemma remove_char_absent c s : contains c s = false → remove_char c s = s.
Proof.
  induction s as [|d s IH]; [done|]. cbn. destruct (Ascii.eqb c d); [done|].
  intros H. by rewrite IH.
Qed.

Lemma rstrip_digits s : all_digits s = true → rstrip s = s.
Proof.
  induction s as [|c s IH]; [done|]. cbn. intros [Hc Hs]%andb_true_iff.
  rewrite (IH Hs). destruct s; [|done]. by rewrite (digit_not_space c Hc).
Qed.

Lemma strip_digits s : all_digits s = true → strip s = s.
Proof.
  intros H. unfold strip.
  destruct s as [|c s]; [done|]. cbn in H. apply andb_true_iff in H as [Hc Hs].
  cbn [lstrip]. rewrite (digit_not_space c Hc). apply rstrip_digits. cbn. by rewrite Hc, Hs.
Qed.

Lemma int_digits_all_digits s st acc :
  all_digits s = true → s ≠ "" → is_Some (int_digits st acc s).
Proof.
  revert st acc. induction s as [|c s IH]; [done|]. intros st acc [Hc Hs]%andb_true_iff _.
  cbn. rewrite Hc. destruct s as [|d s]; [by eexists|]. by apply IH.
Qed.

(** [int] on a string of digits has nothing to strip and no sign to read. *)
Lemma int_of_str_digits s :
  isdigit s = true → int_of_str s = int_digits AtStart 0 s.
Proof.
  intros H. unfold int_of_str. destruct s as [|c s]; [done|].
  rewrite strip_digits by done. cbn in H. apply andb_true_iff in H as [Hc _].
  destruct c as [[] [] [] [] [] [] [] []]; try done.
Qed.

(** ** ConfigStore *)

Lemma digits_not_caseless_bool s :
  digits_and_points s = true →
  bool_decide (lower s = "true") || bool_decide (lower s = "false") = false.
Proof.
  destruct s as [|c s]; [done|]. cbn [digits_and_points lower].
  intros [Hc _]%andb_true_iff.
  apply orb_false_iff; split; apply bool_decide_eq_false; intros [= H _];
    destruct c as [[] [] [] [] [] [] [] []]; vm_compute in Hc, H; congruence.
Qed.

(** C6, as the loader has it.  Every value token of ASCII characters
    other than a number written with two or more points is converted,
    without an error, by the four rules in their order, first match wins:
    [true] and [false] in any letter case give a boolean; digits with at
    most one point and at least one digit give a number, a float when the
    point is there and an integer otherwise; a token with a comma gives the
    list of its pieces, each trimmed; anything else stays a string.  The
    statement is about ASCII tokens because the tests of the loader are
    the ASCII ones here: what [isdigit] and [int] make of the digits of
    other scripts is not part of it. *)
Theorem C6_value_coercion token :
  ascii_text token = true →
  multi_point_number token = false →
  convert_value token = Some (caseless_convert_value token).
Proof.
  intros _ Hmp. unfold convert_value, caseless_convert_value.
  destruct (bool_decide (lower token = "true")) eqn:Ht; [done|].
  destruct (bool_decide (lower token = "false")) eqn:Hf; cbn [orb]; [done|].
  rewrite isdigit_remove_points. unfold spec_numeric, multi_point_number in *.
  destruct (digits_and_points token && has_digit token) eqn:Hnum; cbn [andb] in *;
    [|by destruct (contains "," token)].
  rewrite contains_count.
  unfold float_of_digits_and_points.
  destruct (count_char "." token) as [|[|n]] eqn:Hc; cbn.
  2, 3: done.
  assert (Hno : contains "." token = false) by (by rewrite contains_count, Hc).
  assert (Hd : isdigit token = true).
  { rewrite <- (remove_char_absent "." token Hno) at 1. by rewrite isdigit_remove_points. }
  rewrite (int_of_str_digits _ Hd).
  destruct (int_digits_all_digits token AtStart 0) as [n Hn]; [by destruct token| by destruct token |].
  by rewrite Hn.
Qed.

Lemma C6_value_coercion_witness :
  ascii_text "0.5" = true ∧
  multi_point_number "0.5" = false ∧
  convert_value "0.5" = Some (caseless_convert_value "0.5").
Proof.
  split; [reflexivity|]. split; [reflexivity|].
  apply C6_value_coercion; reflexivity.
Defined.

(** The token left out above: the test of the loader lets a number with
    several points through, and [float] then raises. *)
Lemma convert_value_multi_point token :
  multi_point_number token = true → convert_value token = None.
Proof.
  unfold multi_point_number. intros [[Hdp Hd]%andb_true_iff Hc]%andb_true_iff.
  unfold convert_value. rewrite (digits_not_caseless_bool _ Hdp).
  rewrite isdigit_remove_points, Hdp, Hd. cbn [andb].
  rewrite contains_count. apply Nat.leb_le in Hc.
  destruct (count_char "." token) as [|[|n]] eqn:E; [lia|lia|].
  cbn. unfold float_of_digits_and_points. by rewrite E.
Qed.

(** Nothing else raises: a token on which the chain raises is such a
    number. *)
Lemma convert_value_raises token :
  convert_value token = None → multi_point_number token = true.
Proof.
  unfold convert_value, multi_point_number.
  destruct (bool_decide (lower token = "true") || bool_decide (lower token = "false"));
    [done|].
  rewrite isdigit_remove_points.
  destruct (digits_and_points token && has_digit token) eqn:Hnum;
    [|by destruct (contains "," token)].
  destruct (contains "." token) eqn:Hpoint.
  - unfold float_of_digits_and_points.
    destruct (Nat.leb_spec (count_char "." token) 1); [done|].
    intros _. cbn [andb]. apply Nat.leb_le. lia.
  - assert (Hd : isdigit token = true).
    { rewrite <- (remove_char_absent "." token Hpoint) at 1.
      by rewrite isdigit_remove_points. }
    rewrite (int_of_str_digits _ Hd).
    destruct (int_digits_all_digits token AtStart 0) as [n ->];
      [by destruct token | by destruct token | done].
Qed.

(** A file none of whose value tokens is such a number loads. *)
Lemma load_config_total lines :
  Forall (λ line, ∀ token, value_token line = Some token → multi_point_number token = false)
    lines →
  is_Some (_load_config lines).
Proof.
  unfold _load_config. generalize (∅ : gmap string config_value).
  induction lines as [|line lines IH]; intros config Hall; [by eexists|].
  apply Forall_cons in Hall as [Hline Hall]. cbn [load_lines].
  unfold load_line. unfold value_token in Hline.
  destruct (bool_decide (strip line = "") || startswith "#" (strip line)).
  { cbn. by apply IH. }
  destruct (split_once "=" (strip line)) as [[key value]|]; [|cbn; by apply IH].
  destruct (convert_value (strip value)) as [v|] eqn:Hv.
  - cbn. by apply IH.
  - apply convert_value_raises in Hv. rewrite (Hline (strip value)) in Hv; done.
Qed.

(** C6 as stated fails twice.  By the stated rules [True] is not the
    literal [true] and stays a string, and [1.2.3] is not a number and
    stays a string; the loader makes the first a boolean and raises on the
    second, which aborts the load. *)
Lemma C6_value_coercion_counterexample :
  convert_value "True" ≠ Some (spec_convert_value "True") ∧
  spec_convert_value "1.2.3" = VStr "1.2.3" ∧
  convert_value "1.2.3" = None ∧
  _load_config ["version=1.2.3"] = None.
Proof. repeat split; done. Qed.

(** ** ManualAnchorResolver *)



Example load_manual_coordinates_first_match :
  _load_manual_coordinates ["# anchors"; ""; " 7 = 10, 63 ,-4 "; "7=4,5,6"] (IntId 7)
  = Some (10, 63, -4).
Proof. reflexivity. Qed.

(** ** AnnotationJoiner *)

Lemma for_each_app {S A} (body : S → A → option S) s l1 l2 :
  for_each body s (l1 ++ l2) = for_each body s l1 ≫= λ s', for_each body s' l2.
Proof.
  revert s. induction l1 as [|x l1 IH]; intros s; [done|].
  cbn. destruct (body s x) as [s'|]; cbn; [apply IH|done].
Qed.

Lemma set_cell_app (L : list (list cell)) row rest k v :
  set_cell (length L) k v (L ++ row :: rest) = L ++ <[k := v]> row :: rest.
Proof.
  unfold set_cell. rewrite <- (Nat.add_0_r (length L)). by rewrite alter_app_r.
Qed.

(** One turn of the loop, on the array whose rows before [n] are done. *)
Lemma join_row_spec coords measurements (L : list (list cell)) n k :
  length L = n → (n < length measurements)%nat →
  join_row (coord_frame coords) (at8_frame measurements) (L ++ replicate (S k) blank_row) n
  = Some (L ++ joined_row coords measurements n :: replicate k blank_row).
Proof.
  intros <- Hn. unfold join_row, joined_row, iloc, coord_frame, at8_frame. cbn [rows].
  rewrite length_fmap, !list_lookup_fmap.
  destruct (lookup_lt_is_Some_2 measurements (length L) Hn) as [m Hm]. rewrite Hm.
  case_bool_decide as Hy.
  - destruct (lookup_lt_is_Some_2 coords _ Hy) as [c Hc]. rewrite Hc. cbn.
    rewrite !set_cell_app. done.
  - rewrite lookup_ge_None_2 by lia. done.
Qed.

(** The first [n] turns. *)
Lemma join_rows_spec coords measurements n :
  (n ≤ length measurements)%nat →
  for_each (join_row (coord_frame coords) (at8_frame measurements))
    (np_empty (length measurements) 4) (seq 0 n)
  = Some ((joined_row coords measurements <$> seq 0 n)
          ++ replicate (length measurements - n) blank_row).
Proof.
  induction n as [|n IH]; intros Hn.
  - cbn. by rewrite Nat.sub_0_r.
  - rewrite seq_S, for_each_app, IH by lia. cbn [mbind option_bind for_each Nat.add].
    replace (length measurements - n)%nat with (S (length measurements - S n)) by lia.
    rewrite join_row_spec; [|by rewrite length_fmap, length_seq|lia].
    cbn. rewrite fmap_app. cbn. by rewrite <- app_assoc.
Qed.

Lemma filter_all {A} (P : A → Prop) `{∀ x, Decision (P x)} (l : list A) :
  Forall P l → filter P l = l.
Proof.
  induction 1 as [|x l Hx _ IH]; [done|]. by rewrite filter_cons_True, IH.
Qed.

Lemma filter_none {A} (P : A → Prop) `{∀ x, Decision (P x)} (l : list A) :
  Forall (λ x, ¬ P x) l → filter P l = [].
Proof.
  induction 1 as [|x l Hx _ IH]; [done|]. by rewrite filter_cons_False.
Qed.

Lemma joined_row_filled coords measurements i :
  (5 * i < length coords)%nat → (i < length measurements)%nat →
  ∃ c m, coords !! (5 * i)%nat = Some c ∧ measurements !! i = Some m ∧
         joined_row coords measurements i = tile_row c m.
Proof.
  intros Hc Hm. unfold joined_row.
  destruct (lookup_lt_is_Some_2 coords _ Hc) as [c ->].
  destruct (lookup_lt_is_Some_2 measurements _ Hm) as [m ->]. eauto.
Qed.

Lemma joined_row_blank coords measurements i :
  (length coords ≤ 5 * i)%nat → joined_row coords measurements i = blank_row.
Proof. intros Hc. unfold joined_row. by rewrite lookup_ge_None_2. Qed.

(** [i < min(m, ceil(c/5))] says that measurement [i] has its coordinate. *)
Lemma spec_join_count_lt m c i :
  (i < spec_join_count m c)%nat ↔ (i < m)%nat ∧ (5 * i < c)%nat.
Proof.
  unfold spec_join_count. rewrite Nat.min_glb_lt_iff.
  pose proof (Nat.div_mod_eq (c + 4) 5) as Hd.
  pose proof (Nat.mod_upper_bound (c + 4) 5 ltac:(lia)) as Hm.
  lia.
Qed.

Lemma joined_rows_split coords measurements :
  let k := spec_join_count (length measurements) (length coords) in
  joined_row coords measurements <$> seq 0 (length measurements)
  = (joined_row coords measurements <$> seq 0 k)
    ++ replicate (length measurements - k) blank_row.
Proof.
  intros k. assert (Hk : (k ≤ length measurements)%nat) by (unfold k, spec_join_count; lia).
  replace (length measurements) with (k + (length measurements - k))%nat at 1 by lia.
  rewrite seq_app, fmap_app. f_equal. cbn [Nat.add].
  apply list_eq. intros i. rewrite list_lookup_fmap.
  destruct (decide (i < length measurements - k)%nat) as [Hi|Hi].
  - rewrite lookup_seq_lt, lookup_replicate_2 by done. cbn. f_equal.
    apply joined_row_blank.
    destruct (decide (length coords ≤ 5 * (k + i))%nat); [done|].
    assert (k + i < k)%nat; [|lia]. apply spec_join_count_lt. lia.
  - rewrite lookup_seq_ge by lia. symmetry. apply lookup_replicate_None. lia.
Qed.

Lemma joined_records coords measurements :
  filter (λ row, row ≠ blank_row)
    (joined_row coords measurements <$> seq 0 (length measurements))
  = joined_row coords measurements
      <$> seq 0 (spec_join_count (length measurements) (length coords)).
Proof.
  rewrite joined_rows_split, filter_app.
  rewrite (filter_none _ (replicate _ _)), app_nil_r.
  - apply filter_all, Forall_fmap, Forall_seq. intros i [_ Hi]. cbn.
    apply spec_join_count_lt in Hi as [Hm Hc].
    destruct (joined_row_filled coords measurements i Hc Hm) as (c & m & _ & _ & ->).
    done.
  - apply Forall_replicate. by intros [].
Qed.

(** The rows the join fills.  With at least one measurement, m
    measurements and c coordinates whose [X] and [Y] are integers, the join
    raises no error and the rows it fills are min(m, ceil(c/5)) in number:
    for every i < m with 5*i < c, row i is built from coords[5*i] and
    measurements[i], with [X] and [Z] the coordinate values floor-divided
    by 1000.  The rows it does not fill are in the table all the same;
    they are counted out here and are the subject of the statements
    below. *)
Lemma join_filled_rows coords measurements :
  measurements ≠ [] →
  ∃ out, processed_frame (coord_frame coords) (at8_frame measurements) = Some out ∧
    let records := filter (λ row, row ≠ blank_row) (rows out) in
    length records = spec_join_count (length measurements) (length coords) ∧
    ∀ i, (5 * i < length coords)%nat → (i < length measurements)%nat →
      ∃ c m, coords !! (5 * i)%nat = Some c ∧ measurements !! i = Some m ∧
             rows out !! i = Some (tile_row c m) ∧
             records !! i = Some (tile_row c m).
Proof.
  intros Hne. unfold processed_frame.
  assert (Hlen : length (rows (at8_frame measurements)) = length measurements)
    by (cbn; by rewrite length_fmap).
  rewrite Hlen. rewrite bool_decide_eq_false_2 by (by destruct measurements).
  rewrite join_rows_spec by done. rewrite Nat.sub_diag. cbn [replicate]. rewrite app_nil_r.
  eexists. split; [done|]. cbn [rows]. rewrite joined_records. split.
  - by rewrite length_fmap, length_seq.
  - intros i Hc Hm.
    destruct (joined_row_filled coords measurements i Hc Hm) as (c & m & Hci & Hmi & Hrow).
    exists c, m. rewrite !list_lookup_fmap.
    rewrite !lookup_seq_lt by (try apply spec_join_count_lt; lia).
    cbn. by rewrite Hrow.
Qed.

(** The example of the specification: 12 coordinates and 3 measurements
    give 3 records, from the coordinates 0, 5 and 10. *)
Example join_12_coordinates_3_measurements :
  processed_frame
    (coord_frame ((λ k, (CStr "Tile", 1000 * Z.of_nat k + 999, -1000 * Z.of_nat k - 1)) <$> seq 0 12))
    (at8_frame [(CStr "Tile 1", CFloat (1 # 2)); (CStr "Tile 2", CFloat (3 # 4));
                (CStr "Tile 3", CInt 0)])
  = Some {| columns := ["Tile"; "X"; "Z"; "AT8"];
            rows := [[CStr "Tile"; CInt 0; CInt (-1); CFloat (1 # 2)];
                     [CStr "Tile"; CInt 5; CInt (-6); CFloat (3 # 4)];
                     [CStr "Tile"; CInt 10; CInt (-11); CInt 0]] |}.
Proof. reflexivity. Qed.

(** X12.  A measurement without a coordinate gives no tile record, but the table
    keeps its row, blank: [np.empty] made one row per measurement. *)
Lemma join_keeps_blank_rows coords measurements :
  measurements ≠ [] →
  ∃ out, processed_frame (coord_frame coords) (at8_frame measurements) = Some out ∧
    rows out = (joined_row coords measurements
                  <$> seq 0 (spec_join_count (length measurements) (length coords)))
               ++ replicate (length measurements
                             - spec_join_count (length measurements) (length coords)) blank_row.
Proof.
  intros Hne. unfold processed_frame.
  assert (Hlen : length (rows (at8_frame measurements)) = length measurements)
    by (cbn; by rewrite length_fmap).
  rewrite Hlen. rewrite bool_decide_eq_false_2 by (by destruct measurements).
  rewrite join_rows_spec by done. rewrite Nat.sub_diag. cbn [replicate]. rewrite app_nil_r.
  eexists. split; [done|]. cbn [rows]. apply joined_rows_split.
Qed.

(** C1 at one coordinate and two measurements.  The claim gives
    min(2, ceil(1/5)) = 1 record and has measurement 1 dropped, nothing of
    it left.  The joiner writes two rows: the record of measurement 0, and
    for measurement 1 a row whose four cells are all missing, the row
    [np.empty] made and the guard [y < len(df_tiles)] passed over.  On the
    table with that row the row loop of the next stage raises. *)
Theorem C1_join_writes_blank_row :
  spec_join_count 2 1 = 1%nat ∧
  ∃ out,
    processed_frame (coord_frame [(CStr "Tile 1", 5000, 7000)])
      (at8_frame [(CStr "Tile 1", CFloat (1 # 2)); (CStr "Tile 2", CFloat (3 # 4))])
    = Some out
    ∧ columns out = ["Tile"; "X"; "Z"; "AT8"]
    ∧ rows out = [[CStr "Tile 1"; CInt 5; CInt 7; CFloat (1 # 2)];
                  [CNone; CNone; CNone; CNone]]
    ∧ length (rows out) = 2%nat
    ∧ rows out !! 1%nat = Some blank_row
    ∧ read_tile_rows out = None.
Proof.
  split; [reflexivity|]. eexists. split; [reflexivity|].
  split; [reflexivity|]. split; [reflexivity|]. split; [reflexivity|].
  split; reflexivity.
Qed.

(** The loop of [_create_3d_blocks] reads every row of the processed file
    with [int(row['X'])]: on a blank row that raises. *)
Example blank_row_has_no_x : blank_row !! 1%nat ≫= py_int = None.
Proof. reflexivity. Qed.

(** C5 at one coordinate and no measurement.  The claim gives one tile
    record with the value 0, that is [Tile 1] with [X = 5] and [Z = 7], the
    coordinate floor-divided by 1000 as in every tile record.  The joiner
    writes the row of the coordinate file as it was read, 5000 and 7000
    under the headers [Name], [X], [Y], with a column [AT8] of zeros: not
    the record, and a table on which the row loop of the next stage raises
    at [row['Tile']].  The join, next to it in the same function, renames
    the columns and divides. *)
Theorem C5_fallback_rows_are_not_tile_records :
  let record := tile_row (CStr "Tile 1", 5000, 7000) (CStr "Tile 1", CInt 0) in
  record = [CStr "Tile 1"; CInt 5; CInt 7; CInt 0] ∧
  ∃ out,
    processed_frame (coord_frame [(CStr "Tile 1", 5000, 7000)]) (at8_frame []) = Some out
    ∧ columns out = ["Name"; "X"; "Y"; "AT8"]
    ∧ rows out = [[CStr "Tile 1"; CInt 5000; CInt 7000; CInt 0]]
    ∧ rows out ≠ [record]
    ∧ read_tile_rows out = None.
Proof.
  intros record. split; [reflexivity|]. eexists. split; [reflexivity|].
  split; [reflexivity|]. split; [reflexivity|]. split; [discriminate|reflexivity].
Qed.

(** ** VolumeBlockBuilder *)

Section BuilderFacts.
Context {V : Type}.
Implicit Types (mask : ndarray V) (p : Z * Z * Z) (v : V).

Lemma stamped_none v mask : stamped (λ _, False) v mask mask.
Proof. split; [done|]. intros p. right. split; [tauto|done]. Qed.

Lemma stamped_union W1 W2 v mask0 mask1 mask2 :
  stamped W1 v mask0 mask1 → stamped W2 v mask1 mask2 →
  stamped (λ p, W1 p ∨ W2 p) v mask0 mask2.
Proof.
  intros [Hs1 H1] [Hs2 H2]. split; [congruence|]. intros p.
  rewrite Hs1 in H2.
  destruct (H2 p) as [(Hw & Hb & Hd)|[Hn Hd]]; [left; tauto|].
  destruct (H1 p) as [(Hw & Hb & Hd')|[Hn' Hd']].
  - left. rewrite Hd. tauto.
  - right. split; [tauto|congruence].
Qed.

Lemma stamped_ext W W' v mask mask' :
  (∀ p, W p ↔ W' p) → stamped W v mask mask' → stamped W' v mask mask'.
Proof.
  intros HW [Hs H]. split; [done|]. intros p.
  destruct (H p) as [(Hw & Hb & Hd)|[Hn Hd]]; [left|right]; rewrite <- HW; tauto.
Qed.

Lemma for_each_stamped {A} (body : ndarray V → A → option (ndarray V))
    (W : A → Z * Z * Z → Prop) v (l : list A) :
  (∀ a mask, ∃ mask', body mask a = Some mask' ∧ stamped (W a) v mask mask') →
  ∀ mask, ∃ mask', for_each body mask l = Some mask'
                   ∧ stamped (λ p, ∃ a, a ∈ l ∧ W a p) v mask mask'.
Proof.
  intros Hbody. induction l as [|a l IH]; intros mask.
  - exists mask. split; [done|]. eapply stamped_ext; [|apply stamped_none].
    intros p. split; [done|]. intros (a & Ha & _). by apply elem_of_nil in Ha.
  - destruct (Hbody a mask) as (mask1 & Hb & H1).
    destruct (IH mask1) as (mask2 & Hf & H2).
    exists mask2. cbn. rewrite Hb. cbn. split; [done|].
    eapply stamped_ext; [|exact (stamped_union _ _ _ _ _ _ H1 H2)].
    intros p. split.
    + intros [Hw|(b & Hb' & Hw)]; [exists a|exists b]; split; auto; set_solver.
    + intros (b & [->|Hb']%elem_of_cons & Hw); [by left|right; eauto].
Qed.

Lemma norm_index_in_range d i : 0 ≤ i < d → norm_index d i = Some i.
Proof.
  intros H. unfold norm_index.
  destruct (Z.leb_spec 0 i), (Z.ltb_spec i d); try lia. done.
Qed.

Lemma in_bounds_spec sh x y z :
  in_bounds sh x y z = true ↔
  (0 ≤ x < sh.1.1) ∧ (0 ≤ y < sh.1.2) ∧ (0 ≤ z < sh.2).
Proof.
  destruct sh as [[d0 d1] d2]. unfold in_bounds. cbn.
  rewrite !andb_true_iff, !Z.leb_le, !Z.ltb_lt. tauto.
Qed.

(** The guarded assignment never raises: the guard keeps the index inside
    the array, where numpy takes it as it is. *)
Lemma stamp_voxel_stamped x y z v dx dy dz mask :
  ∃ mask', stamp_voxel x y z v dx dy mask dz = Some mask'
           ∧ stamped (λ p, p = (x + dx, y + dy, z + dz)) v mask mask'.
Proof.
  destruct mask as [[[d0 d1] d2] dat]. unfold stamp_voxel. cbn [shape].
  destruct (in_bounds (d0, d1, d2) (x + dx) (y + dy) (z + dz)) eqn:Hb.
  - unfold setitem. cbn [shape data].
    pose proof Hb as Hb'. apply in_bounds_spec in Hb' as (Hx & Hy & Hz). cbn in Hx, Hy, Hz.
    rewrite !norm_index_in_range by done. cbn [mbind option_bind].
    eexists. split; [done|]. split; [done|]. cbn [shape data]. intros p.
    destruct (decide (p = (x + dx, y + dy, z + dz))) as [->|Hne].
    + left. rewrite lookup_insert_eq. done.
    + right. rewrite lookup_insert_ne by done. tauto.
  - eexists. split; [done|]. split; [done|]. cbn [shape data]. intros p. right. split; [|done].
    intros [-> Hp]. unfold in_bounds_at in Hp. cbn [fst snd] in Hp. congruence.
Qed.

Lemma elem_of_range a b k : k ∈ range a b ↔ a ≤ k < b.
Proof. unfold range. rewrite elem_of_seqZ. lia. Qed.

Lemma in_cube_spec x y z h p :
  in_cube (x, y, z) h p = true ↔
  ∃ dx, dx ∈ range (- h) (h + 1) ∧ ∃ dy, dy ∈ range (- h) (h + 1) ∧
  ∃ dz, dz ∈ range (- h) (h + 1) ∧ p = (x + dx, y + dy, z + dz).
Proof.
  destruct p as [[px py] pz]. unfold in_cube. cbn.
  rewrite !andb_true_iff, !Z.leb_le. split.
  - intros H. exists (px - x). rewrite elem_of_range. split; [lia|].
    exists (py - y). rewrite elem_of_range. split; [lia|].
    exists (pz - z). rewrite elem_of_range. split; [lia|]. f_equal; [f_equal|]; lia.
  - intros (dx & Hx%elem_of_range & dy & Hy%elem_of_range & dz & Hz%elem_of_range & [= -> -> ->]).
    lia.
Qed.

(** The three loops: no exception, and the voxels written are those of the
    cube that lie inside the array. *)
Lemma stamp_block_stamped x y z h v mask :
  ∃ mask', stamp_block x y z h v mask = Some mask'
           ∧ stamped (λ p, in_cube (x, y, z) h p = true) v mask mask'.
Proof.
  unfold stamp_block.
  edestruct (for_each_stamped
    (λ mask dx, for_each (λ mask dy,
       for_each (stamp_voxel x y z v dx dy) mask (range (- h) (h + 1)))
       mask (range (- h) (h + 1)))
    (λ dx p, ∃ dy, dy ∈ range (- h) (h + 1) ∧
             ∃ dz, dz ∈ range (- h) (h + 1) ∧ p = (x + dx, y + dy, z + dz))
    v (range (- h) (h + 1))) as (mask' & Hf & Hst).
  - intros dx m.
    apply (for_each_stamped
      (λ mask dy, for_each (stamp_voxel x y z v dx dy) mask (range (- h) (h + 1)))
      (λ dy p, ∃ dz, dz ∈ range (- h) (h + 1) ∧ p = (x + dx, y + dy, z + dz))).
    intros dy m'.
    apply (for_each_stamped (stamp_voxel x y z v dx dy)
      (λ dz p, p = (x + dx, y + dy, z + dz))).
    intros dz m''. apply stamp_voxel_stamped.
  - exists mask'. split; [exact Hf|].
    eapply stamped_ext; [|exact Hst]. intros p. symmetry. apply in_cube_spec.
Qed.

Lemma stamped_lookup (w : Z * Z * Z → bool) v mask mask' p :
  stamped (λ p, w p = true) v mask mask' →
  data mask' !! p = if w p && in_bounds_at (shape mask) p then Some v else data mask !! p.
Proof.
  intros [_ H]. destruct (H p) as [(Hw & Hb & ->)|[Hn ->]].
  - by rewrite Hw, Hb.
  - destruct (w p), (in_bounds_at (shape mask) p); try done. tauto.
Qed.

(** One row of the table: never an exception; the shape is kept; a voxel
    changes exactly when the row covers it, and then holds the value of
    the row. *)
Lemma place_tile_lookup manual_coords block_size mask row :
  ∃ mask', place_tile manual_coords block_size mask row = Some mask'
    ∧ shape mask' = shape mask
    ∧ ∀ p, data mask' !! p
           = if covers (shape mask) manual_coords block_size row p
             then Some (AT8 row) else data mask !! p.
Proof.
  destruct manual_coords as [[x_offset y_slice] z_offset].
  unfold place_tile, covers, centre, in_bounds_at at 1. cbn [fst snd].
  destruct (in_bounds (shape mask) (X row + x_offset) y_slice (Zc row + z_offset)) eqn:Hb.
  - destruct (stamp_block_stamped (X row + x_offset) y_slice (Zc row + z_offset)
                (block_size / 2) (AT8 row) mask) as (mask' & Hs & Hst).
    exists mask'. split; [done|]. split; [apply Hst|]. intros p.
    by rewrite (stamped_lookup _ _ _ _ _ Hst).
  - exists mask. done.
Qed.

(** All the rows: never an exception; a voxel holds the value of the last
    row that covers it, and what it held before when no row does. *)
Lemma place_tiles_lookup manual_coords block_size df mask :
  ∃ mask', for_each (place_tile manual_coords block_size) mask df = Some mask'
    ∧ shape mask' = shape mask
    ∧ ∀ p, data mask' !! p
           = match last_cover (shape mask) manual_coords block_size df p with
             | Some row => Some (AT8 row)
             | None => data mask !! p
             end.
Proof.
  revert mask. induction df as [|row df IH]; intros mask; [by exists mask|].
  destruct (place_tile_lookup manual_coords block_size mask row) as (mask1 & Hp & Hs1 & H1).
  destruct (IH mask1) as (mask2 & Hf & Hs2 & H2).
  exists mask2. cbn [for_each]. rewrite Hp. cbn. split; [done|]. split; [congruence|].
  intros p. rewrite H2, Hs1. cbn [last_cover].
  destruct (last_cover (shape mask) manual_coords block_size df p); [done|].
  rewrite H1. by destruct (covers _ _ _ row p).
Qed.

Lemma last_cover_covers sh manual_coords block_size (df : list (TileRecord V)) p row :
  last_cover sh manual_coords block_size df p = Some row →
  covers sh manual_coords block_size row p = true.
Proof.
  induction df as [|r df IH]; [done|]. cbn.
  destruct (last_cover sh manual_coords block_size df p); [by intros [= ->]; apply IH|].
  destruct (covers sh manual_coords block_size r p) eqn:E; [by intros [= <-]|done].
Qed.

Lemma last_cover_app sh manual_coords block_size (df1 df2 : list (TileRecord V)) p :
  last_cover sh manual_coords block_size (df1 ++ df2) p
  = match last_cover sh manual_coords block_size df2 p with
    | Some row => Some row
    | None => last_cover sh manual_coords block_size df1 p
    end.
Proof.
  induction df1 as [|r df1 IH]; cbn.
  - by destruct (last_cover _ _ _ df2 p).
  - rewrite IH. by destruct (last_cover _ _ _ df2 p).
Qed.

Lemma last_cover_none sh manual_coords block_size (df : list (TileRecord V)) p :
  Forall (λ row, covers sh manual_coords block_size row p = false) df →
  last_cover sh manual_coords block_size df p = None.
Proof.
  induction 1 as [|r df Hr _ IH]; [done|]. cbn. by rewrite IH, Hr.
Qed.

Lemma create_3d_blocks_lookup img_shape df manual_coords block_size :
  ∃ mask, _create_3d_blocks img_shape df manual_coords block_size
          = Some (mask, transformed_data manual_coords df)
    ∧ shape mask = img_shape
    ∧ ∀ p, data mask !! p
           = AT8 <$> last_cover img_shape manual_coords block_size df p.
Proof.
  unfold _create_3d_blocks.
  destruct (place_tiles_lookup manual_coords block_size df (np_zeros img_shape))
    as (mask & Hf & Hs & H).
  exists mask. rewrite Hf. cbn. split; [done|]. split; [done|].
  intros p. rewrite H. cbn. by destruct (last_cover _ _ _ df p).
Qed.

End BuilderFacts.

(** C2, as the loop has it.  For a row whose absolute coordinates are
    inside the volume and a block size that is not negative, the stamped
    region is the cube centred exactly at [(x, y, z)] with half-extent
    [block_size // 2] on every axis, cut to the volume: every voxel in it
    holds the value of the row, every other voxel is as before.  Along an
    axis the loop visits [2 * (block_size // 2) + 1] offsets: [block_size]
    of them when it is odd, [block_size + 1] when it is even, and the cube
    is centred in both cases. *)
Theorem C2_block_geometry {V} (zero : V) manual_coords block_size (mask : ndarray V) row :
  in_bounds_at (shape mask) (centre manual_coords row) = true →
  0 ≤ block_size →
  ∃ mask', place_tile manual_coords block_size mask row = Some mask'
    ∧ (∀ p, voxel zero mask' p
            = if in_cube (centre manual_coords row) (block_size / 2) p
                 && in_bounds_at (shape mask) p
              then AT8 row else voxel zero mask p)
    ∧ Z.of_nat (length (range (- (block_size / 2)) (block_size / 2 + 1)))
      = (if Z.odd block_size then block_size else block_size + 1).
Proof.
  intros Hc Hb.
  destruct (place_tile_lookup manual_coords block_size mask row) as (mask' & Hp & _ & H).
  exists mask'. split; [done|]. split.
  - intros p. unfold voxel. rewrite H. unfold covers. rewrite Hc. cbn [andb].
    by destruct (in_cube _ _ p && in_bounds_at _ p).
  - unfold range. rewrite length_seqZ.
    pose proof (Z.div_mod block_size 2 ltac:(lia)) as Hd.
    pose proof (Z.mod_pos_bound block_size 2 ltac:(lia)) as Hm.
    destruct (Z.odd block_size) eqn:Ho.
    + apply Z.odd_spec in Ho as [k Hk]. lia.
    + rewrite <- Z.negb_even in Ho. apply negb_false_iff, Z.even_spec in Ho as [k Hk]. lia.
Qed.

Lemma C2_block_geometry_witness :
  let mask := np_zeros (V := Z) (10, 10, 10) in
  let row := {| Tile := "Tile 1"; X := 5; Zc := 5; AT8 := 9 |} in
  in_bounds_at (shape mask) (centre (0, 5, 0) row) = true ∧
  0 ≤ 7 ∧
  ∃ mask', place_tile (0, 5, 0) 7 mask row = Some mask'
    ∧ (∀ p, voxel 0 mask' p
            = if in_cube (centre (0, 5, 0) row) (7 / 2) p && in_bounds_at (shape mask) p
              then AT8 row else voxel 0 mask p)
    ∧ Z.of_nat (length (range (- (7 / 2)) (7 / 2 + 1))) = (if Z.odd 7 then 7 else 7 + 1).
Proof.
  intros mask row. split; [reflexivity|]. split; [lia|].
  apply (C2_block_geometry 0 (0, 5, 0) 7 mask row); [reflexivity|lia].
Defined.

(** C2 as stated fails for an even block size.  With [block_size = 2] the
    specification stamps a cube of side 2, offsets -1 and 0 on every axis;
    the loop runs over -1, 0 and 1 and stamps 27 voxels, among them the one
    at offset +1. *)
Lemma C2_block_geometry_counterexample :
  spec_block_offsets 2 = [-1; 0] ∧
  range (- (2 / 2)) (2 / 2 + 1) = [-1; 0; 1] ∧
  ∃ mask', place_tile (0, 5, 0) 2 (np_zeros (V := Z) (10, 10, 10))
             {| Tile := "Tile 1"; X := 5; Zc := 5; AT8 := 9 |} = Some mask'
    ∧ voxel 0 mask' (6, 5, 5) = 9
    ∧ size (data mask') = 27%nat.
Proof.
  split; [reflexivity|]. split; [reflexivity|].
  eexists. split; [vm_compute; reflexivity|]. split; vm_compute; reflexivity.
Qed.

(** C3.  When the cubes of two rows [A] and [B] both reach the voxel [p],
    [B] comes after [A] in the table and no row after [B] reaches [p], the
    build succeeds and [p] holds exactly the value of [B]. *)
Theorem C3_last_write_wins {V} (zero : V) img_shape manual_coords block_size
    (before between after : list (TileRecord V)) A B p :
  covers img_shape manual_coords block_size A p = true →
  covers img_shape manual_coords block_size B p = true →
  Forall (λ row, covers img_shape manual_coords block_size row p = false) after →
  ∃ mask, _create_3d_blocks img_shape (before ++ A :: between ++ B :: after)
            manual_coords block_size
          = Some (mask, transformed_data manual_coords
                          (before ++ A :: between ++ B :: after))
    ∧ voxel zero mask p = AT8 B.
Proof.
  intros _ HB Hafter.
  destruct (create_3d_blocks_lookup img_shape (before ++ A :: between ++ B :: after)
              manual_coords block_size) as (mask & Hb & _ & H).
  exists mask. split; [done|]. unfold voxel. rewrite H.
  replace (before ++ A :: between ++ B :: after)
    with ((before ++ A :: between) ++ B :: after) by (by rewrite <- app_assoc).
  rewrite last_cover_app. cbn [last_cover].
  by rewrite (last_cover_none _ _ _ _ _ Hafter), HB.
Qed.

Lemma C3_last_write_wins_witness :
  let A := {| Tile := "A"; X := 9; Zc := 10; AT8 := 5 |} in
  let B := {| Tile := "B"; X := 11; Zc := 10; AT8 := 9 |} in
  covers (20, 20, 20) (0, 10, 0) 7 A (10, 10, 10) = true ∧
  covers (20, 20, 20) (0, 10, 0) 7 B (10, 10, 10) = true ∧
  Forall (λ row : TileRecord Z, covers (20, 20, 20) (0, 10, 0) 7 row (10, 10, 10) = false) [] ∧
  ∃ mask, _create_3d_blocks (20, 20, 20) ([] ++ A :: [] ++ B :: []) (0, 10, 0) 7
          = Some (mask, transformed_data (0, 10, 0) ([] ++ A :: [] ++ B :: []))
    ∧ voxel 0 mask (10, 10, 10) = AT8 B.
Proof.
  intros A B. split; [reflexivity|]. split; [reflexivity|]. split; [constructor|].
  apply (C3_last_write_wins 0 (20, 20, 20) (0, 10, 0) 7 [] [] [] A B (10, 10, 10));
    [reflexivity | reflexivity | constructor].
Defined.


(** ** The steps *)

Ltac step_cbn :=
  cbn -[joinpath String.append summary_csv_file output_dir coord_output_file
       at8_output_file proc_output_file _create_processed_file].

Ltac run_step :=
  unfold try_except, mbind, M_bind, mret, M_ret, lift, change, change_or_raise, ask, emit;
  step_cbn.

Section Quiet.
Context {FS : Type}.

Lemma quiet_ret {A} (a : A) : quiet (mret a : M FS A).
Proof. done. Qed.

Lemma quiet_bind {A B} (m : M FS A) (k : A → M FS B) :
  quiet m → (∀ a, quiet (k a)) → quiet (m ≫= k).
Proof.
  intros Hm Hk st w. specialize (Hm st w). unfold mbind, M_bind.
  destruct (m w) as [[a|] w1]; cbn in *; [|done]. by rewrite (Hk a st w1).
Qed.

Lemma quiet_try {A} (body handler : M FS A) :
  quiet body → quiet handler → quiet (try_except body handler).
Proof.
  intros Hb Hh st w. specialize (Hb st w). unfold try_except.
  destruct (body w) as [[a|] w1]; cbn in *; [done|]. by rewrite (Hh st w1).
Qed.

Lemma quiet_lift {A} (o : option A) : quiet (lift o : M FS A).
Proof. done. Qed.

Lemma quiet_if {A} (b : bool) (m1 m2 : M FS A) :
  quiet m1 → quiet m2 → quiet (if b then m1 else m2).
Proof. by destruct b. Qed.

Lemma processed_subjects_app st tr1 tr2 :
  processed_subjects st (tr1 ++ tr2) = processed_subjects st tr1 ++ processed_subjects st tr2.
Proof. apply omap_app. Qed.

End Quiet.

Section StepFacts.
Context {FS : Type} `{!Filesystem FS, !Tools FS}.
Variable output_base : string.
Variable logs_dir : string.
Variable get_input_annotation_path : subject → string.

Lemma quiet_ask {A} (f : FS → A) : quiet (ask f).
Proof. done. Qed.

Lemma quiet_change (f : FS → FS) : quiet (change f).
Proof. done. Qed.

Lemma quiet_change_or_raise (f : FS → option FS) : quiet (change_or_raise f).
Proof. intros st w. unfold change_or_raise. by destruct (f (fs w)). Qed.

Lemma quiet_apply_kernel input_file output_file :
  quiet (_apply_kernel input_file output_file).
Proof.
  intros st w. unfold _apply_kernel. destruct (gaussian_filter _ _ _) as [ok s].
  cbn [snd trace]. rewrite processed_subjects_app. cbn. by rewrite app_nil_r.
Qed.

Lemma kernel_int_subject_fails n dry_run (w : World FS) :
  KernelApplicationStep_process_subject output_base (IntId n) dry_run w = (Some false, w).
Proof. reflexivity. Qed.

(** X21.  For a subject given as a string whose smoothed output is there, the
    step makes its directory, answers [True] and does not enter
    [_apply_kernel]. *)
Lemma kernel_skips_existing_output s (w : World FS) :
  let output_dir := joinpath (joinpath output_base s) (s +:+ "_kernel") in
  let output_file := joinpath output_dir (s +:+ "_QNP_AT8_smoothed_sig2.nii.gz") in
  path_exists output_file (mkdir output_dir (fs w)) = true →
  KernelApplicationStep_process_subject output_base (StrId s) false w
  = (Some true, {| fs := mkdir output_dir (fs w); trace := trace w |}).
Proof.
  intros output_dir output_file Hex.
  subst output_dir output_file. unfold KernelApplicationStep_process_subject. run_step.
  by rewrite Hex.
Qed.

Lemma kernel_well_behaved :
  well_behaved (KernelApplicationStep_process_subject (FS := FS) output_base).
Proof.
  intros subject_id dry_run. split.
  - unfold KernelApplicationStep_process_subject.
    apply quiet_try; [|apply quiet_ret].
    apply quiet_bind; [apply quiet_lift|]. intros d1.
    apply quiet_bind; [apply quiet_lift|]. intros d2.
    apply quiet_if; [apply quiet_ret|].
    apply quiet_bind; [apply quiet_change|]. intros _.
    apply quiet_bind; [apply quiet_ask|]. intros present.
    apply quiet_if; [apply quiet_ret|].
    apply quiet_bind; [apply quiet_ask|]. intros present'.
    apply quiet_if; [apply quiet_ret|apply quiet_apply_kernel].
  - intros w. unfold KernelApplicationStep_process_subject, try_except.
    match goal with |- context [let (o, w') := ?m in _] => destruct m as [[ok|] w'] end;
      by eexists.
Qed.

Lemma create_processed_file_run coord_file at8_file output_file (w : World FS) :
  _create_processed_file coord_file at8_file output_file w
  = match read_and_join coord_file at8_file (fs w) with
    | Some df => (Some (), {| fs := write_csv output_file df (fs w); trace := trace w |})
    | None =>
        match copy2 coord_file output_file (fs w) with
        | Some s => (Some (), {| fs := s; trace := trace w |})
        | None => (None, w)
        end
    end.
Proof.
  unfold _create_processed_file, read_and_join.
  unfold try_except, mbind, M_bind, lift, change, change_or_raise. cbn.
  destruct (read_csv coord_file (fs w)) as [df_tiles|]; cbn; [|done].
  destruct (read_csv at8_file (fs w)) as [df_at8|]; cbn; [|done].
  by destruct (processed_frame df_tiles df_at8).
Qed.

Lemma quiet_create_processed_file coord_file at8_file output_file :
  quiet (_create_processed_file (FS := FS) coord_file at8_file output_file).
Proof.
  intros st w. rewrite create_processed_file_run.
  destruct (read_and_join _ _ _); [done|]. by destruct (copy2 _ _ _).
Qed.

(** The step up to the call of [_create_processed_file]. *)
Lemma extract_reaches_join subject_id (w : World FS) :
  let s1 := mkdir (output_dir output_base subject_id) (fs w) in
  path_exists (get_input_annotation_path subject_id) s1 = true →
  path_exists summary_csv_file s1 = true →
  xml_coordinates (get_input_annotation_path subject_id) s1 ≠ [] →
  CoordinateExtractionStep_process_subject output_base get_input_annotation_path
    subject_id false w
  = match _create_processed_file (coord_output_file output_base subject_id)
            (at8_output_file output_base subject_id)
            (proc_output_file output_base subject_id)
            {| fs := written_inputs output_base get_input_annotation_path subject_id (fs w);
               trace := trace w |} with
    | (Some _, w') => (Some true, w')
    | (None, w') => (Some false, w')
    end.
Proof.
  intros s1 Ha Hs Hc. subst s1.
  unfold CoordinateExtractionStep_process_subject, _extract_coordinates_from_xml,
    _save_coordinates_to_csv, _create_at8_file, written_inputs.
  run_step. rewrite Ha. step_cbn. rewrite Hs. step_cbn.
  rewrite !bool_decide_eq_false_2 by done.
  by destruct (_create_processed_file _ _ _ _) as [[[]|] w'].
Qed.

Lemma extract_well_behaved :
  well_behaved (CoordinateExtractionStep_process_subject (FS := FS) output_base
                  get_input_annotation_path).
Proof.
  intros subject_id dry_run. split.
  - unfold CoordinateExtractionStep_process_subject.
    apply quiet_try; [|apply quiet_ret].
    apply quiet_bind; [apply quiet_change|]. intros _.
    apply quiet_if; [apply quiet_ret|].
    apply quiet_bind; [apply quiet_ask|]. intros present.
    apply quiet_if; [apply quiet_ret|].
    apply quiet_bind; [apply quiet_ask|]. intros present'.
    apply quiet_if; [apply quiet_ret|].
    apply quiet_bind; [apply quiet_ask|]. intros coordinates.
    apply quiet_if; [apply quiet_ret|].
    apply quiet_bind; [apply quiet_ask|]. intros at8_values.
    apply quiet_bind; [apply quiet_change|]. intros _.
    apply quiet_bind; [apply quiet_change|]. intros _.
    apply quiet_bind; [apply quiet_create_processed_file|]. intros _.
    apply quiet_ret.
  - intros w. unfold CoordinateExtractionStep_process_subject, try_except.
    match goal with |- context [let (o, w') := ?m in _] => destruct m as [[ok|] w'] end;
      by eexists.
Qed.

(** *** Pruning *)

Lemma filter_ext_in {A} (P Q : A → Prop) `{∀ x, Decision (P x), ∀ x, Decision (Q x)}
    (l : list A) :
  (∀ x, x ∈ l → (P x ↔ Q x)) → filter P l = filter Q l.
Proof.
  induction l as [|x l IH]; intros HPQ; [done|].
  rewrite !filter_cons. rewrite IH by (intros y Hy; apply HPQ; by right).
  pose proof (HPQ x ltac:(by left)) as Hx.
  destruct (decide (P x)), (decide (Q x)); tauto.
Qed.

(** What [execute] keeps of the subjects: those without output. *)
Lemma prune_existing (h : subject → bool) (subjects : list subject) :
  let existing := filter (λ s, h s = true) subjects in
  (if bool_decide (existing ≠ []) then filter (λ s, s ∉ existing) subjects else subjects)
  = filter (λ s, h s = false) subjects.
Proof.
  intros existing.
  assert (Hf : filter (λ s, s ∉ existing) subjects = filter (λ s, h s = false) subjects).
  { apply filter_ext_in. intros s Hs. unfold existing. rewrite list_elem_of_filter.
    destruct (h s); split; try done.
    - intros Hn. exfalso. by apply Hn.
    - by intros _ [? _]. }
  case_bool_decide as He; [done|].
  rewrite <- Hf. symmetry. apply filter_all, Forall_forall. intros s _.
  destruct (decide (existing = [])) as [->|]; [apply not_elem_of_nil|tauto].
Qed.

Lemma process_all_trace st (process : subject → bool → M FS bool) dry_run :
  well_behaved process →
  ∀ subjects success_count (w : World FS),
    ∃ n w', process_all st process subjects dry_run success_count w = (Some n, w')
            ∧ processed_subjects st (trace w') = processed_subjects st (trace w) ++ subjects.
Proof.
  intros Hwb. induction subjects as [|subject_id subjects IH]; intros k w.
  - exists k, w. by rewrite app_nil_r.
  - destruct (Hwb subject_id dry_run) as [Hq Hr].
    set (w1 := {| fs := fs w; trace := trace w ++ [Processed st subject_id] |}).
    specialize (Hq st w1). destruct (Hr w1) as [ok Hok].
    destruct (process subject_id dry_run w1) as [o w2] eqn:Hp. cbn [fst snd] in Hok, Hq.
    subst o.
    destruct (IH (if ok then S k else k) w2) as (n & w' & Hall & Htr).
    exists n, w'. cbn [process_all]. run_step. fold w1. rewrite Hp. split; [exact Hall|].
    rewrite Htr, Hq. subst w1. cbn [trace]. rewrite processed_subjects_app. cbn.
    rewrite bool_decide_eq_true_2 by done. by rewrite <- app_assoc.
Qed.

Lemma BaseStep_execute_spec st step_suffix (process : subject → bool → M FS bool)
    subjects (force dry_run : bool) (w : World FS) :
  well_behaved process →
  let todo := if force then subjects
              else filter (λ s, has_output output_base step_suffix (fs w) s = false) subjects in
  ∃ ok w', BaseStep_execute output_base logs_dir st step_suffix process
             subjects force dry_run w = (Some ok, w')
    ∧ processed_subjects st (trace w') = processed_subjects st (trace w) ++ todo
    ∧ (todo = [] → ok = true ∧ w' = w).
Proof.
  intros Hwb todo. unfold BaseStep_execute, check_existing_outputs.
  assert (Hkept : ∀ k : list subject → M FS bool,
            ((if negb force
              then existing ← ask (λ s, filter (λ subject_id,
                                has_output output_base step_suffix s subject_id = true) subjects);
                   mret (if bool_decide (existing ≠ [])
                         then filter (λ s, s ∉ existing) subjects else subjects)
              else mret subjects) ≫= k) w = k todo w).
  { intros k. unfold todo. destruct force; [done|]. run_step.
    by rewrite (prune_existing (has_output output_base step_suffix (fs w))). }
  rewrite Hkept. case_bool_decide as Hnil.
  - exists true, w. rewrite Hnil, app_nil_r. done.
  - unfold create_output_directories. run_step.
    match goal with |- context [process_all st process todo dry_run 0 ?w0] =>
      destruct (process_all_trace st process dry_run Hwb todo 0%nat w0)
        as (n & w' & -> & Htr) end.
    eexists _, w'. split; [done|]. split; [exact Htr|done].
Qed.

(** *** The claims about the steps *)

Variable UpsamplingStep_process_subject : subject → bool → M FS bool.
Variable SlicingStep_process_subject : subject → bool → M FS bool.
Variable CoordinateTransformationStep_process_subject : subject → bool → M FS bool.
Variable MNIRegistrationStep_process_subject : subject → bool → M FS bool.

Local Abbreviation step_process := (_process_subject output_base get_input_annotation_path
  UpsamplingStep_process_subject SlicingStep_process_subject
  CoordinateTransformationStep_process_subject MNIRegistrationStep_process_subject).
Local Abbreviation step_execute := (execute output_base logs_dir get_input_annotation_path
  UpsamplingStep_process_subject SlicingStep_process_subject
  CoordinateTransformationStep_process_subject MNIRegistrationStep_process_subject).

(** C8, as the steps have it.  For every stage built on [BaseStep.execute],
    that is every stage but [mni], and every list of subjects: with
    [force] every subject is processed, in order, whatever output exists;
    without [force] the subjects whose stage directory exists and has an
    entry are pruned and exactly the others are processed; and when none
    is left the stage answers success at once, the world untouched. *)
Theorem C8_resume_pruning st subjects (force dry_run : bool) (w : World FS) :
  st ≠ mni →
  well_behaved (step_process st) →
  ∃ ok w', step_execute st subjects force dry_run w = (Some ok, w')
    ∧ processed_subjects st (trace w')
      = processed_subjects st (trace w) ++ pending output_base st subjects force (fs w)
    ∧ (pending output_base st subjects force (fs w) = [] → ok = true ∧ w' = w).
Proof.
  intros Hst Hwb. unfold pending.
  destruct st; try done; cbn [execute];
    apply (BaseStep_execute_spec _ _ _ subjects force dry_run w Hwb).
Qed.

(** X24.  The [mni] stage has an [execute] of its own, which runs every subject
    whether [force] is set or not. *)
Lemma mni_execute_runs_all subjects (force dry_run : bool) (w : World FS) :
  well_behaved MNIRegistrationStep_process_subject →
  ∃ ok w', step_execute mni subjects force dry_run w = (Some ok, w')
    ∧ processed_subjects mni (trace w') = processed_subjects mni (trace w) ++ subjects.
Proof.
  intros Hwb. cbn [execute _process_subject]. unfold MNIRegistrationStep_execute. run_step.
  destruct (process_all_trace mni _ dry_run Hwb subjects 0%nat w) as (n & w' & -> & Htr).
  by eexists _, w'.
Qed.

(** C10.  In a run that reaches the join (the annotation file and the
    summary are there, some coordinate was extracted): if reading the two
    files back or joining them raises, and the copy is made, then
    [_create_processed_file] returns normally having put the content of
    the coordinate file at the path of the processed file, and the step
    reports the subject as succeeded. *)
Theorem C10_join_failure_fallback subject_id (w : World FS) (s3 : FS) :
  let s1 := mkdir (output_dir output_base subject_id) (fs w) in
  let s2 := written_inputs output_base get_input_annotation_path subject_id (fs w) in
  path_exists (get_input_annotation_path subject_id) s1 = true →
  path_exists summary_csv_file s1 = true →
  xml_coordinates (get_input_annotation_path subject_id) s1 ≠ [] →
  read_and_join (coord_output_file output_base subject_id)
    (at8_output_file output_base subject_id) s2 = None →
  copy2 (coord_output_file output_base subject_id)
    (proc_output_file output_base subject_id) s2 = Some s3 →
  _create_processed_file (coord_output_file output_base subject_id)
    (at8_output_file output_base subject_id) (proc_output_file output_base subject_id)
    {| fs := s2; trace := trace w |}
  = (Some (), {| fs := s3; trace := trace w |})
  ∧ CoordinateExtractionStep_process_subject output_base get_input_annotation_path
      subject_id false w
    = (Some true, {| fs := s3; trace := trace w |}).
Proof.
  intros s1 s2 Ha Hs Hc Hjoin Hcopy.
  assert (Hrun : _create_processed_file (coord_output_file output_base subject_id)
            (at8_output_file output_base subject_id) (proc_output_file output_base subject_id)
            {| fs := s2; trace := trace w |} = (Some (), {| fs := s3; trace := trace w |})).
  { rewrite create_processed_file_run. cbn [fs trace]. by rewrite Hjoin, Hcopy. }
  split; [exact Hrun|].
  rewrite (extract_reaches_join subject_id w Ha Hs Hc). fold s2. by rewrite Hrun.
Qed.

(** The fallback for no measurement, in the step.  In a run that reaches
    the join, when the measurement file reads back without a row: the
    processed table is the coordinate table with one more column, [AT8],
    that holds 0, so one row per coordinate and each coordinate as it was
    read (no sampling, no division, the headers of the coordinate file);
    nothing raises, the table is written to the processed file and the
    step reports the subject as succeeded. *)
Lemma empty_measurement_fallback_run subject_id (w : World FS) df_tiles df_at8 :
  let s1 := mkdir (output_dir output_base subject_id) (fs w) in
  let s2 := written_inputs output_base get_input_annotation_path subject_id (fs w) in
  let out := {| columns := ["Name"; "X"; "Y"; "AT8"];
                rows := (λ row, row ++ [CInt 0]) <$> rows df_tiles |} in
  path_exists (get_input_annotation_path subject_id) s1 = true →
  path_exists summary_csv_file s1 = true →
  xml_coordinates (get_input_annotation_path subject_id) s1 ≠ [] →
  read_csv (coord_output_file output_base subject_id) s2 = Some df_tiles →
  read_csv (at8_output_file output_base subject_id) s2 = Some df_at8 →
  columns df_tiles = ["Name"; "X"; "Y"] →
  rows df_at8 = [] →
  processed_frame df_tiles df_at8 = Some out
  ∧ length (rows out) = length (rows df_tiles)
  ∧ CoordinateExtractionStep_process_subject output_base get_input_annotation_path
      subject_id false w
    = (Some true,
       {| fs := write_csv (proc_output_file output_base subject_id) out s2;
          trace := trace w |}).
Proof.
  intros s1 s2 out Ha Hs Hc Htiles Hat8 Hcols Hrows.
  assert (Hout : processed_frame df_tiles df_at8 = Some out).
  { unfold processed_frame. rewrite Hrows. cbn [length]. rewrite bool_decide_eq_true_2 by done.
    unfold set_column. by rewrite Hcols. }
  split; [exact Hout|]. split; [subst out; cbn [rows]; by rewrite length_fmap|].
  rewrite (extract_reaches_join subject_id w Ha Hs Hc). fold s2.
  rewrite create_processed_file_run. unfold read_and_join. cbn [fs trace].
  rewrite Htiles, Hat8. cbn [mbind option_bind]. by rewrite Hout.
Qed.

End StepFacts.

(** *** The steps on a filesystem in memory *)

Lemma C8_resume_pruning_witness :
  let tools := mem_tools None [] in
  let subjects := [StrId "6966"; StrId "7038"] in
  let w := start_world kernel_done_6966 in
  kernel ≠ mni ∧
  well_behaved (_process_subject (Tools0 := tools) "output" annotation_path
                  no_step no_step no_step no_step kernel) ∧
  ∃ ok w', execute (Tools0 := tools) "output" "logs" annotation_path
             no_step no_step no_step no_step kernel subjects false false w = (Some ok, w')
    ∧ processed_subjects kernel (trace w')
      = processed_subjects kernel (trace w) ++ pending "output" kernel subjects false (fs w)
    ∧ (pending "output" kernel subjects false (fs w) = [] → ok = true ∧ w' = w).
Proof.
  intros tools subjects w.
  assert (Hwb : well_behaved (_process_subject (Tools0 := tools) "output" annotation_path
                                no_step no_step no_step no_step kernel))
    by apply kernel_well_behaved.
  split; [done|]. split; [exact Hwb|].
  exact (C8_resume_pruning (Tools0 := tools) "output" "logs" annotation_path
           no_step no_step no_step no_step kernel subjects false false w
           ltac:(done) Hwb).
Defined.

Example kernel_stage_prunes_done_subject :
  pending "output" kernel [StrId "6966"; StrId "7038"] false kernel_done_6966
  = [StrId "7038"].
Proof. vm_compute. reflexivity. Qed.

(** C8 as stated fails for the stage [mni]: subject 6966 has output in its
    [mni] directory and [force] is off, so the claim prunes it, and
    [MNIRegistrationStep.execute] processes it all the same. *)
Lemma C8_resume_pruning_counterexample :
  has_output "output" (get_step_suffix mni) mni_done_6966 (StrId "6966") = true ∧
  pending "output" mni [StrId "6966"] false mni_done_6966 = [] ∧
  processed_subjects mni
    (trace (execute (Tools0 := mem_tools None []) "output" "logs" annotation_path
              no_step no_step no_step no_step mni [StrId "6966"] false false
              (start_world mni_done_6966)).2)
  = [StrId "6966"].
Proof. split; [|split]; vm_compute; reflexivity. Qed.

(** C9 at an integer identifier, the kind [--subjects] produces.  The
    kernel output of subject 6966 exists and [force] is on: the step does
    not report the subject as succeeded, because [Path / subject_id] raises
    before the output is looked at; nothing is recomputed either. *)
Theorem C9_kernel_skip_integer_subject :
  path_exists kernel_output_6966 kernel_done_6966 = true ∧
  let run := execute (Tools0 := mem_tools None []) "output" "logs" annotation_path
               no_step no_step no_step no_step kernel [IntId 6966] true false
               (start_world kernel_done_6966) in
  run.1 = Some false ∧ trace run.2 = [Processed kernel (IntId 6966)].
Proof. split; [|split]; vm_compute; reflexivity. Qed.

(** The same run for the identifier as a string, the kind a
    comma-separated [subject_list] produces: the subject is reported as
    succeeded and [_apply_kernel] is not entered, [force] notwithstanding. *)
Example kernel_skip_string_subject :
  let run := execute (Tools0 := mem_tools None []) "output" "logs" annotation_path
               no_step no_step no_step no_step kernel [StrId "6966"] true false
               (start_world kernel_done_6966) in
  run.1 = Some true ∧ trace run.2 = [Processed kernel (StrId "6966")].
Proof. split; vm_compute; reflexivity. Qed.

Lemma C10_join_failure_fallback_witness :
  let tools := mem_tools (one_tile None) [[CStr "Tile 1"; CFloat (1 # 2)]] in
  let subject_id := StrId "6966" in
  let w := start_world inputs_6966 in
  let s1 := mkdir (output_dir "output" subject_id) (fs w) in
  let s2 := written_inputs (Tools0 := tools) "output" annotation_path subject_id (fs w) in
  let s3 := <[proc_output_file "output" subject_id :=
                {| columns := ["Name"; "X"; "Y"];
                   rows := [[CStr "Tile 1"; CNone; CStr "7000"]] |}]> s2 in
  path_exists (annotation_path subject_id) s1 = true ∧
  path_exists summary_csv_file s1 = true ∧
  xml_coordinates (Tools0 := tools) (annotation_path subject_id) s1 ≠ [] ∧
  read_and_join (coord_output_file "output" subject_id)
    (at8_output_file "output" subject_id) s2 = None ∧
  copy2 (coord_output_file "output" subject_id)
    (proc_output_file "output" subject_id) s2 = Some s3 ∧
  _create_processed_file (coord_output_file "output" subject_id)
    (at8_output_file "output" subject_id) (proc_output_file "output" subject_id)
    {| fs := s2; trace := trace w |}
  = (Some (), {| fs := s3; trace := trace w |})
  ∧ CoordinateExtractionStep_process_subject (Tools0 := tools) "output" annotation_path
      subject_id false w
    = (Some true, {| fs := s3; trace := trace w |}).
Proof.
  intros tools subject_id w s1 s2 s3.
  assert (H1 : path_exists (annotation_path subject_id) s1 = true) by (vm_compute; reflexivity).
  assert (H2 : path_exists summary_csv_file s1 = true) by (vm_compute; reflexivity).
  assert (H3 : xml_coordinates (Tools0 := tools) (annotation_path subject_id) s1 ≠ [])
    by (vm_compute; discriminate).
  assert (H4 : read_and_join (coord_output_file "output" subject_id)
                 (at8_output_file "output" subject_id) s2 = None) by (vm_compute; reflexivity).
  assert (H5 : copy2 (coord_output_file "output" subject_id)
                 (proc_output_file "output" subject_id) s2 = Some s3)
    by (vm_compute; reflexivity).
  do 5 (split; [assumption|]).
  exact (C10_join_failure_fallback (Tools0 := tools) "output" annotation_path subject_id w s3
           H1 H2 H3 H4 H5).
Defined.

(** A coordinate without its [X] makes [int] raise in the join. *)
Example join_raises_on_missing_x :
  processed_frame {| columns := ["Name"; "X"; "Y"];
                     rows := [[CStr "Tile 1"; CNone; CStr "7000"]] |}
                  (at8_frame [(CStr "Tile 1", CFloat (1 # 2))]) = None.
Proof. reflexivity. Qed.

(** ** ConfigStore: lookups *)

Lemma split_absent c s : contains c s = false → split c s = [s].
Proof.
  induction s as [|d s IH]; [done|]. cbn.
  destruct (Ascii.eqb c d); [done|]. intros H. by rewrite (IH H).
Qed.

Lemma split_present c s : contains c s = true → ∃ p q ps, split c s = p :: q :: ps.
Proof.
  induction s as [|d s IH]; [done|]. cbn.
  destruct (Ascii.eqb c d) eqn:E.
  - intros _. destruct (split c s) as [|q ps] eqn:Hs.
    + by destruct s; cbn in Hs; repeat case_match.
    + by eexists _, _, _.
  - intros H. destruct (IH H) as (p & q & ps & ->). by eexists _, _, _.
Qed.

Lemma get_flat config key_path default :
  get config key_path default
  = if contains "." key_path then default
    else match config !! key_path with Some value => Some value | None => default end.
Proof.
  unfold get. destruct (contains "." key_path) eqn:Hp.
  - destruct (split_present _ _ Hp) as (p & q & ps & ->). by destruct (config !! p).
  - by rewrite (split_absent _ _ Hp).
Qed.

Lemma load_line_binding line config :
  load_line line config
  = match binding line with
    | Some (key, token) => v ← convert_value token; Some (<[key := v]> config)
    | None => Some config
    end.
Proof.
  unfold load_line, binding.
  destruct (bool_decide (strip line = "") || startswith "#" (strip line)); [done|].
  by destruct (split_once "=" (strip line)) as [[key value]|].
Qed.

Lemma load_lines_app lines1 lines2 config :
  load_lines (lines1 ++ lines2) config = load_lines lines1 config ≫= load_lines lines2.
Proof.
  revert config. induction lines1 as [|line lines1 IH]; intros config; [done|].
  cbn. destruct (load_line line config) as [config'|]; cbn; [apply IH|done].
Qed.

Lemma load_lines_lookup lines config0 config key :
  load_lines lines config0 = Some config →
  config !! key
  = match last_token lines key with
    | Some token => convert_value token
    | None => config0 !! key
    end.
Proof.
  revert config. induction lines as [|line lines IH] using rev_ind; intros config.
  - cbn. by intros [= ->].
  - rewrite load_lines_app. destruct (load_lines lines config0) as [config1|] eqn:H1; [|done].
    cbn. unfold last_token. rewrite foldl_app. cbn [foldl]. fold (last_token lines key).
    rewrite load_line_binding. specialize (IH config1 eq_refl).
    destruct (binding line) as [[k token]|]; [|by intros [= <-]].
    destruct (convert_value token) as [v|] eqn:Hv; [|done]. cbn. intros [= <-].
    case_bool_decide as Hk.
    + subst k. by rewrite lookup_insert_eq.
    + by rewrite lookup_insert_ne.
Qed.

Lemma load_lines_converted lines config0 config key token :
  load_lines lines config0 = Some config →
  last_token lines key = Some token →
  is_Some (convert_value token).
Proof.
  revert config. unfold last_token.
  induction lines as [|line lines IH] using rev_ind; intros config Hload; [done|].
  rewrite load_lines_app in Hload.
  destruct (load_lines lines config0) as [config1|] eqn:H1; [|done]. cbn in Hload.
  rewrite load_line_binding in Hload. rewrite foldl_app. cbn [foldl].
  destruct (binding line) as [[k tok]|]; [|by apply (IH config1)].
  case_bool_decide; [|by apply (IH config1)].
  intros [= <-]. by destruct (convert_value tok).
Qed.

Lemma get_after_load_lines lines config0 config key default :
  load_lines lines config0 = Some config →
  contains "." key = false →
  get config key default
  = match last_token lines key with
    | Some token => convert_value token
    | None => match config0 !! key with Some value => Some value | None => default end
    end.
Proof.
  intros Hload Hkey. rewrite get_flat, Hkey.
  rewrite (load_lines_lookup lines config0 config key Hload).
  destruct (last_token lines key) as [token|] eqn:Hlast; [|done].
  by destruct (load_lines_converted lines config0 config key token Hload Hlast) as [v ->].
Qed.

(** X1.  Load, then look up.  After a load that succeeded, [get] on a key
    without a point gives the converted value token of the last line that
    binds the key, and the default when no line binds it: a later line
    overrides an earlier one, comments and blank lines count for nothing. *)
Theorem load_then_get lines config key default :
  _load_config lines = Some config →
  contains "." key = false →
  get config key default
  = match last_token lines key with
    | Some token => convert_value token
    | None => default
    end.
Proof.
  intros Hload Hkey.
  rewrite (get_after_load_lines lines ∅ config key default Hload Hkey).
  by rewrite lookup_empty.
Qed.

(** X2.  The point notation of [get] never reaches a value.  The store is flat,
    so a key path with a point gives the default, whatever the
    configuration holds, also when a line of the file binds that very
    key. *)
Theorem get_dotted_key_default config key_path default :
  contains "." key_path = true →
  get config key_path default = default.
Proof.
  intros Hp. unfold get.
  destruct (split_present _ _ Hp) as (p & q & ps & ->). by destruct (config !! p).
Qed.

(** ** Decimal numbers, written and read back *)

Lemma pretty_N_char_digit x :
  (x < 10)%N →
  is_digit (pretty_N_char x) = true ∧ digit_value (pretty_N_char x) = Z.of_N x.
Proof.
  intros H.
  assert (x = 0 ∨ x = 1 ∨ x = 2 ∨ x = 3 ∨ x = 4 ∨ x = 5 ∨ x = 6 ∨ x = 7 ∨ x = 8 ∨ x = 9)%N
    as Hx by lia.
  repeat (destruct Hx as [->|Hx]; [by vm_compute|]). by subst.
Qed.

Lemma pretty_N_go_digits x s :
  all_digits s = true → all_digits (pretty_N_go x s) = true.
Proof.
  revert s. induction (N.lt_wf_0 x) as [x _ IH]; intros s Hs.
  destruct (decide (x = 0)%N) as [->|Hx]; [done|].
  rewrite pretty_N_go_step by lia. apply IH; [apply N.div_lt; lia|].
  cbn. rewrite Hs, andb_true_r. apply pretty_N_char_digit, N.mod_lt. lia.
Qed.

Lemma pretty_N_go_nonempty x s : (0 < x)%N → pretty_N_go x s ≠ "".
Proof.
  revert s. induction (N.lt_wf_0 x) as [x _ IH]; intros s Hx.
  rewrite pretty_N_go_step by done.
  destruct (decide (x `div` 10 = 0)%N) as [->|Hd]; [done|].
  apply IH; [apply N.div_lt; lia|]. by apply N.neq_0_lt_0.
Qed.

Lemma int_digits_pretty_N_go x s :
  (0 < x)%N →
  int_digits AtStart 0 (pretty_N_go x s) = int_digits AfterDigit (Z.of_N x) s.
Proof.
  revert s. induction (N.lt_wf_0 x) as [x _ IH]; intros s Hx.
  rewrite pretty_N_go_step by done.
  destruct (pretty_N_char_digit (x `mod` 10)) as [Hd Hv]; [apply N.mod_lt; lia|].
  pose proof (N.div_mod x 10 ltac:(lia)) as Hdm.
  destruct (decide (x `div` 10 = 0)%N) as [H0|H0].
  - rewrite H0, pretty_N_go_0. cbn [int_digits]. rewrite Hd, Hv. f_equal. lia.
  - rewrite IH; [|apply N.div_lt; lia|by apply N.neq_0_lt_0].
    cbn [int_digits]. rewrite Hd, Hv. f_equal. lia.
Qed.

Lemma pretty_N_digits (n : N) :
  isdigit (pretty n) = true ∧ int_digits AtStart 0 (pretty n) = Some (Z.of_N n).
Proof.
  unfold pretty, pretty_N. destruct (decide (n = 0)%N) as [->|Hn]; [done|].
  split.
  - pose proof (pretty_N_go_nonempty n "" ltac:(lia)) as Hne.
    pose proof (pretty_N_go_digits n "" eq_refl) as Hd.
    unfold isdigit. by destruct (pretty_N_go n "").
  - by rewrite int_digits_pretty_N_go by lia.
Qed.

(** X3.  A natural number written in decimal loads as that integer; a negative
    number is read as a string, because its sign is not a digit. *)
Theorem convert_value_decimal :
  (∀ n : N, convert_value (pretty n) = Some (VInt (Z.of_N n)))
  ∧ (∀ p : positive, convert_value (pretty (Z.neg p)) = Some (VStr (pretty (Z.neg p)))).
Proof.
  split.
  - intros n. destruct (pretty_N_digits n) as [Hd Hv].
    assert (Hall : all_digits (pretty n) = true) by (by destruct (pretty n)).
    assert (Hdp : digits_and_points (pretty n) = true).
    { clear -Hall. induction (pretty n) as [|c s IH]; [done|]. cbn in *.
      apply andb_true_iff in Hall as [-> Hs]. by rewrite IH. }
    assert (Hnp : contains "." (pretty n) = false).
    { clear -Hall. induction (pretty n) as [|c s IH]; [done|].
      cbn [contains all_digits] in *.
      apply andb_true_iff in Hall as [Hc Hs]. by rewrite (digit_not_point c Hc), IH. }
    unfold convert_value. rewrite (digits_not_caseless_bool _ Hdp).
    rewrite (remove_char_absent _ _ Hnp), Hd, Hnp, (int_of_str_digits _ Hd), Hv. done.
  - intros p. change (pretty (Z.neg p)) with (String "-" (pretty (N.pos p))).
    destruct (pretty_N_digits (N.pos p)) as [Hd _].
    generalize dependent (pretty (N.pos p)). intros ds Hd.
    assert (Hall : all_digits ds = true) by (by destruct ds).
    assert (Hnc : contains "," ds = false).
    { clear -Hall. induction ds as [|c s IH]; [done|].
      cbn [contains all_digits] in *. apply andb_true_iff in Hall as [Hc Hs].
      rewrite (IH Hs). by destruct c as [[] [] [] [] [] [] [] []]. }
    unfold convert_value. cbn [lower].
    rewrite !bool_decide_eq_false_2 by (by intros [=]). cbn. by rewrite Hnc.
Qed.

Lemma rstrip_cons c s : rstrip s = s → s ≠ "" → rstrip (String c s) = String c s.
Proof.
  intros Hs Hne. cbn [rstrip]. destruct s as [|d s]; [done|]. by rewrite Hs.
Qed.

Lemma rstrip_append a b : rstrip b = b → b ≠ "" → rstrip (a +:+ b) = a +:+ b.
Proof.
  intros Hb Hne. induction a as [|c a IH]; [done|]. cbn [String.append].
  apply rstrip_cons; [done|]. by destruct a.
Qed.

Lemma contains_append c a b : contains c (a +:+ b) = contains c a || contains c b.
Proof.
  induction a as [|d a IH]; [done|]. simpl. rewrite IH.
  by destruct (Ascii.eqb c d).
Qed.

Lemma split_once_append c a b :
  contains c a = false → split_once c (a +:+ String c b) = Some (a, b).
Proof.
  induction a as [|d a IH]; simpl.
  - by rewrite Ascii.eqb_refl.
  - destruct (Ascii.eqb c d); [done|]. intros H. by rewrite (IH H).
Qed.

Lemma split_append c a b :
  contains c a = false → split c (a +:+ String c b) = a :: split c b.
Proof.
  induction a as [|d a IH]; simpl.
  - by rewrite Ascii.eqb_refl.
  - destruct (Ascii.eqb c d); [done|]. intros H. by rewrite (IH H).
Qed.

Lemma contains_digits c s :
  is_digit c = false → all_digits s = true → contains c s = false.
Proof.
  intros Hc. induction s as [|d s IH]; [done|]. cbn.
  intros [Hd Hs]%andb_true_iff. destruct (Ascii.eqb_spec c d) as [->|_]; [congruence|auto].
Qed.

(** The decimal text of an integer: a digit or a minus sign first, digits
    after it, nothing to strip, and [int] reads the integer back. *)
Lemma pretty_Z_text (z : Z) :
  ∃ c ds, pretty z = String c ds ∧ (is_digit c = true ∨ c = "-"%char)
          ∧ all_digits ds = true ∧ rstrip (pretty z) = pretty z.
Proof.
  destruct z as [|p|p].
  - exists "0"%char, "". split; [done|]. split; [by left|]. done.
  - change (pretty (Z.pos p)) with (pretty (N.pos p)).
    destruct (pretty_N_digits (N.pos p)) as [Hd _].
    destruct (pretty (N.pos p)) as [|c ds] eqn:E; [done|].
    cbn in Hd. apply andb_true_iff in Hd as [Hc Hds].
    exists c, ds. split; [done|]. split; [by left|]. split; [done|].
    apply rstrip_digits. cbn. by rewrite Hc, Hds.
  - change (pretty (Z.neg p)) with (String "-" (pretty (N.pos p))).
    destruct (pretty_N_digits (N.pos p)) as [Hd _].
    assert (Hall : all_digits (pretty (N.pos p)) = true) by (by destruct (pretty (N.pos p))).
    exists "-"%char, (pretty (N.pos p)). split; [done|]. split; [by right|]. split; [done|].
    apply rstrip_cons; [by apply rstrip_digits|by destruct (pretty (N.pos p))].
Qed.

Lemma contains_pretty c (z : Z) :
  is_digit c = false → c ≠ "-"%char → contains c (pretty z) = false.
Proof.
  intros Hc Hm. destruct (pretty_Z_text z) as (d & ds & -> & Hd & Hds & _). cbn.
  rewrite (contains_digits c ds Hc Hds).
  destruct (Ascii.eqb_spec c d) as [->|_]; [|done]. destruct Hd; congruence.
Qed.

Lemma lstrip_pretty (z : Z) s : lstrip (pretty z +:+ s) = pretty z +:+ s.
Proof.
  destruct (pretty_Z_text z) as (d & ds & -> & Hd & _).
  change (String d ds +:+ s) with (String d (ds +:+ s)). cbn [lstrip].
  destruct Hd as [Hd| ->]; [by rewrite (digit_not_space d Hd)|done].
Qed.

Lemma strip_pretty (z : Z) : strip (pretty z) = pretty z.
Proof.
  unfold strip. pose proof (lstrip_pretty z "") as H.
  assert (Hnil : ∀ s : string, s +:+ "" = s).
  { induction s as [|c s IH]; [done|]. change (String c (s +:+ "") = String c s).
    by rewrite IH. }
  rewrite Hnil in H. rewrite H. by destruct (pretty_Z_text z) as (? & ? & _ & _ & _ & ?).
Qed.

Lemma int_of_str_pretty (z : Z) : int_of_str (pretty z) = Some z.
Proof.
  destruct z as [|p|p]; [done| |].
  - change (pretty (Z.pos p)) with (pretty (N.pos p)).
    destruct (pretty_N_digits (N.pos p)) as [Hd Hv]. by rewrite (int_of_str_digits _ Hd), Hv.
  - unfold int_of_str. rewrite strip_pretty.
    change (pretty (Z.neg p)) with (String "-" (pretty (N.pos p))).
    destruct (pretty_N_digits (N.pos p)) as [_ ->]. done.
Qed.

Lemma unpack_coords_pretty (x y z : Z) :
  unpack_coords (pretty x +:+ "," +:+ pretty y +:+ "," +:+ pretty z) = Some (x, y, z).
Proof.
  unfold unpack_coords.
  assert (Hstrip : strip (pretty x +:+ "," +:+ pretty y +:+ "," +:+ pretty z)
                   = pretty x +:+ "," +:+ pretty y +:+ "," +:+ pretty z).
  { unfold strip. rewrite lstrip_pretty.
    destruct (pretty_Z_text z) as (c & ds & Hz & _ & _ & Hr).
    apply rstrip_append; [|done]. apply rstrip_cons; [|by destruct (pretty y)].
    apply rstrip_append; [|done]. apply rstrip_cons; [done|by rewrite Hz]. }
  rewrite Hstrip. change ("," +:+ ?s) with (String "," s).
  rewrite split_append by (by apply contains_pretty).
  change ("," +:+ ?s) with (String "," s).
  rewrite split_append by (by apply contains_pretty).
  rewrite split_absent by (by apply contains_pretty).
  cbn. by rewrite !int_of_str_pretty.
Qed.

(** Lines before the one of the subject that are not for the subject are
    passed over. *)
Lemma load_manual_coordinates_skip before rest subject_id :
  spec_resolve before subject_id = AnchorNotFound →
  _load_manual_coordinates (before ++ rest) subject_id
  = _load_manual_coordinates rest subject_id.
Proof.
  unfold spec_resolve. induction before as [|line before IH]; [done|].
  cbn [app _load_manual_coordinates fmap list_fmap List.filter]. unfold anchor_line at 1.
  destruct (startswith "#" (strip line)) eqn:Hc.
  { rewrite andb_false_r. cbn [orb]. exact IH. }
  destruct (bool_decide (strip line = "")) eqn:He.
  { cbn [orb negb andb]. exact IH. }
  cbn [orb negb andb List.find]. unfold matches_subject at 1.
  destruct (split_once "=" (strip line)) as [[subj coords]|] eqn:Hs; [|exact IH].
  destruct (bool_decide (strip subj = str subject_id)); [|exact IH].
  rewrite Hs. cbn. by destruct (unpack_coords coords) as [[[x y] z]|].
Qed.

(** X9.  Write, then resolve.  The line the step asks for,
    [<subject>=X,Y,Z] in decimal, is resolved to [(X, Y, Z)] for an
    integer subject, wherever it stands in the file, as long as no line
    before it is for the same subject. *)
Theorem anchor_format_resolved before after (n x y z : Z) :
  spec_resolve before (IntId n) = AnchorNotFound →
  _load_manual_coordinates (before ++ anchor_format (IntId n) x y z :: after) (IntId n)
  = Some (x, y, z).
Proof.
  intros Hbefore. rewrite (load_manual_coordinates_skip _ _ _ Hbefore).
  unfold anchor_format. cbn [str _load_manual_coordinates].
  set (coords := pretty x +:+ "," +:+ pretty y +:+ "," +:+ pretty z).
  assert (Hcoords : rstrip coords = coords ∧ coords ≠ "").
  { destruct (pretty_Z_text z) as (c & ds & Hz & _ & _ & Hr). unfold coords. split.
    - apply rstrip_append; [|done]. apply rstrip_cons; [|by destruct (pretty y)].
      apply rstrip_append; [|done]. apply rstrip_cons; [done|by rewrite Hz].
    - by destruct (pretty_Z_text x) as (? & ? & -> & _). }
  assert (Hstrip : strip (pretty n +:+ "=" +:+ coords) = pretty n +:+ "=" +:+ coords).
  { unfold strip. rewrite lstrip_pretty. apply rstrip_append; [|done].
    apply rstrip_cons; apply Hcoords. }
  rewrite Hstrip.
  assert (Hfirst : startswith "#" (pretty n +:+ "=" +:+ coords)
                   || bool_decide (pretty n +:+ "=" +:+ coords = "") = false).
  { destruct (pretty_Z_text n) as (c & ds & -> & Hc & _). cbn.
    rewrite bool_decide_eq_false_2 by done.
    destruct Hc as [Hc| ->]; [|done].
    by destruct c as [[] [] [] [] [] [] [] []]. }
  rewrite Hfirst. change ("=" +:+ coords) with (String "=" coords).
  rewrite split_once_append by (by apply contains_pretty).
  rewrite strip_pretty, bool_decide_eq_true_2 by done.
  apply unpack_coords_pretty.
Qed.

(** ** Subjects from the configuration *)

Lemma comma_lower c : Ascii.eqb "," (lower_char c) = Ascii.eqb "," c.
Proof. by destruct c as [[] [] [] [] [] [] [] []]. Qed.

Lemma contains_comma_lower s : contains "," (lower s) = contains "," s.
Proof.
  induction s as [|c s IH]; [done|]. cbn [lower contains]. by rewrite comma_lower, IH.
Qed.

Lemma digits_and_points_no_comma s :
  digits_and_points s = true → contains "," s = false.
Proof.
  induction s as [|c s IH]; [done|]. cbn [digits_and_points contains].
  intros [Hc Hs]%andb_true_iff. rewrite (IH Hs).
  by destruct c as [[] [] [] [] [] [] [] []].
Qed.

(** A token with a comma is always a list: neither of the first two rules
    can take it. *)
Lemma convert_value_comma token :
  contains "," token = true →
  convert_value token = Some (VList (strip <$> split "," token)).
Proof.
  intros Hc. unfold convert_value.
  rewrite !bool_decide_eq_false_2.
  - cbn [orb]. rewrite isdigit_remove_points.
    destruct (digits_and_points token) eqn:Hd.
    + by rewrite (digits_and_points_no_comma _ Hd) in Hc.
    + cbn [andb]. by rewrite Hc.
  - intros H. rewrite <- contains_comma_lower, H in Hc. done.
  - intros H. rewrite <- contains_comma_lower, H in Hc. done.
Qed.

(** X5.  Subjects listed in the configuration file are strings.  When the last
    [subject_list] line of a loaded file holds a comma, [get_subjects]
    without an argument gives one identifier per piece, trimmed, in order,
    each of them a string and none an integer. *)
Theorem get_subjects_of_list lines config token :
  _load_config lines = Some config →
  last_token lines "subject_list" = Some token →
  contains "," token = true →
  get_subjects config None = Some (SubjectList (StrId <$> (strip <$> split "," token))).
Proof.
  intros Hload Hlast Hc. unfold get_subjects.
  rewrite (get_after_load_lines lines ∅ config "subject_list" _ Hload eq_refl), Hlast.
  by rewrite (convert_value_comma _ Hc).
Qed.

(** X6.  A single subject in the configuration file does not give a list.  When
    the last [subject_list] line holds digits only, [get_subjects] without
    an argument hands back the integer itself, which the callers cannot
    iterate over. *)
Theorem get_subjects_of_single_id lines config token :
  _load_config lines = Some config →
  last_token lines "subject_list" = Some token →
  isdigit token = true →
  ∃ n, int_digits AtStart 0 token = Some n
       ∧ get_subjects config None = Some (NotAList (VInt n)).
Proof.
  intros Hload Hlast Hd. unfold get_subjects.
  rewrite (get_after_load_lines lines ∅ config "subject_list" _ Hload eq_refl), Hlast.
  assert (Hall : all_digits token = true) by (by destruct token).
  assert (Hdp : digits_and_points token = true).
  { clear -Hall. induction token as [|c s IH]; [done|]. cbn in *.
    apply andb_true_iff in Hall as [-> Hs]. by rewrite IH. }
  assert (Hnp : contains "." token = false).
  { apply contains_digits; [done|exact Hall]. }
  destruct (int_digits_all_digits token AtStart 0 Hall) as [n Hn]; [by destruct token|].
  exists n. split; [done|].
  unfold convert_value. rewrite (digits_not_caseless_bool _ Hdp).
  rewrite (remove_char_absent _ _ Hnp), Hd, Hnp, (int_of_str_digits _ Hd), Hn. done.
Qed.

(** ** Directories *)

Lemma append_assoc (a b c : string) : (a +:+ b) +:+ c = a +:+ (b +:+ c).
Proof.
  induction a as [|d a IH]; [done|].
  change (String d ((a +:+ b) +:+ c) = String d (a +:+ (b +:+ c))). by rewrite IH.
Qed.

Lemma append_cancel_l (a x y : string) : a +:+ x = a +:+ y → x = y.
Proof.
  induction a as [|d a IH]; [done|].
  change (String d (a +:+ x) = String d (a +:+ y) → x = y). intros [= H]. auto.
Qed.

Lemma append_length (a b : string) :
  String.length (a +:+ b) = (String.length a + String.length b)%nat.
Proof.
  induction a as [|d a IH]; [done|].
  change (S (String.length (a +:+ b)) = S (String.length a + String.length b)).
  by rewrite IH.
Qed.

Lemma append_same_length (a1 a2 r1 r2 : string) :
  String.length a1 = String.length a2 → a1 +:+ r1 = a2 +:+ r2 → a1 = a2.
Proof.
  revert a2. induction a1 as [|d a1 IH]; intros [|e a2] Hlen; try done.
  change (String d (a1 +:+ r1) = String e (a2 +:+ r2) → String d a1 = String e a2).
  intros [= -> H]. f_equal. apply IH; [by injection Hlen|done].
Qed.

Lemma append_split_at c (a b r r' : string) :
  contains c a = false → contains c b = false →
  a +:+ String c r = b +:+ String c r' → a = b ∧ r = r'.
Proof.
  revert b. induction a as [|d a IH]; intros [|e b]; cbn [contains].
  - intros _ _ [= ->]. done.
  - intros _ Hb. change (String c r = String e (b +:+ String c r') → "" = String e b ∧ r = r').
    intros [= <- _]. by rewrite Ascii.eqb_refl in Hb.
  - intros Ha _. change (String d (a +:+ String c r) = String c r' → String d a = "" ∧ r = r').
    intros [= -> _]. by rewrite Ascii.eqb_refl in Ha.
  - intros Ha Hb.
    change (String d (a +:+ String c r) = String e (b +:+ String c r')
            → String d a = String e b ∧ r = r').
    intros [= -> H].
    destruct (Ascii.eqb c e); [done|].
    destruct (IH b Ha Hb H) as [-> ->]. done.
Qed.

(** X7.  The directories of the stages are kept apart.  For subjects given as
    integers, two stage directories are the same path only when both the
    subject and the suffix of the stage are the same: no stage reads or
    prunes on the output of another subject or of another stage. *)
Theorem step_dir_per_subject output_base (n1 n2 : Z) step_suffix1 step_suffix2 :
  get_subject_step_dir output_base (IntId n1) step_suffix1
  = get_subject_step_dir output_base (IntId n2) step_suffix2 →
  n1 = n2 ∧ step_suffix1 = step_suffix2.
Proof.
  unfold get_subject_step_dir, get_subject_output_dir, joinpath. cbn [str].
  rewrite !append_assoc. intros H%append_cancel_l.
  change ("/" +:+ ?s) with (String "/" s) in H. injection H as H.
  rewrite ?append_assoc in H.
  change ("/" +:+ ?s) with (String "/" s) in H.
  apply append_split_at in H as [Hn H]; [|by apply contains_pretty..].
  apply (inj pretty) in Hn as ->. split; [done|]. by apply append_cancel_l in H.
Qed.

(** ** The join, and the table it hands to the next stage *)

Lemma for_each_ext {S A} (body body' : S → A → option S) s l :
  (∀ s a, a ∈ l → body s a = body' s a) → for_each body s l = for_each body' s l.
Proof.
  revert s. induction l as [|x l IH]; intros s Hb; [done|]. cbn.
  rewrite (Hb s x) by left. destruct (body' s x) as [s'|]; [|done]. cbn.
  apply IH. intros s0 a Ha. apply Hb. by right.
Qed.

Lemma for_each_raises {S A} (body : S → A → option S) s l a :
  a ∈ l → (∀ s, body s a = None) → for_each body s l = None.
Proof.
  intros Ha Hb. revert s. induction l as [|x l IH]; intros s; [by apply elem_of_nil in Ha|].
  cbn. apply elem_of_cons in Ha as [<-|Ha]; [by rewrite Hb|].
  destruct (body s x) as [s'|]; [|done]. cbn. by apply IH.
Qed.

(** X10.  Only every fifth coordinate counts.  With at least one measurement,
    two coordinate tables that agree on the rows 0, 5, 10, ... give the same
    result, whatever their other rows hold and however many there are. *)
Theorem join_reads_every_fifth_row df_tiles df_tiles' df_at8 :
  rows df_at8 ≠ [] →
  (∀ i, rows df_tiles !! (5 * i)%nat = rows df_tiles' !! (5 * i)%nat) →
  processed_frame df_tiles df_at8 = processed_frame df_tiles' df_at8.
Proof.
  intros Hne Hrows. unfold processed_frame.
  rewrite bool_decide_eq_false_2 by (by destruct (rows df_at8)).
  erewrite for_each_ext; [done|]. intros tile_coords i _.
  unfold join_row, iloc. rewrite <- !Hrows.
  assert (Hlen : (5 * i < length (rows df_tiles))%nat ↔ (5 * i < length (rows df_tiles'))%nat).
  { rewrite <- !lookup_lt_is_Some. by rewrite Hrows. }
  case_bool_decide as H1; case_bool_decide as H2; tauto.
Qed.

(** X11.  A sampled coordinate that does not read as an integer makes the join
    raise: nothing of the table is produced, for the handler to take over. *)
Theorem join_raises_on_unreadable_coordinate df_tiles df_at8 i :
  (i < length (rows df_at8))%nat →
  (5 * i < length (rows df_tiles))%nat →
  iloc df_tiles (5 * i) 1 ≫= py_int = None ∨ iloc df_tiles (5 * i) 2 ≫= py_int = None →
  processed_frame df_tiles df_at8 = None.
Proof.
  intros Hi Hy Hbad. unfold processed_frame.
  rewrite bool_decide_eq_false_2 by (destruct (rows df_at8); cbn in *; [lia|done]).
  rewrite (for_each_raises _ _ _ i); [done| |].
  - apply elem_of_seq. lia.
  - intros tile_coords. unfold join_row. rewrite bool_decide_eq_true_2 by done.
    destruct (iloc df_tiles (5 * i) 0) as [name|]; [|done]. cbn [mbind option_bind].
    destruct (iloc df_tiles (5 * i) 1 ≫= py_int) as [x|]; [|done]. cbn [mbind option_bind].
    destruct Hbad as [?|Hz]; [done|]. by rewrite Hz.
Qed.

Lemma index_of_absent name l : name ∉ l → index_of name l = None.
Proof.
  induction l as [|x l IH]; [done|]. intros [Hx Hl]%not_elem_of_cons. cbn.
  rewrite bool_decide_eq_false_2 by done. by rewrite IH.
Qed.

Lemma read_tile_rows_no_column df name :
  name ∈ ["Tile"; "X"; "Z"; "AT8"] → name ∉ columns df → rows df ≠ [] →
  read_tile_rows df = None.
Proof.
  intros Hname Habs Hne. unfold read_tile_rows.
  destruct (rows df) as [|row rest]; [done|]. cbn.
  assert (Hrow : read_tile_row df row = None).
  { pose proof (index_of_absent name (columns df) Habs) as Hn.
    unfold read_tile_row, row_get.
    destruct (index_of "Tile" (columns df) ≫= λ k, row !! k) eqn:E1; [|done].
    destruct (index_of "X" (columns df) ≫= λ k, row !! k) eqn:E2; [|done].
    destruct (index_of "Z" (columns df) ≫= λ k, row !! k) eqn:E3; [|done].
    destruct (index_of "AT8" (columns df) ≫= λ k, row !! k) eqn:E4; [|done].
    exfalso.
    repeat (apply elem_of_cons in Hname as [->|Hname];
            [rewrite Hn in E1 || rewrite Hn in E2 || rewrite Hn in E3 || rewrite Hn in E4;
             done|]).
    by apply elem_of_nil in Hname. }
  by rewrite Hrow.
Qed.

Lemma set_column_keeps_absent name name' v df :
  name ≠ name' → name ∉ columns df → name ∉ columns (set_column name' v df).
Proof.
  intros Hne Habs. unfold set_column. destruct (index_of name' (columns df)); [done|].
  cbn. rewrite elem_of_app. intros [?|Hin]; [done|]. apply elem_of_cons in Hin as [?|Hin]; [done|]. by apply elem_of_nil in Hin.
Qed.

(** X13.  The fallbacks of the join write a table the next stage cannot read.
    When there is no measurement the processed table is the coordinate
    table with a column [AT8]; when the join raises it is the coordinate
    table itself.  Either way a coordinate table without a column [Tile],
    as [_save_coordinates_to_csv] writes it, gives a processed table on
    which the loop of [_create_3d_blocks] raises at its first row. *)
Theorem fallback_table_stops_transform df_tiles df_at8 :
  "Tile" ∉ columns df_tiles →
  rows df_tiles ≠ [] →
  rows df_at8 = [] →
  read_tile_rows df_tiles = None
  ∧ ∃ out, processed_frame df_tiles df_at8 = Some out ∧ read_tile_rows out = None.
Proof.
  intros Hcol Hrows Hat8. split.
  - apply (read_tile_rows_no_column _ "Tile"); [set_solver|done|done].
  - unfold processed_frame. rewrite Hat8. cbn [length].
    rewrite bool_decide_eq_true_2 by done. eexists. split; [done|].
    apply (read_tile_rows_no_column _ "Tile"); [set_solver| |].
    + by apply set_column_keeps_absent.
    + unfold set_column. destruct (index_of "AT8" (columns df_tiles)); cbn;
        by destruct (rows df_tiles).
Qed.

Lemma mapM_raises {A B} (f : A → option B) l a :
  a ∈ l → f a = None → mapM f l = None.
Proof.
  intros Ha Hf. induction l as [|x l IH]; [by apply elem_of_nil in Ha|].
  cbn. apply elem_of_cons in Ha as [<-|Ha]; [by rewrite Hf|].
  rewrite (IH Ha). by destruct (f x).
Qed.

(** X14.  More measurements than sampled coordinates stop the next stage.  A
    measurement without its coordinate leaves a blank row in the processed
    table, and on that table the loop of [_create_3d_blocks] raises, since
    [int] of a missing value does. *)
Theorem blank_row_stops_transform coords measurements i :
  (i < length measurements)%nat →
  (length coords ≤ 5 * i)%nat →
  ∃ out, processed_frame (coord_frame coords) (at8_frame measurements) = Some out
         ∧ rows out !! i = Some blank_row
         ∧ read_tile_rows out = None.
Proof.
  intros Hi Hc. unfold processed_frame.
  assert (Hlen : length (rows (at8_frame measurements)) = length measurements)
    by (cbn; by rewrite length_fmap).
  rewrite Hlen. rewrite bool_decide_eq_false_2 by lia.
  rewrite join_rows_spec by done. rewrite Nat.sub_diag. cbn [replicate]. rewrite app_nil_r.
  eexists. split; [done|]. cbn [rows].
  assert (Hrow : (joined_row coords measurements <$> seq 0 (length measurements)) !! i
                 = Some blank_row).
  { rewrite list_lookup_fmap, lookup_seq_lt by done. cbn. f_equal.
    by apply joined_row_blank. }
  split; [done|]. unfold read_tile_rows. cbn [rows].
  apply (mapM_raises _ _ blank_row); [by eapply list_elem_of_lookup_2|done].
Qed.

Lemma read_joined_row df coords measurements i c m :
  columns df = ["Tile"; "X"; "Z"; "AT8"] →
  coords !! (5 * i)%nat = Some c → measurements !! i = Some m →
  read_tile_row df (joined_row coords measurements i)
  = Some (c.1.1, c.1.2 / 1000, c.2 / 1000, m.2).
Proof.
  intros Hcol Hc Hm. unfold joined_row, read_tile_row, row_get. by rewrite Hcol, Hc, Hm.
Qed.

(** X15.  The join and the next stage fit when every measurement has its
    coordinate.  The loop of [_create_3d_blocks] then reads the processed
    table without an error, one record per measurement: the name of
    coordinate 5*i, its [X] and [Y] floor-divided by 1000 as [X] and [Z],
    and the value of measurement i. *)
Theorem joined_table_read_back coords measurements :
  measurements ≠ [] →
  (5 * (length measurements - 1) < length coords)%nat →
  ∃ out records,
    processed_frame (coord_frame coords) (at8_frame measurements) = Some out
    ∧ read_tile_rows out = Some records
    ∧ length records = length measurements
    ∧ ∀ i c m, coords !! (5 * i)%nat = Some c → measurements !! i = Some m →
               records !! i = Some (c.1.1, c.1.2 / 1000, c.2 / 1000, m.2).
Proof.
  intros Hne Hc. unfold processed_frame.
  assert (Hlen : length (rows (at8_frame measurements)) = length measurements)
    by (cbn; by rewrite length_fmap).
  rewrite Hlen. rewrite bool_decide_eq_false_2 by (by destruct measurements).
  rewrite join_rows_spec by done. rewrite Nat.sub_diag. cbn [replicate]. rewrite app_nil_r.
  set (out := {| columns := ["Tile"; "X"; "Z"; "AT8"];
                 rows := joined_row coords measurements <$> seq 0 (length measurements) |}).
  assert (Hsome : is_Some (read_tile_rows out)).
  { unfold read_tile_rows. apply mapM_is_Some. cbn [rows out].
    apply Forall_fmap, Forall_seq. intros i [_ Hi]. unfold compose.
    destruct (joined_row_filled coords measurements i) as (c & m & Hci & Hmi & _); [lia..|].
    erewrite read_joined_row; [by eexists|done..]. }
  destruct Hsome as [records Hrec]. exists out, records.
  split; [done|]. split; [done|].
  unfold read_tile_rows in Hrec. apply mapM_Some in Hrec. cbn [rows out] in Hrec. split.
  - apply Forall2_length in Hrec. by rewrite length_fmap, length_seq in Hrec.
  - intros i c m Hci Hmi.
    assert (Hi : (i < length measurements)%nat) by (by eapply lookup_lt_Some).
    destruct (Forall2_lookup_l _ _ _ i (joined_row coords measurements i) Hrec)
      as (r & Hr & Hread).
    { by rewrite list_lookup_fmap, lookup_seq_lt. }
    erewrite read_joined_row in Hread; [|done..]. congruence.
Qed.

(** ** ConfigStore: when a load fails *)

Lemma load_line_raises line config :
  load_line line config = None
  ↔ ∃ token, value_token line = Some token ∧ multi_point_number token = true.
Proof.
  unfold load_line, value_token.
  destruct (bool_decide (strip line = "") || startswith "#" (strip line)).
  { split; [done|]. by intros (token & [=] & _). }
  destruct (split_once "=" (strip line)) as [[key value]|]; cbn -[strip].
  - destruct (convert_value (strip value)) as [v|] eqn:Hv; cbn -[strip].
    + split; [done|]. intros (token & [= <-] & Hm).
      by rewrite (convert_value_multi_point _ Hm) in Hv.
    + split; [|done]. intros _. exists (strip value). split; [done|].
      by apply convert_value_raises.
  - split; [done|]. by intros (token & [=] & _).
Qed.

(** X4.  A load fails exactly when some line of the file binds a key to a
    number written with two or more points.  No other content makes
    [_load_config] raise: not a line without [=], not an empty value, not
    a key bound twice. *)
Theorem load_config_raises_iff lines :
  _load_config lines = None
  ↔ Exists (λ line, ∃ token, value_token line = Some token
                             ∧ multi_point_number token = true) lines.
Proof.
  unfold _load_config. generalize (∅ : gmap string config_value).
  induction lines as [|line lines IH]; intros config.
  - split; [done|]. by intros ?%Exists_nil.
  - cbn [load_lines]. rewrite Exists_cons, <- (load_line_raises line config).
    destruct (load_line line config) as [config'|]; cbn.
    + rewrite IH. split; [by right|]. by intros [?|?].
    + split; [by left|done].
Qed.

(** ** VolumeBlockBuilder: the order of the rows *)

Lemma last_cover_elem_of {V} sh manual_coords block_size (df : list (TileRecord V)) p row :
  last_cover sh manual_coords block_size df p = Some row → row ∈ df.
Proof.
  induction df as [|r df IH]; [done|]. cbn.
  destruct (last_cover sh manual_coords block_size df p).
  - intros [= ->]. right. by apply IH.
  - destruct (covers sh manual_coords block_size r p); [|done]. intros [= <-]. by left.
Qed.

Lemma last_cover_is_None {V} sh manual_coords block_size (df : list (TileRecord V)) p :
  last_cover sh manual_coords block_size df p = None
  ↔ Forall (λ row, covers sh manual_coords block_size row p = false) df.
Proof.
  split; [|apply last_cover_none].
  induction df as [|r df IH]; [done|]. cbn.
  destruct (last_cover sh manual_coords block_size df p); [done|].
  destruct (covers sh manual_coords block_size r p) eqn:E; [done|].
  intros _. constructor; [done|]. by apply IH.
Qed.

(** X17.  The order of the rows matters only where cubes with different values
    meet.  When any two rows that reach the same voxel carry the same
    value, every reordering of the table gives the same mask. *)
Theorem mask_order_independent {V} img_shape (df df' : list (TileRecord V))
    manual_coords block_size :
  df ≡ₚ df' →
  (∀ row1 row2 p, row1 ∈ df → row2 ∈ df →
     covers img_shape manual_coords block_size row1 p = true →
     covers img_shape manual_coords block_size row2 p = true →
     AT8 row1 = AT8 row2) →
  fst <$> _create_3d_blocks img_shape df manual_coords block_size
  = fst <$> _create_3d_blocks img_shape df' manual_coords block_size.
Proof.
  intros Hperm Hagree.
  destruct (create_3d_blocks_lookup img_shape df manual_coords block_size)
    as (m1 & -> & Hs1 & H1).
  destruct (create_3d_blocks_lookup img_shape df' manual_coords block_size)
    as (m2 & -> & Hs2 & H2).
  cbn. f_equal. destruct m1 as [sh1 d1], m2 as [sh2 d2]. cbn in *. subst sh1 sh2.
  f_equal. apply map_eq. intros p. rewrite H1, H2.
  destruct (last_cover img_shape manual_coords block_size df p) as [r|] eqn:E;
    destruct (last_cover img_shape manual_coords block_size df' p) as [r'|] eqn:E'; cbn.
  - f_equal. apply (Hagree r r' p).
    + by eapply last_cover_elem_of.
    + rewrite Hperm. by eapply last_cover_elem_of.
    + by eapply last_cover_covers.
    + by eapply last_cover_covers.
  - apply last_cover_is_None in E'. rewrite <- Hperm in E'.
    apply last_cover_is_None in E'. congruence.
  - apply last_cover_is_None in E. rewrite Hperm in E.
    apply last_cover_is_None in E. congruence.
  - done.
Qed.

(** ** The stages and the pipeline *)

Lemma filter_length_all {A} (P : A → Prop) `{∀ x, Decision (P x)} (l : list A) :
  length (filter P l) = length l ↔ Forall P l.
Proof.
  induction l as [|x l IH]; [by split|]. rewrite filter_cons, Forall_cons.
  pose proof (length_filter P l) as Hle.
  destruct (decide (P x)); cbn [length].
  - rewrite <- IH. split; [intros ?; split; [done|lia]|intros [_ ?]; lia].
  - split; [lia|tauto].
Qed.

Section PipelineFacts.
Context {FS : Type} `{!Filesystem FS, !Tools FS}.
Variable config : gmap string config_value.
Variable output_base : string.
Variable logs_dir : string.
Variable get_input_annotation_path : subject → string.

Lemma create_output_directories_run subjects (w : World FS) :
  ∃ s, create_output_directories output_base logs_dir subjects w
       = (Some (), {| fs := s; trace := trace w |}).
Proof. unfold create_output_directories. run_step. by eexists. Qed.

Lemma BaseStep_execute_run st step_suffix (process : subject → bool → M FS bool)
    subjects (force dry_run : bool) (w : World FS) :
  let todo := if force then subjects
              else filter (λ s, has_output output_base step_suffix (fs w) s = false) subjects in
  BaseStep_execute output_base logs_dir st step_suffix process subjects force dry_run w
  = if bool_decide (todo = []) then (Some true, w)
    else match process_all st process todo dry_run 0
                 (create_output_directories output_base logs_dir todo w).2 with
         | (Some n, w') => (Some (bool_decide (n = length todo)), w')
         | (None, w') => (None, w')
         end.
Proof.
  intros todo. unfold BaseStep_execute, check_existing_outputs.
  assert (Hkept : ∀ k : list subject → M FS bool,
            ((if negb force
              then existing ← ask (λ s, filter (λ subject_id,
                                has_output output_base step_suffix s subject_id = true) subjects);
                   mret (if bool_decide (existing ≠ [])
                         then filter (λ s, s ∉ existing) subjects else subjects)
              else mret subjects) ≫= k) w = k todo w).
  { intros k. unfold todo. destruct force; [done|]. run_step.
    by rewrite (prune_existing str (has_output output_base step_suffix (fs w))). }
  rewrite Hkept. case_bool_decide as Hnil; [done|].
  destruct (create_output_directories_run todo w) as [s Hs].
  unfold mbind at 1, M_bind at 1. rewrite Hs. cbn [snd].
  unfold mbind, M_bind. by destruct (process_all _ _ _ _ _ _) as [[n|] w'].
Qed.

Lemma MNIRegistrationStep_execute_run (process : subject → bool → M FS bool)
    subjects (force dry_run : bool) (w : World FS) :
  MNIRegistrationStep_execute process subjects force dry_run w
  = match process_all mni process subjects dry_run 0 w with
    | (Some n, w') => (Some (bool_decide (n = length subjects)), w')
    | (None, w') => (None, w')
    end.
Proof.
  unfold MNIRegistrationStep_execute, mbind, M_bind.
  by destruct (process_all _ _ _ _ _ _) as [[n|] w'].
Qed.

Lemma process_all_cons st (process : subject → bool → M FS bool) subject_id rest
    dry_run k (w : World FS) :
  process_all st process (subject_id :: rest) dry_run k w
  = match process subject_id dry_run
            {| fs := fs w; trace := trace w ++ [Processed st subject_id] |} with
    | (Some ok, w') => process_all st process rest dry_run (if ok then S k else k) w'
    | (None, w') => (None, w')
    end.
Proof. cbn [process_all]. run_step. by destruct (process _ _ _) as [[[]|] w']. Qed.

Lemma process_all_count st (process : subject → bool → M FS bool) dry_run subjects :
  ∀ k (w : World FS) n w',
    process_all st process subjects dry_run k w = (Some n, w') →
    (n ≤ k + length subjects)%nat
    ∧ ((∃ s, s ∈ subjects ∧ ∀ w0, (process s dry_run w0).1 = Some false) →
       (n < k + length subjects)%nat)
    ∧ ((∀ s, s ∈ subjects → ∀ w0, (process s dry_run w0).1 = Some true) →
       n = (k + length subjects)%nat).
Proof.
  induction subjects as [|subject_id rest IH]; intros k w n w'.
  - cbn. intros [= <- <-]. split; [lia|]. split; [|lia].
    intros (s & Hs & _). by apply elem_of_nil in Hs.
  - rewrite process_all_cons.
    destruct (process subject_id dry_run _) as [[ok|] w1] eqn:Hp; [|done].
    intros Hrest. destruct (IH _ _ _ _ Hrest) as (Hle & Hlt & Heq). cbn [length].
    split; [destruct ok; lia|]. split.
    + intros (s & Hs & Hfalse). apply elem_of_cons in Hs as [->|Hs].
      * specialize (Hfalse {| fs := fs w; trace := trace w ++ [Processed st subject_id] |}).
        rewrite Hp in Hfalse. injection Hfalse as ->. lia.
      * assert ((n < (if ok then S k else k) + length rest)%nat) by (apply Hlt; eauto).
        destruct ok; lia.
    + intros Htrue.
      pose proof (Htrue subject_id ltac:(left)
                    {| fs := fs w; trace := trace w ++ [Processed st subject_id] |}) as H1.
      rewrite Hp in H1. injection H1 as ->.
      rewrite Heq; [lia|]. intros s Hs. apply Htrue. by right.
Qed.

Lemma process_all_quiet_other st st' (process : subject → bool → M FS bool) dry_run subjects :
  st' ≠ st → (∀ s, quiet (process s dry_run)) →
  ∀ k (w : World FS),
    processed_subjects st' (trace (process_all st process subjects dry_run k w).2)
    = processed_subjects st' (trace w).
Proof.
  intros Hst Hq. induction subjects as [|subject_id rest IH]; intros k w; [done|].
  rewrite process_all_cons.
  pose proof (Hq subject_id st'
                {| fs := fs w; trace := trace w ++ [Processed st subject_id] |}) as H1.
  cbn [trace] in H1. rewrite processed_subjects_app in H1. cbn in H1.
  rewrite bool_decide_eq_false_2, app_nil_r in H1 by done.
  destruct (process subject_id dry_run _) as [[ok|] w1]; cbn [snd] in *; [|done].
  by rewrite IH.
Qed.

Variable UpsamplingStep_process_subject : subject → bool → M FS bool.
Variable SlicingStep_process_subject : subject → bool → M FS bool.
Variable CoordinateTransformationStep_process_subject : subject → bool → M FS bool.
Variable MNIRegistrationStep_process_subject : subject → bool → M FS bool.

Local Abbreviation step_process := (_process_subject output_base get_input_annotation_path
  UpsamplingStep_process_subject SlicingStep_process_subject
  CoordinateTransformationStep_process_subject MNIRegistrationStep_process_subject).
Local Abbreviation step_execute := (execute output_base logs_dir get_input_annotation_path
  UpsamplingStep_process_subject SlicingStep_process_subject
  CoordinateTransformationStep_process_subject MNIRegistrationStep_process_subject).
Local Abbreviation steps_run := (run_steps output_base logs_dir get_input_annotation_path
  UpsamplingStep_process_subject SlicingStep_process_subject
  CoordinateTransformationStep_process_subject MNIRegistrationStep_process_subject).
Local Abbreviation pipeline_run := (run_pipeline config output_base logs_dir
  get_input_annotation_path
  UpsamplingStep_process_subject SlicingStep_process_subject
  CoordinateTransformationStep_process_subject MNIRegistrationStep_process_subject).

Lemma execute_run st subjects (force dry_run : bool) (w : World FS) :
  let todo := if bool_decide (st = mni) then subjects
              else pending output_base st subjects force (fs w) in
  ∃ w0, trace w0 = trace w ∧
  step_execute st subjects force dry_run w
  = if bool_decide (todo = []) then (Some true, w)
    else match process_all st (step_process st) todo dry_run 0 w0 with
         | (Some n, w') => (Some (bool_decide (n = length todo)), w')
         | (None, w') => (None, w')
         end.
Proof.
  intros todo. destruct (decide (st = mni)) as [->|Hst].
  - exists w. split; [done|]. cbn [execute]. rewrite MNIRegistrationStep_execute_run.
    subst todo. rewrite (bool_decide_eq_true_2 (mni = mni)) by done.
    case_bool_decide as Hnil; [rewrite Hnil|]; reflexivity.
  - subst todo. rewrite (bool_decide_eq_false_2 (st = mni)) by done. unfold pending.
    destruct (create_output_directories_run
                (if force then subjects
                 else filter (λ s, has_output output_base (get_step_suffix st) (fs w) s = false)
                        subjects) w) as [s Hs].
    eexists {| fs := s; trace := trace w |}. split; [done|].
    destruct st; try done; cbn [execute]; rewrite BaseStep_execute_run, Hs; done.
Qed.

(** X25.  The verdict of a stage.  A stage whose [_process_subject] catches its
    exceptions always returns; it reports failure as soon as one of the
    subjects it has to run is one its [_process_subject] answers [False]
    for, and success when it answers [True] for all of them. *)
Theorem stage_verdict st subjects (force dry_run : bool) (w : World FS) :
  well_behaved (step_process st) →
  let todo := if bool_decide (st = mni) then subjects
              else pending output_base st subjects force (fs w) in
  ∃ ok w', step_execute st subjects force dry_run w = (Some ok, w')
    ∧ ((∃ s, s ∈ todo ∧ ∀ w0, (step_process st s dry_run w0).1 = Some false) → ok = false)
    ∧ ((∀ s, s ∈ todo → ∀ w0, (step_process st s dry_run w0).1 = Some true) → ok = true).
Proof.
  intros Hwb todo. destruct (execute_run st subjects force dry_run w) as (w0 & _ & ->).
  fold todo. case_bool_decide as Hnil.
  - exists true, w. split; [done|]. split; [|done].
    intros (s & Hs & _). rewrite Hnil in Hs. by apply elem_of_nil in Hs.
  - destruct (process_all_trace st _ dry_run Hwb todo 0%nat w0) as (n & w' & Hall & _).
    rewrite Hall. eexists _, w'. split; [done|].
    destruct (process_all_count _ _ _ _ _ _ _ _ Hall) as (_ & Hlt & Heq). split.
    + intros Hbad. apply bool_decide_eq_false. specialize (Hlt Hbad). lia.
    + intros Hgood. apply bool_decide_eq_true. by rewrite (Heq Hgood).
Qed.

Lemma execute_quiet_other st st' subjects (force dry_run : bool) (w : World FS) :
  st' ≠ st → (∀ s, quiet (step_process st s dry_run)) →
  processed_subjects st' (trace (step_execute st subjects force dry_run w).2)
  = processed_subjects st' (trace w).
Proof.
  intros Hst Hq. destruct (execute_run st subjects force dry_run w) as (w0 & Htr & ->).
  case_bool_decide; [done|].
  pose proof (process_all_quiet_other st st' _ dry_run
                (if bool_decide (st = mni) then subjects
                 else pending output_base st subjects force (fs w)) Hst Hq 0%nat w0) as H1.
  destruct (process_all _ _ _ _ _ _) as [[n|] w']; cbn [snd] in *; by rewrite H1, Htr.
Qed.

Lemma run_steps_cons step rest subjects (force dry_run : bool) (w : World FS) :
  steps_run (step :: rest) subjects force dry_run w
  = match step_functions step with
    | None => (Some false, w)
    | Some st =>
        match step_execute st subjects force dry_run w with
        | (Some true, w') => steps_run rest subjects force dry_run w'
        | (_, w') => (Some false, w')
        end
    end.
Proof.
  cbn [run_steps]. destruct (step_functions step) as [st|]; [|done].
  unfold mbind, M_bind, try_except.
  by destruct (step_execute st subjects force dry_run w) as [[[]|] w'].
Qed.

(** X26.  The pipeline stops at the first stage that fails.  Running a list of
    steps is running its first part and, only when that reports success,
    the rest in the world it left; otherwise the rest is not run at all and
    the answer is [False].  No exception of a stage leaves the loop. *)
Theorem run_steps_app steps1 steps2 subjects (force dry_run : bool) (w : World FS) :
  steps_run (steps1 ++ steps2) subjects force dry_run w
  = match steps_run steps1 subjects force dry_run w with
    | (Some true, w') => steps_run steps2 subjects force dry_run w'
    | (_, w') => (Some false, w')
    end.
Proof.
  revert w. induction steps1 as [|step steps1 IH]; intros w; [done|].
  change ((step :: steps1) ++ steps2) with (step :: (steps1 ++ steps2)).
  rewrite !run_steps_cons. destruct (step_functions step) as [st|]; [|done].
  destruct (step_execute st subjects force dry_run w) as [[[]|] w']; [apply IH|done..].
Qed.

Lemma step_functions_mni step : step_functions step = Some mni → step = "mni".
Proof. unfold step_functions. by repeat case_bool_decide. Qed.

Lemma run_steps_quiet_other st' steps subjects (force dry_run : bool) :
  (∀ step, step ∈ steps → step_functions step ≠ Some st') →
  (∀ st s, quiet (step_process st s dry_run)) →
  ∀ w : World FS,
    processed_subjects st' (trace (steps_run steps subjects force dry_run w).2)
    = processed_subjects st' (trace w).
Proof.
  intros Hsteps Hq. induction steps as [|step steps IH]; intros w; [done|].
  rewrite run_steps_cons. destruct (step_functions step) as [st|] eqn:Hstep; [|done].
  assert (Hst : st' ≠ st).
  { intros <-. by apply (Hsteps step ltac:(left)). }
  pose proof (execute_quiet_other st st' subjects force dry_run w Hst (Hq st)) as H1.
  destruct (step_execute st subjects force dry_run w) as [[[]|] w']; cbn [snd] in *;
    [|done..].
  rewrite IH; [done|]. intros step' Hin. apply Hsteps. by right.
Qed.

Lemma run_pipeline_run subjects steps (force dry_run : bool) (w : World FS) :
  pipeline_run subjects steps force dry_run w
  = match (if bool_decide (subjects = [])
           then match get_subjects config None with
                | Some (SubjectList subjects) => Some subjects
                | _ => None
                end
           else Some subjects) with
    | Some subjects =>
        steps_run (if bool_decide (steps = [])
                   then ["upsample"; "slice"; "extract"; "transform"; "kernel"]
                   else steps) subjects force dry_run
          (create_output_directories output_base logs_dir subjects w).2
    | None => (None, w)
    end.
Proof.
  unfold run_pipeline.
  assert (Hrun : ∀ l, (create_output_directories output_base logs_dir l ≫= λ _ : (),
                         steps_run (if bool_decide (steps = [])
                                    then ["upsample"; "slice"; "extract"; "transform"; "kernel"]
                                    else steps) l force dry_run) w
                      = steps_run (if bool_decide (steps = [])
                                   then ["upsample"; "slice"; "extract"; "transform"; "kernel"]
                                   else steps) l force dry_run
                          (create_output_directories output_base logs_dir l w).2).
  { intros l. destruct (create_output_directories_run l w) as [s Hs].
    unfold mbind, M_bind. by rewrite Hs. }
  destruct (bool_decide (subjects = [])); [|exact (Hrun subjects)].
  destruct (get_subjects config None) as [[l|v]|]; [exact (Hrun l)|done..].
Qed.

(** X28.  Registration to MNI space is never started unless it is asked for.
    When the list of steps does not name [mni] (the default list does
    not), a run of the pipeline enters [_process_subject] of the
    registration stage for no subject. *)
Theorem pipeline_without_mni subjects steps (force dry_run : bool) (w : World FS) :
  "mni" ∉ steps →
  (∀ st s, quiet (step_process st s dry_run)) →
  processed_subjects mni (trace (pipeline_run subjects steps force dry_run w).2)
  = processed_subjects mni (trace w).
Proof.
  intros Hmni Hq. rewrite run_pipeline_run.
  set (steps' := if bool_decide (steps = []) then _ else steps).
  assert (Hsteps : ∀ step, step ∈ steps' → step_functions step ≠ Some mni).
  { intros step Hin Hstep. apply step_functions_mni in Hstep as ->.
    unfold steps' in Hin. case_bool_decide; [|done].
    repeat (apply elem_of_cons in Hin as [Hin|Hin]; [done|]). by apply elem_of_nil in Hin. }
  destruct (if bool_decide (subjects = []) then _ else Some subjects) as [subjects'|]; [|done].
  rewrite (run_steps_quiet_other mni steps' subjects' force dry_run Hsteps Hq).
  by destruct (create_output_directories_run subjects' w) as [s ->].
Qed.

(** X19.  An annotation document without tiles fails the extraction and leaves
    no file.  When the document does not parse, or every annotation in it
    is named "Layer 1" or has no vertex, the step answers [False] having
    made its output directory and nothing else. *)
Theorem extract_fails_without_tiles subject_id (w : World FS) :
  let s1 := mkdir (output_dir output_base subject_id) (fs w) in
  path_exists (get_input_annotation_path subject_id) s1 = true →
  path_exists summary_csv_file s1 = true →
  match parse_annotations (get_input_annotation_path subject_id) s1 with
  | Some annotations =>
      Forall (λ a, Name a = Some "Layer 1" ∨ vertices a = []) annotations
  | None => True
  end →
  CoordinateExtractionStep_process_subject output_base get_input_annotation_path
    subject_id false w
  = (Some false, {| fs := s1; trace := trace w |}).
Proof.
  intros s1 Ha Hs Hdoc. subst s1.
  assert (Hxml : xml_coordinates (get_input_annotation_path subject_id)
                   (mkdir (output_dir output_base subject_id) (fs w)) = []).
  { unfold xml_coordinates. destruct (parse_annotations _ _) as [annotations|]; [|done].
    induction Hdoc as [|a l Ha' _ IH]; [done|]. cbn [mbind list_bind]. rewrite IH.
    rewrite app_nil_r. case_bool_decide; [done|]. destruct Ha' as [? | ->]; done. }
  unfold CoordinateExtractionStep_process_subject, _extract_coordinates_from_xml.
  run_step. rewrite Ha. step_cbn. rewrite Hs. step_cbn. by rewrite Hxml.
Qed.

End PipelineFacts.

(** ** The first stage: a check and nothing more *)

Section UpsampleFacts.
Context {FS : Type} `{!Filesystem FS, !Tools FS}.
Variable output_base : string.
Variable logs_dir : string.
Variable get_input_annotation_path : subject → string.
Variable SlicingStep_process_subject : subject → bool → M FS bool.
Variable CoordinateTransformationStep_process_subject : subject → bool → M FS bool.
Variable MNIRegistrationStep_process_subject : subject → bool → M FS bool.

Lemma upsample_process subject_id (w : World FS) :
  UpsamplingStep._process_subject output_base subject_id false w
  = (Some (path_exists (UpsamplingStep.expected_file output_base subject_id) (fs w)), w).
Proof.
  unfold UpsamplingStep._process_subject. run_step.
  by destruct (path_exists _ (fs w)).
Qed.

Lemma upsample_process_all subjects k (w : World FS) :
  process_all upsample (UpsamplingStep._process_subject output_base) subjects false k w
  = (Some (k + length (filter (λ s, path_exists
                                      (UpsamplingStep.expected_file output_base s) (fs w) = true)
                         subjects))%nat,
     {| fs := fs w; trace := trace w ++ (Processed upsample <$> subjects) |}).
Proof.
  revert k w. induction subjects as [|subject_id rest IH]; intros k [s tr].
  - cbn. by rewrite Nat.add_0_r, app_nil_r.
  - rewrite process_all_cons, upsample_process, filter_cons. cbn [fs trace].
    destruct (path_exists (UpsamplingStep.expected_file output_base subject_id) s) eqn:E;
      rewrite IH; cbn [fs trace fmap list_fmap]; rewrite <- app_assoc; cbn [app].
    + rewrite decide_True by done. cbn [length]. do 2 f_equal. lia.
    + rewrite decide_False by done. done.
Qed.

(** X27.  The upsampling stage only looks.  Run for real on the first place of
    a list of steps, it makes the directories of the subjects it has to
    run and enters each of them once, in order; it succeeds exactly when
    every one of them has its upsampled file, and only then is the rest of
    the list run.  When a file is missing the pipeline ends there with
    [False], no later stage entered. *)
Theorem pipeline_stops_at_upsample rest subjects (force : bool) (w : World FS) :
  let todo := pending output_base upsample subjects force (fs w) in
  let w0 := if bool_decide (todo = []) then w
            else (create_output_directories output_base logs_dir todo w).2 in
  let w1 := {| fs := fs w0; trace := trace w ++ (Processed upsample <$> todo) |} in
  run_steps output_base logs_dir get_input_annotation_path
    (UpsamplingStep._process_subject output_base) SlicingStep_process_subject
    CoordinateTransformationStep_process_subject MNIRegistrationStep_process_subject
    ("upsample" :: rest) subjects force false w
  = if forallb (λ s, path_exists (UpsamplingStep.expected_file output_base s) (fs w0)) todo
    then run_steps output_base logs_dir get_input_annotation_path
           (UpsamplingStep._process_subject output_base) SlicingStep_process_subject
           CoordinateTransformationStep_process_subject MNIRegistrationStep_process_subject
           rest subjects force false w1
    else (Some false, w1).
Proof.
  intros todo w0 w1. rewrite run_steps_cons.
  change (step_functions "upsample") with (Some upsample). cbn [execute].
  rewrite BaseStep_execute_run. fold (pending output_base upsample subjects force (fs w)).
  fold todo. subst w1 w0. case_bool_decide as Hnil.
  - rewrite Hnil. destruct w as [s tr]. cbn. by rewrite app_nil_r.
  - destruct (create_output_directories_run output_base logs_dir todo w) as [s Hs].
    rewrite Hs. cbn [snd fs trace _process_subject]. rewrite upsample_process_all.
    cbn [fs trace Nat.add].
    set (P := λ s0, path_exists (UpsamplingStep.expected_file output_base s0) s = true).
    assert (Hok : bool_decide (length (filter P todo) = length todo)
                  = forallb (λ s0, path_exists
                               (UpsamplingStep.expected_file output_base s0) s) todo).
    { destruct (forallb _ todo) eqn:Hf.
      - apply bool_decide_eq_true, filter_length_all, Forall_forall. intros x Hx.
        rewrite forallb_forall in Hf. apply Hf. by apply list_elem_of_In.
      - apply bool_decide_eq_false. intros Hlen. apply filter_length_all in Hlen.
        rewrite Forall_forall in Hlen.
        enough (forallb (λ s0, path_exists (UpsamplingStep.expected_file output_base s0) s)
                  todo = true) by congruence.
        apply forallb_forall. intros x Hx. apply Hlen. by apply list_elem_of_In. }
    rewrite Hok. by destruct (forallb _ todo).
Qed.

End UpsampleFacts.

(** ** From the transformation to the kernel *)

Lemma step_file_split output_base s step_suffix name :
  joinpath (joinpath (joinpath output_base s) (s +:+ step_suffix)) (s +:+ name)
  = (output_base +:+ "/" +:+ s +:+ "/" +:+ s) +:+ step_suffix +:+ "/" +:+ s +:+ name.
Proof. unfold joinpath. by rewrite !append_assoc. Qed.

Lemma step_dir_split output_base s step_suffix :
  joinpath (joinpath output_base s) (s +:+ step_suffix)
  = (output_base +:+ "/" +:+ s +:+ "/" +:+ s) +:+ step_suffix.
Proof. unfold joinpath. by rewrite !append_assoc. Qed.

(** X23.  The kernel stage does not take what the transformation stage wrote.
    In a filesystem that holds the mask of the transformation stage for a
    subject, whatever is in it, and nothing else, the kernel step finds no
    input: it makes its directory, answers [False] and never calls
    [_apply_kernel]: the file it looks for has [_aligned] in its name. *)
Theorem kernel_ignores_transform_mask (tools : Tools (gmap string frame))
    output_base s (f : frame) :
  KernelApplicationStep_process_subject output_base (StrId s) false
    (start_world {[ output_mask output_base (StrId s) := f ]})
  = (Some false,
     {| fs := <[joinpath (joinpath output_base s) (s +:+ "_kernel") := empty_file]>
                {[ output_mask output_base (StrId s) := f ]};
        trace := [] |}).
Proof.
  unfold KernelApplicationStep_process_subject, output_mask, get_subject_step_dir,
    get_subject_output_dir, start_world.
  unfold try_except, mbind, M_bind, mret, M_ret, lift, change, change_or_raise, ask.
  cbn [path_div str fs trace mkdir path_exists mem_filesystem].
  set (p := output_base +:+ "/" +:+ s +:+ "/" +:+ s).
  rewrite !step_file_split, !step_dir_split. fold p.
  assert (Hdir : ({[ p +:+ "_transformation" +:+ "/" +:+ s +:+ "_QNP_AT8_mask_block.nii.gz" := f ]}
                    : gmap string frame) !! (p +:+ "_kernel") = None).
  { apply lookup_singleton_ne. intros H%append_cancel_l. discriminate H. }
  rewrite (bool_decide_eq_false_2 (is_Some (_ !! (p +:+ "_kernel"))))
    by (rewrite Hdir; by intros [? ?]).
  cbn [fs trace].
  assert (Hne1 : p +:+ "_kernel"
                 ≠ p +:+ "_kernel" +:+ "/" +:+ s +:+ "_QNP_AT8_smoothed_sig2.nii.gz").
  { intros H%append_cancel_l. discriminate H. }
  assert (Hne2 : p +:+ "_transformation" +:+ "/" +:+ s +:+ "_QNP_AT8_mask_block.nii.gz"
                 ≠ p +:+ "_kernel" +:+ "/" +:+ s +:+ "_QNP_AT8_smoothed_sig2.nii.gz").
  { intros H%append_cancel_l. discriminate H. }
  assert (Hne3 : p +:+ "_kernel"
                 ≠ p +:+ "_transformation" +:+ "/" +:+ s
                     +:+ "_QNP_AT8_mask_block_aligned.nii.gz").
  { intros H%append_cancel_l. discriminate H. }
  assert (Hne4 : p +:+ "_transformation" +:+ "/" +:+ s +:+ "_QNP_AT8_mask_block.nii.gz"
                 ≠ p +:+ "_transformation" +:+ "/" +:+ s
                     +:+ "_QNP_AT8_mask_block_aligned.nii.gz").
  { intros H. do 4 apply append_cancel_l in H. discriminate H. }
  rewrite !lookup_insert_ne, !lookup_singleton_ne by done.
  rewrite !bool_decide_eq_false_2 by (by intros [? ?]). cbn [fs trace].
  rewrite !lookup_insert_ne, !lookup_singleton_ne by done.
  rewrite !bool_decide_eq_false_2 by (by intros [? ?]).
  done.
Qed.

(** ** The extraction and kernel stages as a whole *)

Section StageFacts.
Context {FS : Type} `{!Filesystem FS, !Tools FS}.
Variable output_base : string.
Variable logs_dir : string.
Variable get_input_annotation_path : subject → string.
Variable UpsamplingStep_process_subject : subject → bool → M FS bool.
Variable SlicingStep_process_subject : subject → bool → M FS bool.
Variable CoordinateTransformationStep_process_subject : subject → bool → M FS bool.
Variable MNIRegistrationStep_process_subject : subject → bool → M FS bool.

Local Abbreviation step_execute := (execute output_base logs_dir get_input_annotation_path
  UpsamplingStep_process_subject SlicingStep_process_subject
  CoordinateTransformationStep_process_subject MNIRegistrationStep_process_subject).

(** X18.  What the extraction step does once it has coordinates.  In a run
    that reaches the join, the step writes the joined table to the
    processed file and answers [True]; when reading or joining raises it
    copies the coordinate file there and answers [True] all the same; and
    only when the copy raises too does it answer [False], the coordinate
    and measurement files written and no processed file. *)
Theorem extract_outcome subject_id (w : World FS) :
  let s1 := mkdir (output_dir output_base subject_id) (fs w) in
  let s2 := written_inputs output_base get_input_annotation_path subject_id (fs w) in
  path_exists (get_input_annotation_path subject_id) s1 = true →
  path_exists summary_csv_file s1 = true →
  xml_coordinates (get_input_annotation_path subject_id) s1 ≠ [] →
  CoordinateExtractionStep_process_subject output_base get_input_annotation_path
    subject_id false w
  = match read_and_join (coord_output_file output_base subject_id)
            (at8_output_file output_base subject_id) s2 with
    | Some df =>
        (Some true,
         {| fs := write_csv (proc_output_file output_base subject_id) df s2;
            trace := trace w |})
    | None =>
        match copy2 (coord_output_file output_base subject_id)
                (proc_output_file output_base subject_id) s2 with
        | Some s3 => (Some true, {| fs := s3; trace := trace w |})
        | None => (Some false, {| fs := s2; trace := trace w |})
        end
    end.
Proof.
  intros s1 s2 Ha Hs Hc.
  rewrite (extract_reaches_join output_base get_input_annotation_path subject_id w Ha Hs Hc).
  fold s2. rewrite create_processed_file_run. cbn [fs trace].
  destruct (read_and_join _ _ s2) as [df|]; [done|].
  by destruct (copy2 _ _ s2) as [s3|].
Qed.

Lemma extract_dry_run subject_id (w : World FS) :
  CoordinateExtractionStep_process_subject output_base get_input_annotation_path
    subject_id true w
  = (Some true, {| fs := mkdir (output_dir output_base subject_id) (fs w); trace := trace w |}).
Proof. reflexivity. Qed.

Lemma extract_dry_run_all subjects k (w : World FS) :
  process_all extract
    (CoordinateExtractionStep_process_subject output_base get_input_annotation_path)
    subjects true k w
  = (Some (k + length subjects)%nat,
     {| fs := foldl (λ s subject_id, mkdir (output_dir output_base subject_id) s) (fs w)
                subjects;
        trace := trace w ++ (Processed extract <$> subjects) |}).
Proof.
  revert k w. induction subjects as [|subject_id rest IH]; intros k [s tr].
  - cbn. by rewrite Nat.add_0_r, app_nil_r.
  - rewrite process_all_cons, extract_dry_run, IH. cbn [fs trace foldl fmap list_fmap length].
    rewrite <- app_assoc. cbn [app]. do 2 f_equal. lia.
Qed.

(** X20.  A dry run of the extraction stage is not without effect.  It looks at
    no input and reports success for every subject it has to run, but it
    makes the directories: those of [create_output_directories] and the
    output directory of each of these subjects. *)
Theorem extract_dry_run_makes_directories subjects (force : bool) (w : World FS) :
  let todo := pending output_base extract subjects force (fs w) in
  step_execute extract subjects force true w
  = if bool_decide (todo = []) then (Some true, w)
    else (Some true,
          {| fs := foldl (λ s subject_id, mkdir (output_dir output_base subject_id) s)
                     (fs (create_output_directories output_base logs_dir todo w).2) todo;
             trace := trace w ++ (Processed extract <$> todo) |}).
Proof.
  intros todo. cbn [execute]. rewrite BaseStep_execute_run.
  fold (pending output_base extract subjects force (fs w)). fold todo.
  case_bool_decide as Hnil; [done|].
  destruct (create_output_directories_run output_base logs_dir todo w) as [s Hs].
  rewrite Hs. cbn [snd _process_subject]. rewrite extract_dry_run_all. cbn [fs trace Nat.add].
  by rewrite bool_decide_eq_true_2.
Qed.

(** X22.  The kernel stage cannot succeed on integer subjects.  Whenever the
    subjects it has to run include one given as an integer, as those of
    [--subjects] are, the stage reports failure, in a dry run too: the
    step raises on the path of such a subject before it looks at
    anything. *)
Theorem kernel_stage_fails_on_integer_subject subjects (force dry_run : bool)
    (w : World FS) n :
  IntId n ∈ pending output_base kernel subjects force (fs w) →
  ∃ w', step_execute kernel subjects force dry_run w = (Some false, w').
Proof.
  intros Hin. cbn [execute]. rewrite BaseStep_execute_run.
  fold (pending output_base kernel subjects force (fs w)).
  set (todo := pending output_base kernel subjects force (fs w)) in *.
  rewrite bool_decide_eq_false_2 by (intros Hnil; rewrite Hnil in Hin; by apply elem_of_nil in Hin).
  cbn [_process_subject get_step_suffix].
  match goal with |- context [process_all kernel ?p todo dry_run 0 ?w0] =>
    destruct (process_all_trace kernel p dry_run (kernel_well_behaved output_base) todo
                0%nat w0) as (k & w' & Hall & _) end.
  rewrite Hall. exists w'. do 2 f_equal. apply bool_decide_eq_false.
  destruct (process_all_count _ _ _ _ _ _ _ _ Hall) as (_ & Hlt & _).
  assert ((k < 0 + length todo)%nat); [|lia]. apply Hlt.
  exists (IntId n). split; [done|]. intros w0.
  by rewrite kernel_int_subject_fails.
Qed.

End StageFacts.

Lemma extract_outcome_witness :
  let tools := mem_tools (one_tile (Some "5000")) [[CStr "Tile 1"; CFloat (1 # 2)]] in
  let subject_id := StrId "6966" in
  let w := start_world inputs_6966 in
  let s1 := mkdir (output_dir "output" subject_id) (fs w) in
  let s2 := written_inputs (Tools0 := tools) "output" annotation_path subject_id (fs w) in
  path_exists (annotation_path subject_id) s1 = true ∧
  path_exists summary_csv_file s1 = true ∧
  xml_coordinates (Tools0 := tools) (annotation_path subject_id) s1 ≠ [] ∧
  CoordinateExtractionStep_process_subject (Tools0 := tools) "output" annotation_path
    subject_id false w
  = match read_and_join (coord_output_file "output" subject_id)
            (at8_output_file "output" subject_id) s2 with
    | Some df =>
        (Some true,
         {| fs := write_csv (proc_output_file "output" subject_id) df s2;
            trace := trace w |})
    | None =>
        match copy2 (coord_output_file "output" subject_id)
                (proc_output_file "output" subject_id) s2 with
        | Some s3 => (Some true, {| fs := s3; trace := trace w |})
        | None => (Some false, {| fs := s2; trace := trace w |})
        end
    end.
Proof.
  intros tools subject_id w s1 s2.
  assert (H1 : path_exists (annotation_path subject_id) s1 = true) by (vm_compute; reflexivity).
  assert (H2 : path_exists summary_csv_file s1 = true) by (vm_compute; reflexivity).
  assert (H3 : xml_coordinates (Tools0 := tools) (annotation_path subject_id) s1 ≠ [])
    by (vm_compute; discriminate).
  split; [exact H1|]. split; [exact H2|]. split; [exact H3|].
  exact (extract_outcome (Tools0 := tools) "output" annotation_path subject_id w H1 H2 H3).
Defined.

Lemma kernel_stage_fails_on_integer_subject_witness :
  let tools := mem_tools None [] in
  let subjects := [StrId "7038"; IntId 6966] in
  let w := start_world kernel_done_6966 in
  IntId 6966 ∈ pending "output" kernel subjects true (fs w) ∧
  ∃ w', execute (Tools0 := tools) "output" "logs" annotation_path
          no_step no_step no_step no_step kernel subjects true true w = (Some false, w').
Proof.
  intros tools subjects w.
  assert (H1 : IntId 6966 ∈ pending "output" kernel subjects true (fs w)).
  { cbn [pending]. right. left. }
  split; [exact H1|].
  exact (kernel_stage_fails_on_integer_subject (Tools0 := tools) "output" "logs"
           annotation_path no_step no_step no_step no_step subjects true true w 6966 H1).
Defined.

(** ** The properties above on concrete inputs *)

Lemma load_then_get_witness :
  let lines := ["# settings"; "block_size = 7"; ""; "block_size = 9"] in
  let config : gmap string config_value := {[ "block_size" := VInt 9 ]} in
  _load_config lines = Some config ∧
  contains "." "block_size" = false ∧
  get config "block_size" (Some (VInt 7))
  = match last_token lines "block_size" with
    | Some token => convert_value token
    | None => Some (VInt 7)
    end.
Proof.
  intros lines config.
  assert (H1 : _load_config lines = Some config) by (vm_compute; reflexivity).
  split; [exact H1|]. split; [reflexivity|].
  exact (load_then_get lines config "block_size" (Some (VInt 7)) H1 eq_refl).
Defined.

Lemma get_dotted_key_default_witness :
  let config : gmap string config_value := {[ "pipeline.name" := VStr "QNPtoVox" ]} in
  contains "." "pipeline.name" = true ∧
  get config "pipeline.name" None = None.
Proof.
  intros config. split; [reflexivity|].
  exact (get_dotted_key_default config "pipeline.name" None eq_refl).
Defined.

Lemma get_subjects_of_list_witness :
  let lines := ["subject_list = 6966, 7038"] in
  let config : gmap string config_value := {[ "subject_list" := VList ["6966"; "7038"] ]} in
  _load_config lines = Some config ∧
  last_token lines "subject_list" = Some "6966, 7038" ∧
  contains "," "6966, 7038" = true ∧
  get_subjects config None
  = Some (SubjectList (StrId <$> (strip <$> split "," "6966, 7038"))).
Proof.
  intros lines config.
  assert (H1 : _load_config lines = Some config) by (vm_compute; reflexivity).
  split; [exact H1|]. split; [reflexivity|]. split; [reflexivity|].
  exact (get_subjects_of_list lines config "6966, 7038" H1 eq_refl eq_refl).
Defined.

Lemma get_subjects_of_single_id_witness :
  let lines := ["subject_list=6966"] in
  let config : gmap string config_value := {[ "subject_list" := VInt 6966 ]} in
  _load_config lines = Some config ∧
  last_token lines "subject_list" = Some "6966" ∧
  isdigit "6966" = true ∧
  ∃ n, int_digits AtStart 0 "6966" = Some n
       ∧ get_subjects config None = Some (NotAList (VInt n)).
Proof.
  intros lines config.
  assert (H1 : _load_config lines = Some config) by (vm_compute; reflexivity).
  split; [exact H1|]. split; [reflexivity|]. split; [reflexivity|].
  exact (get_subjects_of_single_id lines config "6966" H1 eq_refl eq_refl).
Defined.

Lemma step_dir_per_subject_witness :
  get_subject_step_dir "output" (IntId 6966) "_kernel"
  = get_subject_step_dir "output" (IntId 6966) "_kernel" ∧
  6966 = 6966 ∧ "_kernel" = "_kernel".
Proof.
  assert (H1 : get_subject_step_dir "output" (IntId 6966) "_kernel"
               = get_subject_step_dir "output" (IntId 6966) "_kernel") by reflexivity.
  split; [exact H1|].
  exact (step_dir_per_subject "output" 6966 6966 "_kernel" "_kernel" H1).
Defined.

Lemma anchor_format_resolved_witness :
  let before := ["# subject=X,Y,Z"; "7038=1,2,3"] in
  let after := ["6966=0,0,0"] in
  spec_resolve before (IntId 6966) = AnchorNotFound ∧
  _load_manual_coordinates (before ++ anchor_format (IntId 6966) 10 63 (-4) :: after)
    (IntId 6966)
  = Some (10, 63, -4).
Proof.
  intros before after.
  assert (H1 : spec_resolve before (IntId 6966) = AnchorNotFound) by (vm_compute; reflexivity).
  split; [exact H1|].
  exact (anchor_format_resolved before after 6966 10 63 (-4) H1).
Defined.

Lemma join_reads_every_fifth_row_witness :
  let df_tiles := coord_frame [(CStr "Tile 1", 5000, 7000); (CStr "Tile 1", 5100, 7000)] in
  let df_tiles' := coord_frame [(CStr "Tile 1", 5000, 7000); (CStr "Tile 2", 0, 0);
                                (CStr "Tile 3", 1, 1)] in
  let df_at8 := at8_frame [(CStr "Tile 1", CFloat (1 # 2))] in
  rows df_at8 ≠ [] ∧
  (∀ i, rows df_tiles !! (5 * i)%nat = rows df_tiles' !! (5 * i)%nat) ∧
  processed_frame df_tiles df_at8 = processed_frame df_tiles' df_at8.
Proof.
  intros df_tiles df_tiles' df_at8.
  assert (H1 : rows df_at8 ≠ []) by done.
  assert (H2 : ∀ i, rows df_tiles !! (5 * i)%nat = rows df_tiles' !! (5 * i)%nat).
  { intros [|i]; [reflexivity|]. rewrite !lookup_ge_None_2 by (cbn; lia). reflexivity. }
  split; [exact H1|]. split; [exact H2|].
  exact (join_reads_every_fifth_row df_tiles df_tiles' df_at8 H1 H2).
Defined.

Lemma join_raises_on_unreadable_coordinate_witness :
  let df_tiles := {| columns := ["Name"; "X"; "Y"];
                     rows := [[CStr "Tile 1"; CNone; CStr "7000"]] |} in
  let df_at8 := at8_frame [(CStr "Tile 1", CFloat (1 # 2))] in
  (0 < length (rows df_at8))%nat ∧
  (5 * 0 < length (rows df_tiles))%nat ∧
  (iloc df_tiles (5 * 0) 1 ≫= py_int = None ∨ iloc df_tiles (5 * 0) 2 ≫= py_int = None) ∧
  processed_frame df_tiles df_at8 = None.
Proof.
  intros df_tiles df_at8.
  assert (H1 : (0 < length (rows df_at8))%nat) by (cbn; lia).
  assert (H2 : (5 * 0 < length (rows df_tiles))%nat) by (cbn; lia).
  assert (H3 : iloc df_tiles (5 * 0) 1 ≫= py_int = None
               ∨ iloc df_tiles (5 * 0) 2 ≫= py_int = None) by (left; reflexivity).
  split; [exact H1|]. split; [exact H2|]. split; [exact H3|].
  exact (join_raises_on_unreadable_coordinate df_tiles df_at8 0 H1 H2 H3).
Defined.

Lemma join_keeps_blank_rows_witness :
  let coords := [(CStr "Tile 1", 5000, 7000)] in
  let measurements := [(CStr "Tile 1", CFloat (1 # 2)); (CStr "Tile 2", CFloat (3 # 4))] in
  measurements ≠ [] ∧
  ∃ out, processed_frame (coord_frame coords) (at8_frame measurements) = Some out ∧
    rows out = (joined_row coords measurements
                  <$> seq 0 (spec_join_count (length measurements) (length coords)))
               ++ replicate (length measurements
                             - spec_join_count (length measurements) (length coords)) blank_row.
Proof.
  intros coords measurements.
  assert (H1 : measurements ≠ []) by done.
  split; [exact H1|]. exact (join_keeps_blank_rows coords measurements H1).
Defined.

Lemma fallback_table_stops_transform_witness :
  let df_tiles := coord_frame [(CStr "Tile 1", 5000, 7000)] in
  let df_at8 := at8_frame [] in
  ("Tile" ∉ columns df_tiles) ∧
  rows df_tiles ≠ [] ∧
  rows df_at8 = [] ∧
  read_tile_rows df_tiles = None
  ∧ ∃ out, processed_frame df_tiles df_at8 = Some out ∧ read_tile_rows out = None.
Proof.
  intros df_tiles df_at8.
  assert (H1 : "Tile" ∉ columns df_tiles).
  { intros H. repeat (apply elem_of_cons in H as [H|H]; [discriminate H|]).
    by apply elem_of_nil in H. }
  assert (H2 : rows df_tiles ≠ []) by done.
  split; [exact H1|]. split; [exact H2|]. split; [reflexivity|].
  exact (fallback_table_stops_transform df_tiles df_at8 H1 H2 eq_refl).
Defined.

Lemma blank_row_stops_transform_witness :
  let coords := [(CStr "Tile 1", 5000, 7000)] in
  let measurements := [(CStr "Tile 1", CFloat (1 # 2)); (CStr "Tile 2", CFloat (3 # 4))] in
  (1 < length measurements)%nat ∧
  (length coords ≤ 5 * 1)%nat ∧
  ∃ out, processed_frame (coord_frame coords) (at8_frame measurements) = Some out
         ∧ rows out !! 1%nat = Some blank_row
         ∧ read_tile_rows out = None.
Proof.
  intros coords measurements.
  assert (H1 : (1 < length measurements)%nat) by (cbn; lia).
  assert (H2 : (length coords ≤ 5 * 1)%nat) by (cbn; lia).
  split; [exact H1|]. split; [exact H2|].
  exact (blank_row_stops_transform coords measurements 1 H1 H2).
Defined.

Lemma joined_table_read_back_witness :
  let coords := (λ k, (CStr "Tile", 1000 * Z.of_nat k + 999, -1000 * Z.of_nat k - 1))
                  <$> seq 0 12 in
  let measurements := [(CStr "Tile 1", CFloat (1 # 2)); (CStr "Tile 2", CFloat (3 # 4));
                       (CStr "Tile 3", CInt 0)] in
  measurements ≠ [] ∧
  (5 * (length measurements - 1) < length coords)%nat ∧
  ∃ out records,
    processed_frame (coord_frame coords) (at8_frame measurements) = Some out
    ∧ read_tile_rows out = Some records
    ∧ length records = length measurements
    ∧ ∀ i c m, coords !! (5 * i)%nat = Some c → measurements !! i = Some m →
               records !! i = Some (c.1.1, c.1.2 / 1000, c.2 / 1000, m.2).
Proof.
  intros coords measurements.
  assert (H1 : measurements ≠ []) by done.
  assert (H2 : (5 * (length measurements - 1) < length coords)%nat) by (cbn; lia).
  split; [exact H1|]. split; [exact H2|].
  exact (joined_table_read_back coords measurements H1 H2).
Defined.

Lemma mask_order_independent_witness :
  let A := {| Tile := "A"; X := 3; Zc := 3; AT8 := 5 |} in
  let B := {| Tile := "B"; X := 5; Zc := 3; AT8 := 5 |} in
  [A; B] ≡ₚ [B; A] ∧
  (∀ row1 row2 p, row1 ∈ [A; B] → row2 ∈ [A; B] →
     covers (20, 20, 20) (0, 10, 0) 7 row1 p = true →
     covers (20, 20, 20) (0, 10, 0) 7 row2 p = true →
     AT8 row1 = AT8 row2) ∧
  fst <$> _create_3d_blocks (20, 20, 20) [A; B] (0, 10, 0) 7
  = fst <$> _create_3d_blocks (20, 20, 20) [B; A] (0, 10, 0) 7.
Proof.
  intros A B.
  assert (H1 : [A; B] ≡ₚ [B; A]) by apply perm_swap.
  assert (H2 : ∀ row1 row2 p, row1 ∈ [A; B] → row2 ∈ [A; B] →
             covers (20, 20, 20) (0, 10, 0) 7 row1 p = true →
             covers (20, 20, 20) (0, 10, 0) 7 row2 p = true →
             AT8 row1 = AT8 row2).
  { intros row1 row2 p Hr1 Hr2 _ _.
    repeat (apply elem_of_cons in Hr1 as [->|Hr1]);
      repeat (apply elem_of_cons in Hr2 as [->|Hr2]);
      try reflexivity; by apply elem_of_nil in Hr1 || by apply elem_of_nil in Hr2. }
  split; [exact H1|]. split; [exact H2|].
  exact (mask_order_independent (20, 20, 20) [A; B] [B; A] (0, 10, 0) 7 H1 H2).
Defined.

Lemma no_step_well_behaved : well_behaved no_step.
Proof. intros subject_id dry_run. split; [apply quiet_ret|]. intros w. by eexists. Qed.

Lemma stage_verdict_witness :
  let tools := mem_tools None [] in
  let subjects := [IntId 6966] in
  let w := start_world (∅ : gmap string frame) in
  let process := _process_subject (Tools0 := tools) "output" annotation_path
                   no_step no_step no_step no_step kernel in
  well_behaved process ∧
  let todo := if bool_decide (kernel = mni) then subjects
              else pending "output" kernel subjects true (fs w) in
  ∃ ok w', execute (Tools0 := tools) "output" "logs" annotation_path
             no_step no_step no_step no_step kernel subjects true false w = (Some ok, w')
    ∧ ((∃ s, s ∈ todo ∧ ∀ w0, (process s false w0).1 = Some false) → ok = false)
    ∧ ((∀ s, s ∈ todo → ∀ w0, (process s false w0).1 = Some true) → ok = true).
Proof.
  intros tools subjects w process.
  assert (Hwb : well_behaved process) by apply kernel_well_behaved.
  split; [exact Hwb|].
  exact (stage_verdict (Tools0 := tools) "output" "logs" annotation_path
           no_step no_step no_step no_step kernel subjects true false w Hwb).
Defined.

Lemma pipeline_without_mni_witness :
  let tools := mem_tools None [] in
  let w := start_world kernel_done_6966 in
  ("mni" ∉ ["kernel"]) ∧
  (∀ st s, quiet (_process_subject (Tools0 := tools) "output" annotation_path
                    no_step no_step no_step no_step st s false)) ∧
  processed_subjects mni
    (trace (run_pipeline (Tools0 := tools) ∅ "output" "logs" annotation_path
              no_step no_step no_step no_step [StrId "6966"] ["kernel"] false false w).2)
  = processed_subjects mni (trace w).
Proof.
  intros tools w.
  assert (H1 : "mni" ∉ ["kernel"]).
  { intros H. repeat (apply elem_of_cons in H as [H|H]; [discriminate H|]).
    by apply elem_of_nil in H. }
  assert (H2 : ∀ st s, quiet (_process_subject (Tools0 := tools) "output" annotation_path
                                no_step no_step no_step no_step st s false)).
  { intros st s. destruct st; cbn [_process_subject];
      first [ apply quiet_ret | apply extract_well_behaved | apply kernel_well_behaved ]. }
  split; [exact H1|]. split; [exact H2|].
  exact (pipeline_without_mni (Tools0 := tools) ∅ "output" "logs" annotation_path
           no_step no_step no_step no_step [StrId "6966"] ["kernel"] false false w H1 H2).
Defined.

Lemma extract_fails_without_tiles_witness :
  let tools := mem_tools (Some [ {| Name := Some "Layer 1";
                                    vertices := [(Some "0", Some "0")] |} ]) [] in
  let subject_id := StrId "6966" in
  let w := start_world inputs_6966 in
  let s1 := mkdir (output_dir "output" subject_id) (fs w) in
  path_exists (annotation_path subject_id) s1 = true ∧
  path_exists summary_csv_file s1 = true ∧
  match parse_annotations (Tools := tools) (annotation_path subject_id) s1 with
  | Some annotations =>
      Forall (λ a, Name a = Some "Layer 1" ∨ vertices a = []) annotations
  | None => True
  end ∧
  CoordinateExtractionStep_process_subject (Tools0 := tools) "output" annotation_path
    subject_id false w
  = (Some false, {| fs := s1; trace := trace w |}).
Proof.
  intros tools subject_id w s1.
  assert (H1 : path_exists (annotation_path subject_id) s1 = true) by (vm_compute; reflexivity).
  assert (H2 : path_exists summary_csv_file s1 = true) by (vm_compute; reflexivity).
  assert (H3 : match parse_annotations (Tools := tools) (annotation_path subject_id) s1 with
               | Some annotations =>
                   Forall (λ a, Name a = Some "Layer 1" ∨ vertices a = []) annotations
               | None => True
               end).
  { cbn [parse_annotations tools mem_tools]. repeat constructor. }
  split; [exact H1|]. split; [exact H2|]. split; [exact H3|].
  exact (extract_fails_without_tiles (Tools0 := tools) "output" annotation_path
           subject_id w H1 H2 H3).
Defined.

Lemma kernel_skips_existing_output_witness :
  let tools := mem_tools None [] in
  let w := start_world kernel_done_6966 in
  let output_dir := joinpath (joinpath "output" "6966") ("6966" +:+ "_kernel") in
  let output_file := joinpath output_dir ("6966" +:+ "_QNP_AT8_smoothed_sig2.nii.gz") in
  path_exists output_file (mkdir output_dir (fs w)) = true ∧
  KernelApplicationStep_process_subject (Tools0 := tools) "output" (StrId "6966") false w
  = (Some true, {| fs := mkdir output_dir (fs w); trace := trace w |}).
Proof.
  intros tools w output_dir output_file.
  assert (H1 : path_exists output_file (mkdir output_dir (fs w)) = true)
    by (vm_compute; reflexivity).
  split; [exact H1|].
  exact (kernel_skips_existing_output (Tools0 := tools) "output" "6966" w H1).
Defined.

Lemma mni_execute_runs_all_witness :
  let tools := mem_tools None [] in
  let subjects := [StrId "6966"; StrId "7038"] in
  let w := start_world mni_done_6966 in
  well_behaved no_step ∧
  ∃ ok w', execute (Tools0 := tools) "output" "logs" annotation_path
             no_step no_step no_step no_step mni subjects false false w = (Some ok, w')
    ∧ processed_subjects mni (trace w') = processed_subjects mni (trace w) ++ subjects.
Proof.
  intros tools subjects w.
  split; [exact no_step_well_behaved|].
  exact (mni_execute_runs_all (Tools0 := tools) "output" "logs" annotation_path
           no_step no_step no_step no_step subjects false false w no_step_well_behaved).
Defined.

(** ** The mask loop on the processed table *)






(** The loop on two tables the stages before can leave: a block size
    written [7.0] with a row inside the volume, and a blank row. *)
Example mask_loop_float_block_size :
  mask_loop {[ "block_size" := VFloat "7.0" ]} (10, 10, 10)
    {| columns := ["Tile"; "X"; "Z"; "AT8"];
       rows := [[CStr "Tile 1"; CInt 5; CInt 5; CFloat (1 # 2)]] |} (0, 5, 0)
  = None.
Proof. reflexivity. Qed.

Example mask_loop_blank_row :
  mask_loop ∅ (10, 10, 10)
    {| columns := ["Tile"; "X"; "Z"; "AT8"];
       rows := [[CStr "Tile 1"; CInt 5; CInt 5; CFloat (1 # 2)]; blank_row] |} (0, 5, 0)
  = None.
Proof. reflexivity. Qed.

(** ** [validate_inputs] *)

Section ValidationFacts.
Context {FS : Type} `{!Filesystem FS}.
Variable config : gmap string config_value.
Variable get_input_mgz_path : subject → option string.
Variable get_input_annotation_path : subject → option string.

Lemma missing_files_loop (s : FS) subjects missing :
  for_each (λ missing subject_id,
    mgz_path ← get_input_mgz_path subject_id;
    let missing := if path_exists mgz_path s then missing else missing ++ [mgz_path] in
    annotation_path ← get_input_annotation_path subject_id;
    Some (if path_exists annotation_path s then missing else missing ++ [annotation_path]))
    missing subjects
  = paths ← mapM (λ subject_id, mgz_path ← get_input_mgz_path subject_id;
                                annotation_path ← get_input_annotation_path subject_id;
                                Some (mgz_path, annotation_path)) subjects;
    Some (missing ++ (pq ← paths;
                      (if path_exists pq.1 s then [] else [pq.1])
                      ++ (if path_exists pq.2 s then [] else [pq.2]))).
Proof.
  revert missing. induction subjects as [|subject_id rest IH]; intros missing.
  - cbn. by rewrite app_nil_r.
  - cbn [for_each mapM].
    destruct (get_input_mgz_path subject_id) as [p|]; [|reflexivity].
    cbn [mbind option_bind].
    destruct (get_input_annotation_path subject_id) as [q|]; [|reflexivity].
    cbn [mbind option_bind]. rewrite IH.
    destruct (mapM _ rest) as [paths|]; [|reflexivity].
    cbn [mbind option_bind mret option_ret list_bind fst snd]. f_equal.
    destruct (path_exists p s), (path_exists q s); cbn [app];
      by rewrite <- ?app_assoc.
Qed.

(** X8.  [QNPPipeline.validate_inputs], with what makes it raise.  Its
    subjects are the ones it is given, or those of the configuration when
    it is given none.  It raises when the configuration has no list of
    subjects to give, and when the path of an input cannot be built for
    one of the subjects; otherwise it answers [True] exactly when every
    subject has its image and its annotation file.  It changes nothing in
    any case. *)
Theorem validate_inputs_all_present subjects (w : World FS) :
  QNPPipeline_validate_inputs config get_input_mgz_path get_input_annotation_path subjects w
  = match (if bool_decide (subjects = [])
           then match get_subjects config None with
                | Some (SubjectList subjects) => Some subjects
                | _ => None
                end
           else Some subjects) with
    | None => (None, w)
    | Some subjects =>
        match mapM (λ subject_id, mgz_path ← get_input_mgz_path subject_id;
                                  annotation_path ← get_input_annotation_path subject_id;
                                  Some (mgz_path, annotation_path)) subjects with
        | None => (None, w)
        | Some paths =>
            (Some (forallb (λ pq, path_exists pq.1 (fs w) && path_exists pq.2 (fs w)) paths),
             w)
        end
    end.
Proof.
  assert (Hloop : ∀ l, validate_inputs get_input_mgz_path get_input_annotation_path l w
            = match mapM (λ subject_id, mgz_path ← get_input_mgz_path subject_id;
                            annotation_path ← get_input_annotation_path subject_id;
                            Some (mgz_path, annotation_path)) l with
              | None => (None, w)
              | Some paths =>
                  (Some (forallb (λ pq, path_exists pq.1 (fs w) && path_exists pq.2 (fs w))
                           paths), w)
              end).
  { intros l. unfold validate_inputs, missing_files, mbind at 1, M_bind at 1.
    rewrite missing_files_loop. destruct (mapM _ l) as [paths|]; [|reflexivity].
    cbn [mbind option_bind app]. f_equal.
    induction paths as [|[p q] paths IH]; [reflexivity|].
    cbn [mbind list_bind forallb fst snd].
    destruct (path_exists p (fs w)); [|reflexivity].
    destruct (path_exists q (fs w)); [|reflexivity]. exact IH. }
  unfold QNPPipeline_validate_inputs.
  destruct (bool_decide (subjects = [])); [|exact (Hloop subjects)].
  destruct (get_subjects config None) as [[l|v]|]; [exact (Hloop l)|reflexivity..].
Qed.

End ValidationFacts.
